(** * o1-engineer: the model provider abstraction and the response-to-action
    pipeline, embedded from [model_manager.py] and [o1-eng.py].

    Python [str] values are modelled as Rocq [string]s, i.e. sequences of
    code points in the range 0..255; the character classes below are the
    restriction of Python's Unicode classes to that range.  Python [dict]s
    whose iteration order is observable ([added_files], the edit instruction
    map) are insertion-ordered association lists with unique keys; the
    filesystem, the process environment and the static model registry, whose
    order is never observed, are [gmap]s. *)

From Stdlib Require Import String Ascii ZArith List Lia Bool DecimalString.
From stdpp Require Import gmap strings list fin_maps.
From Equations Require Import Equations.

Local Open Scope string_scope.

(** ** Python text primitives *)

Module Py.

Definition code (c : ascii) : N := N_of_ascii c.

Definition between (lo hi n : N) : bool := ((lo <=? n) && (n <=? hi))%N.

(** [str.isspace] on one character; also the regular expression class
    [\s] of a [str] pattern. *)
Definition isspace (c : ascii) : bool :=
  let n := code c in
  between 9 13 n || between 28 32 n || (n =? 133)%N || (n =? 160)%N.

(** The regular expression class [\w] of a [str] pattern: alphanumeric
    code points and the underscore. *)
Definition isword (c : ascii) : bool :=
  let n := code c in
  between 48 57 n || between 65 90 n || between 97 122 n || (n =? 95)%N
  || (n =? 170)%N || (n =? 178)%N || (n =? 179)%N || (n =? 181)%N
  || (n =? 185)%N || (n =? 186)%N || between 188 190 n
  || between 192 214 n || between 216 246 n || between 248 255 n.

Definition newline : ascii := ascii_of_N 10.
Definition nl : string := String newline EmptyString.

(** [s.lstrip()], [s.rstrip()], [s.strip()] *)
Fixpoint lstrip (s : string) : string :=
  match s with
  | EmptyString => EmptyString
  | String c s' => if isspace c then lstrip s' else s
  end.

Fixpoint rstrip (s : string) : string :=
  match s with
  | EmptyString => EmptyString
  | String c s' =>
      match rstrip s' with
      | EmptyString => if isspace c then EmptyString else String c EmptyString
      | r => String c r
      end
  end.

Definition strip (s : string) : string := rstrip (lstrip s).

(** Truth value of a [str]: the empty string is false. *)
Definition truthy (s : string) : bool :=
  match s with EmptyString => false | _ => true end.

(** Truth value of an optional [str]: [None] and the empty string are false. *)
Definition truthy_opt (o : option string) : bool :=
  match o with Some s => truthy s | None => false end.

(** [s.startswith(p)] *)
Definition startswith (p s : string) : bool := String.prefix p s.

(** [s[n:]] for [n >= 0] *)
Fixpoint slice_from (n : nat) (s : string) : string :=
  match n, s with
  | O, _ => s
  | S n', String _ s' => slice_from n' s'
  | S _, EmptyString => EmptyString
  end.

(** [s[:n]] for [n >= 0] *)
Fixpoint slice_to (n : nat) (s : string) : string :=
  match n, s with
  | S n', String c s' => String c (slice_to n' s')
  | _, _ => EmptyString
  end.

(** [s.split(sep)] for a one-character separator: never the empty list. *)
Fixpoint split_char (sep : ascii) (s : string) : list string :=
  match s with
  | EmptyString => [EmptyString]
  | String c s' =>
      if Ascii.eqb c sep then EmptyString :: split_char sep s'
      else match split_char sep s' with
           | [] => [String c EmptyString]
           | w :: ws => String c w :: ws
           end
  end.

(** [s.split(sep, 1)] for a one-character separator: one or two pieces. *)
Fixpoint split_once (sep : ascii) (s : string) : string * option string :=
  match s with
  | EmptyString => (EmptyString, None)
  | String c s' =>
      if Ascii.eqb c sep then (EmptyString, Some s')
      else let '(h, t) := split_once sep s' in (String c h, t)
  end.

(** [sep.join(l)] *)
Definition join (sep : string) (l : list string) : string := String.concat sep l.

(** [l[-n:]] for [n > 0]: the last [n] elements, the whole list when it is
    shorter. *)
Definition last_n {A} (n : nat) (l : list A) : list A :=
  skipn (length l - n) l.

(** [str(x)] of an optional string ([None] prints as the word None). *)
Definition str_opt (o : option string) : string :=
  match o with Some s => s | None => "None" end.

(** [len(s)] *)
Definition len (s : string) : Z := Z.of_nat (String.length s).

(** [sub in s] *)
Fixpoint contains (sub s : string) : bool :=
  startswith sub s ||
  match s with
  | EmptyString => false
  | String _ s' => contains sub s'
  end.

(** [s.split()]: the maximal runs of non-whitespace characters.  [word]
    holds the run being read, if any. *)
Fixpoint split_ws_from (word : option string) (s : string) : list string :=
  match s with
  | EmptyString => match word with Some w => [w] | None => [] end
  | String c s' =>
      if isspace c then
        match word with
        | Some w => w :: split_ws_from None s'
        | None => split_ws_from None s'
        end
      else
        split_ws_from
          (Some (match word with Some w => w | None => EmptyString end
                 ++ String c EmptyString)) s'
  end.

Definition split_ws (s : string) : list string := split_ws_from None s.

(** [c * n] for a one-character string [c] *)
Fixpoint repeat_char (c : ascii) (n : nat) : string :=
  match n with
  | O => EmptyString
  | S n' => String c (repeat_char c n')
  end.

(** [s.lower()]: among the code points below 256 the letters [A-Z] and the
    capital letters of Latin-1 have a lower-case form, 32 further on. *)
Definition lower_char (c : ascii) : ascii :=
  let n := code c in
  if between 65 90 n || between 192 214 n || between 216 222 n
  then ascii_of_N (n + 32) else c.

Fixpoint lower (s : string) : string :=
  match s with
  | EmptyString => EmptyString
  | String c s' => String (lower_char c) (lower s')
  end.

End Py.

(** ** Insertion-ordered dictionaries *)

Module Dict.

Definition t (V : Type) : Type := list (string * V).

Definition empty {V} : t V := [].

(** [d.get(k)] *)
Fixpoint get {V} (k : string) (d : t V) : option V :=
  match d with
  | [] => None
  | (k', v) :: d' => if String.eqb k k' then Some v else get k d'
  end.

(** [k in d] *)
Definition mem {V} (k : string) (d : t V) : bool :=
  match get k d with Some _ => true | None => false end.

(** [d[k] = v]: an existing key keeps its position, a new key goes last. *)
Fixpoint set {V} (k : string) (v : V) (d : t V) : t V :=
  match d with
  | [] => [(k, v)]
  | (k', v') :: d' =>
      if String.eqb k k' then (k', v) :: d' else (k', v') :: set k v d'
  end.

Definition keys {V} (d : t V) : list string := map fst d.
Definition values {V} (d : t V) : list V := map snd d.

(** The representation invariant of a dictionary: keys are unique. *)
Definition wf {V} (d : t V) : Prop := NoDup (keys d).

End Dict.

(** ** The fragment of Python's [re] used by the program *)

Module Re.

Inductive cclass : Type :=
| Word      (* \w *)
| Space     (* \s *)
| AnyChar   (* [\s\S] *)
| Dot.      (* . without DOTALL: anything but a newline *)

Definition in_class (c : cclass) (a : ascii) : bool :=
  match c with
  | Word => Py.isword a
  | Space => Py.isspace a
  | AnyChar => true
  | Dot => negb (Ascii.eqb a Py.newline)
  end.

Inductive regex : Type :=
| Lit (s : string)
| Rep (c : cclass) (min : nat) (greedy : bool)   (* c*  c+  c*?  c+? *)
| Alt (r1 r2 : regex)
| Opt (r : regex)                                (* (?:r)? *)
| Group (r : regex)                              (* (r), capturing *)
| Seq (r1 r2 : regex).

Definition captures : Type := list string.

Section Matcher.
Context {R : Type}.

(** What remains to be matched after a sub-expression: it receives the
    rest of the subject and the groups closed so far. *)
Definition cont : Type := string -> captures -> option R.

(** Backtracking repetition of a character class.  A greedy repetition
    first takes one more character and gives it back when the rest fails;
    a lazy one first tries the rest. *)
Fixpoint rep (c : cclass) (greedy : bool) (min : nat) (s : string)
    (caps : captures) (k : cont) : option R :=
  let more :=
    match s with
    | String a s' =>
        if in_class c a then rep c greedy (Nat.pred min) s' caps k else None
    | EmptyString => None
    end in
  match min with
  | S _ => more
  | O =>
      if greedy then
        match s with
        | String a s' =>
            match more with
            | Some r => Some r
            | None => k s caps
            end
        | EmptyString => k s caps
        end
      else
        match k s caps with
        | Some r => Some r
        | None => more
        end
  end.

Fixpoint run (r : regex) (s : string) (caps : captures) (k : cont)
    : option R :=
  match r with
  | Lit l =>
      if Py.startswith l s then k (Py.slice_from (String.length l) s) caps
      else None
  | Rep c min greedy => rep c greedy min s caps k
  | Alt r1 r2 =>
      match run r1 s caps k with
      | Some x => Some x
      | None => run r2 s caps k
      end
  | Opt r1 =>
      match run r1 s caps k with
      | Some x => Some x
      | None => k s caps
      end
  | Group r1 =>
      run r1 s caps (fun s' caps' =>
        k s' (caps' ++ [Py.slice_to (String.length s - String.length s') s])%list)
  | Seq r1 r2 =>
      run r1 s caps (fun s' caps' => run r2 s' caps' k)
  end.
End Matcher.

(** A match anchored at the start of [s]: the groups and the unmatched rest. *)
Definition match_at (r : regex) (s : string) : option (captures * string) :=
  run r s [] (fun rest caps => Some (caps, rest)).

(** [re.match(r, s)]: the groups of the match at the start of [s]. *)
Definition re_match (r : regex) (s : string) : option captures :=
  option_map fst (match_at r s).

(** [re.findall(r, s)] for a pattern with one group whose matches are never
    empty: the group of every match, scanning left to right without
    overlap.  [skip] counts the characters of the last match that are still
    to be passed over. *)
Fixpoint findall_from (r : regex) (skip : nat) (s : string) : list string :=
  match skip with
  | S n =>
      match s with
      | EmptyString => []
      | String _ s' => findall_from r n s'
      end
  | O =>
      match match_at r s with
      | Some (caps, rest) =>
          let consumed := String.length s - String.length rest in
          hd EmptyString caps ::
          match s with
          | EmptyString => []
          | String _ s' => findall_from r (Nat.pred consumed) s'
          end
      | None =>
          match s with
          | EmptyString => []
          | String _ s' => findall_from r 0 s'
          end
      end
  end.

Definition findall (r : regex) (s : string) : list string := findall_from r 0 s.

(** [re.sub(r, "", s, count=1)]: the leftmost match is deleted. *)
Fixpoint delete_first (r : regex) (s : string) : string :=
  match match_at r s with
  | Some (_, rest) => rest
  | None =>
      match s with
      | EmptyString => EmptyString
      | String a s' => String a (delete_first r s')
      end
  end.

End Re.

(** ** Exceptions and effects *)

(** The exception classes the program raises or catches.  [Builtin] stands
    for Python's own [Exception] subclasses other than [ValueError]
    and [OSError] ([AttributeError], [IndexError], ...), [OSError] for that
    class and its subclasses, [Native] for the exception types of a
    provider's client library.  All of them derive from [Exception]. *)
Inductive exn_class : Type :=
| ValueError
| OSError
| Builtin (name : string)
| Native (name : string)
| ModelError
| ModelConfigurationError
| ModelAPIError
| ModelNotFoundError.

(** An exception object: its class, [str(e)], and [e.__context__], the
    exception that was being handled when it was raised. *)
#[warnings="-register-all"]
Inductive exn : Type :=
| Exn (cls : exn_class) (msg : string) (context : option exn).

Definition exn_cls (e : exn) : exn_class := let 'Exn c _ _ := e in c.
Definition exn_str (e : exn) : string := let 'Exn _ m _ := e in m.
Definition exn_context (e : exn) : option exn := let 'Exn _ _ c := e in c.

(** [isinstance(e, ModelError)]: the three model exceptions derive from it. *)
Definition is_ModelError (e : exn) : bool :=
  match exn_cls e with
  | ModelError | ModelConfigurationError | ModelAPIError
  | ModelNotFoundError => true
  | _ => false
  end.

(** [isinstance(e, ModelConfigurationError)] *)
Definition is_ModelConfigurationError (e : exn) : bool :=
  match exn_cls e with ModelConfigurationError => true | _ => false end.

Definition is_ValueError (e : exn) : bool :=
  match exn_cls e with ValueError => true | _ => false end.

Definition is_OSError (e : exn) : bool :=
  match exn_cls e with OSError => true | _ => false end.

(** [except Exception] *)
Definition is_Exception (e : exn) : bool := true.

(** A provider-native exception type. *)
Definition is_Native (e : exn) : bool :=
  match exn_cls e with Native _ => true | _ => false end.

Inductive result (A : Type) : Type :=
| Ok (a : A)
| Raised (e : exn).
Arguments Ok {A} a.
Arguments Raised {A} e.

(** Computations over a state [S] that return or raise. *)
Definition M (S A : Type) : Type := S -> result A * S.

Definition ret {S A} (a : A) : M S A := fun s => (Ok a, s).
Definition raise {S A} (e : exn) : M S A := fun s => (Raised e, s).

Definition bind {S A B} (m : M S A) (f : A -> M S B) : M S B :=
  fun s => match m s with
           | (Ok a, s') => f a s'
           | (Raised e, s') => (Raised e, s')
           end.

(** [try: m except C1 as e: h1 e except C2 as e: h2 e ...]: the first
    clause whose classes contain the exception handles it.  An exception
    raised by a handler propagates, with the handled one as its context. *)
Definition set_context (e0 : exn) (e : exn) : exn :=
  let 'Exn c m _ := e in Exn c m (Some e0).

Definition clause (S A : Type) : Type := (exn -> bool) * (exn -> M S A).

Fixpoint handle {S A} (clauses : list (clause S A)) (e : exn) : M S A :=
  match clauses with
  | [] => raise e
  | (catches, h) :: rest =>
      if catches e then
        fun s => match h e s with
                 | (Ok a, s') => (Ok a, s')
                 | (Raised e', s') => (Raised (set_context e e'), s')
                 end
      else handle rest e
  end.

Definition try_clauses {S A} (m : M S A) (clauses : list (clause S A))
    : M S A :=
  fun s => match m s with
           | (Ok a, s') => (Ok a, s')
           | (Raised e, s') => handle clauses e s'
           end.

Definition try_except {S A} (m : M S A) (catches : exn -> bool)
    (h : exn -> M S A) : M S A :=
  try_clauses m [(catches, h)].

Definition gets {S A} (f : S -> A) : M S A := fun s => (Ok (f s), s).
Definition modify {S} (f : S -> S) : M S unit := fun s => (Ok tt, f s).

(** Running a computation on a component of a larger state. *)
Definition zoom {S T A} (proj : T -> S) (inj : S -> T -> T) (m : M S A)
    : M T A :=
  fun t => let '(r, s') := m (proj t) in (r, inj s' t).

Declare Scope py_scope.
Delimit Scope py_scope with py.
Notation "x <- m ;; k" := (bind m (fun x => k))
  (at level 100, m at next level, right associativity) : py_scope.
Notation "m ;;; k" := (bind m (fun _ => k))
  (at level 100, right associativity) : py_scope.
Local Open Scope py_scope.

(** ** model_manager.py *)

Module Model.

Inductive ModelProvider : Type := OPENAI | ANTHROPIC | OLLAMA.

(** The value of an enum member, and [ModelProvider(value)]. *)
Definition provider_value (p : ModelProvider) : string :=
  match p with
  | OPENAI => "openai"
  | ANTHROPIC => "anthropic"
  | OLLAMA => "ollama"
  end.

Definition provider_of_value (v : string) : option ModelProvider :=
  if String.eqb v "openai" then Some OPENAI
  else if String.eqb v "anthropic" then Some ANTHROPIC
  else if String.eqb v "ollama" then Some OLLAMA
  else None.

(** [str(p)] of an enum member, as an f-string prints it. *)
Definition provider_str (p : ModelProvider) : string :=
  match p with
  | OPENAI => "ModelProvider.OPENAI"
  | ANTHROPIC => "ModelProvider.ANTHROPIC"
  | OLLAMA => "ModelProvider.OLLAMA"
  end.

Record ModelConfig : Type := {
  max_tokens : Z;
  supports_tools : bool;
  streaming : bool;
  requires_api_key : bool;
  env_key : option string
}.

Definition MODEL_CONFIG : gmap string ModelConfig :=
  <[ "anthropic/claude-3-5-sonnet-latest" :=
       {| max_tokens := 8192; supports_tools := true; streaming := true;
          requires_api_key := true; env_key := Some "ANTHROPIC_API_KEY" |} ]>
  (<[ "ollama/qwen2.5-coder:14b" :=
       {| max_tokens := 8192; supports_tools := true; streaming := true;
          requires_api_key := false; env_key := None |} ]>
  (<[ "openai/gpt-4o" :=
       {| max_tokens := 8192; supports_tools := true; streaming := true;
          requires_api_key := true; env_key := Some "OPENAI_API_KEY" |} ]>
   ∅)).

(** *** Messages and responses *)

Record ChatMessage : Type := { role : string; content : string }.

Definition ToolCall : Type := string.

(** What [ollama.AsyncClient.chat] returns, as far as the program reads it,
    together with the token counts the native response carries. *)
Record OllamaMessage : Type := {
  om_content : option string;            (* key may be missing *)
  om_tool_calls : option (list ToolCall) (* key may be missing *)
}.

Record OllamaResponse : Type := {
  o_message : option OllamaMessage;      (* key may be missing *)
  o_prompt_eval_count : option Z;
  o_eval_count : option Z
}.

Inductive ContentBlock : Type :=
| TextBlock (text : string)
| ToolUseBlock (name : string).

Record AnthropicUsage : Type := { input_tokens : Z; output_tokens : Z }.

Record AnthropicResponse : Type := {
  a_content : list ContentBlock;
  a_tool_calls : option (list ToolCall);   (* attribute may be missing *)
  a_usage : option AnthropicUsage          (* attribute may be missing *)
}.

Record OpenAIChoice : Type := {
  c_content : option string;
  c_tool_calls : option (list ToolCall)
}.

Record OpenAIResponse : Type := {
  oa_choices : list OpenAIChoice;
  (* attribute missing / attribute None / a usage object's total *)
  oa_usage : option (option Z)
}.

Record Usage : Type := { total_tokens : Z }.

(** The normalized response.  [r_content] is optional because the OpenAI
    adapter passes the native message content through, which may be
    [None]. *)
Record ChatResponse : Type := {
  r_content : option string;
  r_tool_calls : list ToolCall;
  r_usage : Usage
}.

Inductive Client : Type :=
| OllamaClient
| AnthropicClient (api_key : option string)
| OpenAIClient (api_key : option string).

Inductive Request : Type :=
| OllamaChat (model : string) (messages : list ChatMessage)
| AnthropicCreate (model : string) (max_tok : Z) (messages : list ChatMessage)
| OpenAICreate (model : string) (messages : list ChatMessage).

(** The provider libraries and the network behind them.  The number given
    to a call is the number of requests sent before it. *)
Record Transport : Type := {
  connect : Client -> option exn;
  ollama_chat : nat -> string -> list ChatMessage -> result OllamaResponse;
  anthropic_create :
    nat -> string -> Z -> list ChatMessage -> result AnthropicResponse;
  openai_create : nat -> string -> list ChatMessage -> result OpenAIResponse
}.

(** The process state the module reads and writes: the environment, the
    contents of the [.env] file, the clients constructed and the requests
    sent so far. *)
Record Sys : Type := {
  environ : gmap string string;
  dotenv : gmap string string;
  built : list Client;
  sent : list Request
}.

Definition with_environ (e : gmap string string) (s : Sys) : Sys :=
  {| environ := e; dotenv := dotenv s; built := built s; sent := sent s |}.
Definition with_built (b : list Client) (s : Sys) : Sys :=
  {| environ := environ s; dotenv := dotenv s; built := b; sent := sent s |}.
Definition with_sent (r : list Request) (s : Sys) : Sys :=
  {| environ := environ s; dotenv := dotenv s; built := built s; sent := r |}.

(** [load_dotenv()]: variables of the file are added, existing ones win. *)
Definition load_dotenv : M Sys unit :=
  modify (fun s => with_environ (environ s ∪ dotenv s) s).

(** [os.getenv(name)] *)
Definition getenv (name : string) : M Sys (option string) :=
  gets (fun s => environ s !! name).

Record ModelManager : Type := {
  full_model_name : string;
  provider : ModelProvider;
  model_name : string;
  _client : option Client
}.

Definition with_client (c : option Client) (m : ModelManager) : ModelManager :=
  {| full_model_name := full_model_name m; provider := provider m;
     model_name := model_name m; _client := c |}.

Definition parse_model_name (model_name : string)
    : M Sys (ModelProvider * string) :=
  try_except
    (match Py.split_once "/" model_name with
     | (provider, Some model) =>
         match provider_of_value provider with
         | Some p => ret (p, model)
         | None =>
             raise (Exn ValueError
                      (provider ++ " is not a valid ModelProvider") None)
         end
     | (_, None) =>
         raise (Exn ValueError
                  "not enough values to unpack (expected 2, got 1)" None)
     end)
    is_ValueError
    (fun _ => raise (Exn ModelConfigurationError
                       ("Invalid model name format: " ++ model_name) None)).

Definition load_model_config : M Sys string :=
  load_dotenv ;;;
  model <- getenv "MODEL" ;;
  match model with
  | Some model =>
      if negb (Py.truthy model) then
        raise (Exn ModelConfigurationError
                 "MODEL not found in environment variables" None)
      else
        match MODEL_CONFIG !! model with
        | None =>
            raise (Exn ModelNotFoundError
                     ("Model " ++ model ++ " not found in configuration") None)
        | Some _ => ret model
        end
  | None =>
      raise (Exn ModelConfigurationError
               "MODEL not found in environment variables" None)
  end.

Definition validate_api_keys (model_name : string) : M Sys unit :=
  match MODEL_CONFIG !! model_name with
  | None =>
      raise (Exn ModelNotFoundError
               ("Model " ++ model_name ++ " not found in configuration") None)
  | Some config =>
      if requires_api_key config then
        match env_key config with
        | Some key =>
            api_key <- getenv key ;;
            if negb (Py.truthy_opt api_key) then
              raise (Exn ModelConfigurationError
                       ("API key " ++ key ++ " required for " ++ model_name
                        ++ " not found in environment variables") None)
            else ret tt
        | None =>
            raise (Exn (Builtin "TypeError")
                     "str expected, not NoneType" None)
        end
      else ret tt
  end.

(** [ModelManager.__init__] *)
Definition init : M Sys ModelManager :=
  full <- load_model_config ;;
  parsed <- parse_model_name full ;;
  let '(p, name) := parsed in
  let self := {| full_model_name := full; provider := p; model_name := name;
                 _client := None |} in
  validate_api_keys full ;;;
  ret self.

(** A manager object together with the process state it lives in. *)
Record Proc : Type := { mgr : ModelManager; sys : Sys }.

Definition on_sys {A} (m : M Sys A) : M Proc A :=
  zoom sys (fun s p => {| mgr := mgr p; sys := s |}) m.

Definition set_mgr (m : ModelManager) : M Proc unit :=
  modify (fun p => {| mgr := m; sys := sys p |}).

Section Adapters.
Variable net : Transport.

(** Calling a client constructor of a provider library. *)
Definition construct (c : Client) : M Sys Client :=
  match connect net c with
  | Some e => raise e
  | None => modify (fun s => with_built (built s ++ [c]) s) ;;; ret c
  end.

Definition _initialize_client : M Proc Client :=
  self <- gets mgr ;;
  try_except
    (match provider self with
     | OLLAMA => on_sys (construct OllamaClient)
     | ANTHROPIC =>
         key <- on_sys (getenv "ANTHROPIC_API_KEY") ;;
         on_sys (construct (AnthropicClient key))
     | OPENAI =>
         key <- on_sys (getenv "OPENAI_API_KEY") ;;
         on_sys (construct (OpenAIClient key))
     end)
    is_Exception
    (fun e => raise (Exn ModelConfigurationError
                       ("Error initializing client for "
                        ++ provider_str (provider self) ++ ": " ++ exn_str e)
                       None)).

(** The [client] property: built on first use, then kept. *)
Definition client : M Proc Client :=
  self <- gets mgr ;;
  match _client self with
  | Some c => ret c
  | None =>
      c <- _initialize_client ;;
      self <- gets mgr ;;
      set_mgr (with_client (Some c) self) ;;;
      ret c
  end.

(** Sending a request: it is recorded, then the transport answers. *)
Definition send {A} (rq : Request) (answer : nat -> result A) : M Proc A :=
  on_sys (fun s => (answer (length (sent s)),
                    with_sent (sent s ++ [rq]) s)).

Definition role_content (messages : list ChatMessage) : list ChatMessage :=
  map (fun msg => {| role := role msg; content := content msg |}) messages.

Definition _format_ollama_response (response : OllamaResponse)
    : ChatResponse :=
  {| r_content :=
       Some match o_message response with
            | Some m => match om_content m with Some c => c | None => "" end
            | None => ""
            end;
     r_tool_calls :=
       match o_message response with
       | Some m => match om_tool_calls m with Some t => t | None => [] end
       | None => []
       end;
     r_usage := {| total_tokens := 0 |} |}.

Definition _format_anthropic_response (response : AnthropicResponse)
    : M Proc ChatResponse :=
  text <- match a_content response with
          | [] => ret ""
          | TextBlock t :: _ => ret t
          | ToolUseBlock _ :: _ =>
              raise (Exn (Builtin "AttributeError")
                       "'ToolUseBlock' object has no attribute 'text'" None)
          end ;;
  ret {| r_content := Some text;
         r_tool_calls :=
           match a_tool_calls response with Some t => t | None => [] end;
         r_usage :=
           {| total_tokens :=
                match a_usage response with
                | Some u => input_tokens u + output_tokens u
                | None => 0
                end |} |}.

Definition _format_openai_response (response : OpenAIResponse)
    : M Proc ChatResponse :=
  match oa_choices response with
  | [] => raise (Exn (Builtin "IndexError") "list index out of range" None)
  | choice :: _ =>
      usage <- match oa_usage response with
               | Some (Some total) => ret {| total_tokens := total |}
               | Some None =>
                   raise (Exn (Builtin "AttributeError")
                            "'NoneType' object has no attribute 'dict'" None)
               | None => ret {| total_tokens := 0 |}
               end ;;
      ret {| r_content := c_content choice;
             r_tool_calls :=
               match c_tool_calls choice with Some t => t | None => [] end;
             r_usage := usage |}
  end.

Definition _ollama_chat (messages : list ChatMessage)
    : M Proc ChatResponse :=
  _ <- client ;;
  self <- gets mgr ;;
  let msgs := role_content messages in
  response <- send (OllamaChat (model_name self) msgs)
                (fun n => ollama_chat net n (model_name self) msgs) ;;
  ret (_format_ollama_response response).

Definition _anthropic_chat (messages : list ChatMessage)
    : M Proc ChatResponse :=
  _ <- client ;;
  self <- gets mgr ;;
  match MODEL_CONFIG !! full_model_name self with
  | None =>
      raise (Exn (Builtin "KeyError") ("'" ++ full_model_name self ++ "'")
               None)
  | Some config =>
      let msgs := role_content messages in
      response <- send (AnthropicCreate (model_name self)
                          (max_tokens config) msgs)
                    (fun n => anthropic_create net n (model_name self)
                                (max_tokens config) msgs) ;;
      _format_anthropic_response response
  end.

Definition _openai_chat (messages : list ChatMessage)
    : M Proc ChatResponse :=
  _ <- client ;;
  self <- gets mgr ;;
  let msgs := role_content messages in
  response <- send (OpenAICreate (model_name self) msgs)
                (fun n => openai_create net n (model_name self) msgs) ;;
  _format_openai_response response.

Definition _format_messages (self : ModelManager)
    (messages : list ChatMessage) : list ChatMessage :=
  match provider self with
  | ANTHROPIC => role_content messages
  | _ => messages
  end.

(** [ModelManager.chat_completion] *)
Definition chat_completion (messages : list ChatMessage)
    : M Proc ChatResponse :=
  self <- gets mgr ;;
  try_except
    (let formatted_messages := _format_messages self messages in
     match provider self with
     | OLLAMA => _ollama_chat formatted_messages
     | ANTHROPIC => _anthropic_chat formatted_messages
     | OPENAI => _openai_chat formatted_messages
     end)
    is_Exception
    (fun e => raise (Exn ModelAPIError
                       ("Error in chat completion with "
                        ++ provider_str (provider self) ++ ": " ++ exn_str e)
                       None)).
End Adapters.

End Model.

(** ** o1-eng.py *)

Module Eng.
Import Model.

Definition MAX_FILE_SIZE : Z := 200 * 1024.
Definition MAX_TOTAL_SIZE : Z := MAX_FILE_SIZE * 3.

Definition EDIT_INSTRUCTION_PROMPT : string :=
"You are an advanced o1 engineer designed to analyze files and provide edit instructions based on user requests. Your task is to:

1. Understand the User Request: Carefully interpret what the user wants to achieve with the modification.
2. Analyze the File(s): Review the content of the provided file(s).
3. Generate Edit Instructions: Provide clear, step-by-step instructions on how to modify the file(s) to address the user's request.

Your response should be in the following format:

```
File: [file_path]
Instructions:
1. [First edit instruction]
2. [Second edit instruction]
...

File: [another_file_path]
Instructions:
1. [First edit instruction]
2. [Second edit instruction]
...
```

Only provide instructions for files that need changes. Be specific and clear in your instructions.".

Definition APPLY_EDITS_PROMPT : string :=
"
Rewrite an entire file or files using edit instructions provided by another AI.

Ensure the entire content is rewritten from top to bottom incorporating the specified changes.

# Steps

1. **Receive Input:** Obtain the file(s) and the edit instructions. The files can be in various formats (e.g., .txt, .docx).
2. **Analyze Content:** Understand the content and structure of the file(s).
3. **Review Instructions:** Carefully examine the edit instructions to comprehend the required changes.
4. **Apply Changes:** Rewrite the entire content of the file(s) from top to bottom, incorporating the specified changes.
5. **Verify Consistency:** Ensure that the rewritten content maintains logical consistency and cohesiveness.
6. **Final Review:** Perform a final check to ensure all instructions were followed and the rewritten content meets the quality standards.
7. Do not include any explanations, additional text, or code block markers (such as ```html or ```).

Provide the output as the FULLY NEW WRITTEN file(s).
NEVER ADD ANY CODE BLOCK MARKER AT THE BEGINNING OF THE FILE OR AT THE END OF THE FILE (such as ```html or ```). 

".

(** *** The world the script runs in *)

(** A filesystem entry.  A file's bytes are identified with its text, which
    is exact for ASCII content. *)
Inductive node : Type :=
| File (data : string) (readable writable : bool)
| Dir (readable writable : bool).

Inductive level : Type := INFO | WARNING | ERROR.

Record World : Type := {
  proc : Proc;                               (* model_manager *)
  fs : gmap string node;                     (* keyed by normalized path *)
  conversation_history : list (option string);
  last_ai_response : option string;
  log : list (level * string);               (* logging records *)
  stdout : list string;                      (* lines printed *)
  slept : list Z                             (* time.sleep arguments *)
}.

Definition with_proc (p : Proc) (w : World) : World :=
  {| proc := p; fs := fs w; conversation_history := conversation_history w;
     last_ai_response := last_ai_response w; log := log w;
     stdout := stdout w; slept := slept w |}.
Definition with_fs (f : gmap string node) (w : World) : World :=
  {| proc := proc w; fs := f; conversation_history := conversation_history w;
     last_ai_response := last_ai_response w; log := log w;
     stdout := stdout w; slept := slept w |}.
Definition with_history (h : list (option string)) (w : World) : World :=
  {| proc := proc w; fs := fs w; conversation_history := h;
     last_ai_response := last_ai_response w; log := log w;
     stdout := stdout w; slept := slept w |}.
Definition with_last (r : option string) (w : World) : World :=
  {| proc := proc w; fs := fs w; conversation_history := conversation_history w;
     last_ai_response := r; log := log w;
     stdout := stdout w; slept := slept w |}.
Definition with_log (l : list (level * string)) (w : World) : World :=
  {| proc := proc w; fs := fs w; conversation_history := conversation_history w;
     last_ai_response := last_ai_response w; log := l;
     stdout := stdout w; slept := slept w |}.
Definition with_stdout (o : list string) (w : World) : World :=
  {| proc := proc w; fs := fs w; conversation_history := conversation_history w;
     last_ai_response := last_ai_response w; log := log w;
     stdout := o; slept := slept w |}.
Definition with_slept (t : list Z) (w : World) : World :=
  {| proc := proc w; fs := fs w; conversation_history := conversation_history w;
     last_ai_response := last_ai_response w; log := log w;
     stdout := stdout w; slept := t |}.

Definition logging (l : level) (msg : string) : M World unit :=
  modify (fun w => with_log (log w ++ [(l, msg)]) w).

(** [print(text)]; colours are not modelled. *)
Definition print (text : string) : M World unit :=
  modify (fun w => with_stdout (stdout w ++ [text]) w).

(** [time.sleep(seconds)] *)
Definition sleep (seconds : Z) : M World unit :=
  modify (fun w => with_slept (slept w ++ [seconds]) w).

(** *** Paths and the filesystem *)

Definition slash : ascii := "/"%char.

(** Paths are looked up after dropping empty and [.] components; [..] and
    symbolic links are not resolved. *)
Definition normpath (p : string) : string :=
  (if Py.startswith "/" p then "/" else "")
  ++ Py.join "/"
       (List.filter (fun c => negb (String.eqb c "") && negb (String.eqb c "."))
          (Py.split_char slash p)).

(** The working directory exists and is readable and writable. *)
Definition lookup_path (f : gmap string node) (p : string) : option node :=
  if String.eqb p "" then None
  else if String.eqb (normpath p) "" then Some (Dir true true)
  else f !! normpath p.

(** [p[:p.rfind("/") + 1]], or [None] when [p] has no slash. *)
Fixpoint upto_last_slash (p : string) : option string :=
  match p with
  | EmptyString => None
  | String c p' =>
      match upto_last_slash p' with
      | Some h => Some (String c h)
      | None => if Ascii.eqb c slash then Some (String c EmptyString) else None
      end
  end.

(** [head.rstrip("/")] *)
Fixpoint rstrip_slash (s : string) : string :=
  match s with
  | EmptyString => EmptyString
  | String c s' =>
      match rstrip_slash s' with
      | EmptyString => if Ascii.eqb c slash then EmptyString
                       else String c EmptyString
      | r => String c r
      end
  end.

(** [os.path.dirname(p)] *)
Definition dirname (p : string) : string :=
  match upto_last_slash p with
  | None => ""
  | Some head =>
      match rstrip_slash head with
      | EmptyString => head       (* empty or all slashes *)
      | stripped => stripped
      end
  end.

(** [os.path.join(a, b)] for a relative [b] *)
Definition path_join (a b : string) : string :=
  if String.eqb a "" then b
  else if Py.startswith "/" (Py.slice_from (String.length a - 1) a)
       then a ++ b
       else a ++ "/" ++ b.

Definition exists_ (p : string) : M World bool :=
  gets (fun w => match lookup_path (fs w) p with Some _ => true | None => false end).

Definition isfile (p : string) : M World bool :=
  gets (fun w => match lookup_path (fs w) p with
                 | Some (File _ _ _) => true
                 | _ => false
                 end).

Definition isdir (p : string) : M World bool :=
  gets (fun w => match lookup_path (fs w) p with
                 | Some (Dir _ _) => true
                 | _ => false
                 end).

(** [os.access(p, os.R_OK)] and [os.access(p, os.W_OK)] *)
Definition access_r (p : string) : M World bool :=
  gets (fun w => match lookup_path (fs w) p with
                 | Some (File _ r _) | Some (Dir r _) => r
                 | None => false
                 end).

Definition access_w (p : string) : M World bool :=
  gets (fun w => match lookup_path (fs w) p with
                 | Some (File _ _ wr) | Some (Dir _ wr) => wr
                 | None => false
                 end).

Definition os_error {A} (what p : string) : M World A :=
  raise (Exn OSError (what ++ ": '" ++ p ++ "'") None).

(** Whether an entry can be created at [p]: its parent is a writable
    directory. *)
Definition check_parent (p : string) : M World unit :=
  w <- gets (fun w => w) ;;
  match dirname (normpath p) with
  | EmptyString => ret tt
  | d =>
      match lookup_path (fs w) d with
      | Some (Dir _ true) => ret tt
      | Some (Dir _ false) => os_error "Permission denied" p
      | Some (File _ _ _) => os_error "Not a directory" p
      | None => os_error "No such file or directory" p
      end
  end.

(** [open(p, "w", encoding="utf-8")] followed by [write(text)] and close. *)
Definition write_text (p text : string) : M World unit :=
  w <- gets (fun w => w) ;;
  match lookup_path (fs w) p with
  | Some (Dir _ _) => os_error "Is a directory" p
  | Some (File _ _ false) => os_error "Permission denied" p
  | Some (File _ r true) =>
      modify (fun w => with_fs (<[normpath p := File text r true]> (fs w)) w)
  | None =>
      if String.eqb p "" then os_error "No such file or directory" p
      else
        check_parent p ;;;
        modify (fun w => with_fs (<[normpath p := File text true true]> (fs w)) w)
  end.

(** [open(p, "r")] followed by [read()] and close. *)
Definition read_text (p : string) : M World string :=
  w <- gets (fun w => w) ;;
  match lookup_path (fs w) p with
  | Some (File data true _) => ret data
  | Some (File _ false _) => os_error "Permission denied" p
  | Some (Dir _ _) => os_error "Is a directory" p
  | None => os_error "No such file or directory" p
  end.

(** [os.path.getsize(p)] *)
Definition getsize (p : string) : M World Z :=
  w <- gets (fun w => w) ;;
  match lookup_path (fs w) p with
  | Some (File data _ _) => ret (Py.len data)
  | Some (Dir _ _) => ret 4096%Z
  | None => os_error "No such file or directory" p
  end.

(** The proper ancestors of a normalized path, outermost first. *)
Fixpoint ancestors_from (pre s : string) : list string :=
  match s with
  | EmptyString => []
  | String c s' =>
      (if Ascii.eqb c slash && negb (String.eqb pre "") then [pre] else [])
      ++ ancestors_from (pre ++ String c EmptyString) s'
  end.

Definition mkdir_if_absent (p : string) : M World unit :=
  w <- gets (fun w => w) ;;
  match lookup_path (fs w) p with
  | Some (Dir _ _) => ret tt
  | Some (File _ _ _) => os_error "File exists" p
  | None =>
      check_parent p ;;;
      modify (fun w => with_fs (<[normpath p := Dir true true]> (fs w)) w)
  end.

Fixpoint for_each {A} (l : list A) (body : A -> M World unit) : M World unit :=
  match l with
  | [] => ret tt
  | x :: l' => body x ;;; for_each l' body
  end.

(** [os.makedirs(p, exist_ok=True)] *)
Definition makedirs (p : string) : M World unit :=
  if String.eqb p "" then os_error "No such file or directory" p
  else if String.eqb (normpath p) "" then ret tt
  else
    for_each (ancestors_from "" (normpath p) ++ [normpath p])%list
      mkdir_if_absent.
(** *** The patterns of the creation path *)

Import Re.

(** The pattern [```(?:\w+)?\s*([\s\S]*?)```] *)
Definition CODE_BLOCK : regex :=
  Seq (Lit "```")
    (Seq (Opt (Rep Word 1 true))
       (Seq (Rep Space 0 true)
          (Seq (Group (Rep AnyChar 0 false)) (Lit "```")))).

(** The pattern [### (FILE|FOLDER): (.+)] *)
Definition ITEM_INFO : regex :=
  Seq (Lit "### ")
    (Seq (Group (Alt (Lit "FILE") (Lit "FOLDER")))
       (Seq (Lit ": ") (Group (Rep Dot 1 true)))).

(** The pattern [### FILE: .+\n] *)
Definition FILE_LINE : regex :=
  Seq (Lit "### FILE: ") (Seq (Rep Dot 1 true) (Lit Py.nl)).

Definition nl : string := Py.nl.

(** [str(n)] for a natural number *)
Definition str_nat (n : nat) : string :=
  DecimalString.NilZero.string_of_uint (Nat.to_uint n).

(** *** The edit path: parsing *)

(** The three loop variables of [parse_edit_instructions]. *)
Record parse_state : Type := {
  instructions : Dict.t string;
  current_file : option string;
  current_instructions : list string
}.

(** Storing the block of the current file, when there is one. *)
Definition store_current (st : parse_state) : Dict.t string :=
  match current_file st with
  | Some f =>
      if Py.truthy f then
        Dict.set f (Py.join nl (current_instructions st)) (instructions st)
      else instructions st
  | None => instructions st
  end.

Definition is_marker (line : string) : bool := Py.startswith "File: " line.

Definition parse_line (st : parse_state) (line : string) : parse_state :=
  if is_marker line then
    {| instructions := store_current st;
       current_file := Some (Py.strip (Py.slice_from 6 line));
       current_instructions := [] |}
  else if Py.truthy (Py.strip line) && Py.truthy_opt (current_file st) then
    {| instructions := instructions st;
       current_file := current_file st;
       current_instructions :=
         (current_instructions st ++ [Py.strip line])%list |}
  else st.

Definition parse_start : parse_state :=
  {| instructions := Dict.empty; current_file := None;
     current_instructions := [] |}.

Definition parse_lines (st : parse_state) (lines : list string) : Dict.t string :=
  store_current (fold_left parse_line lines st).

Definition parse_edit_instructions (response : string) : Dict.t string :=
  parse_lines parse_start (Py.split_char Py.newline response).

(** *** Ingestion of files *)

Definition excluded_dirs : list string :=
  [ "__pycache__"; ".git"; "node_modules"; "venv"; "env"; ".vscode"; ".idea";
    "dist"; "build"; "__mocks__"; "coverage"; ".pytest_cache"; ".mypy_cache";
    "logs"; "temp"; "tmp"; "secrets"; "private"; "cache"; "addons" ].

(** What [os.walk] yields for a directory, as a tree: the root path, the
    file names, and the sub-directories by name, each with what the walk
    yields below it. *)
#[warnings="-register-all"]
Inductive WalkTree : Type :=
| Walk (root : string) (files : list string)
       (subdirs : list (string * WalkTree)).

Inductive loop_ctl : Type :=
| NextCommand      (* the loop goes on with the next input *)
| ExitLoop.        (* [break] *)

Definition total_size (added_files : Dict.t string) : Z :=
  fold_right Z.add 0%Z (map Py.len (Dict.values added_files)).

Definition nul : ascii := ascii_of_N 0.

(** The bytes outside [is_binary_file]'s set of text characters. *)
Definition non_text (c : ascii) : bool :=
  let n := Py.code c in
  (n <? 32)%N
  && negb (existsb (N.eqb n) [7; 8; 9; 10; 12; 13; 27]%N).

Fixpoint count_if (f : ascii -> bool) (s : string) : Z :=
  match s with
  | EmptyString => 0%Z
  | String c s' => ((if f c then 1 else 0) + count_if f s')%Z
  end.

Section Script.
Variable net : Transport.
Variable os_walk : string -> WalkTree.
Variable fnmatch : string -> string -> bool.

Definition on_proc {A} (m : M Proc A) : M World A :=
  zoom proc with_proc m.

Definition model_full_name : M World string :=
  gets (fun w => full_model_name (mgr (proc w))).

(** The [Added files:] block of a request. *)
Definition file_context (added_files : Dict.t string) : string :=
  fold_left
    (fun acc fc => acc ++ "File: " ++ fst fc ++ nl ++ "Content:" ++ nl
                   ++ snd fc ++ nl ++ nl)
    added_files ("Added files:" ++ nl).

(** The earlier turns, labelled alternately. *)
Fixpoint labelled (i : nat) (h : list (option string)) : list string :=
  match h with
  | [] => []
  | msg :: h' =>
      ((if Nat.even i then "User: " else "AI: ") ++ Py.str_opt msg)
      :: labelled (S i) h'
  end.

Definition dict_truthy (d : option (Dict.t string)) : bool :=
  match d with
  | Some (_ :: _) => true
  | _ => false
  end.

(** The two appends to [conversation_history] and its truncation. *)
Definition record_turn (user_message : string) (reply : option string)
    : M World unit :=
  modify (fun w => with_history
            (conversation_history w ++ [Some user_message])%list w) ;;;
  modify (fun w => with_history
            (conversation_history w ++ [reply])%list w) ;;;
  h <- gets conversation_history ;;
  if Nat.ltb 20 (length h) then modify (with_history (Py.last_n 20 h))
  else ret tt.

Definition chat_with_ai (user_message : string) (is_edit_request : bool)
    (retry_count : nat) (added_files : option (Dict.t string))
    : M World (option string) :=
  name <- model_full_name ;;
  try_except
    (let user_message :=
       if dict_truthy added_files then
         file_context (default [] added_files) ++ nl ++ user_message
       else user_message in
     hist <- gets conversation_history ;;
     let user_message :=
       if negb is_edit_request then
         let history := Py.join nl (labelled 0 hist) in
         if Py.truthy history then
           history ++ nl ++ "User: " ++ user_message
         else user_message
       else user_message in
     let message_content :=
       if is_edit_request then
         (if Nat.eqb retry_count 0 then EDIT_INSTRUCTION_PROMPT
          else APPLY_EDITS_PROMPT)
         ++ nl ++ nl ++ "User request: " ++ user_message
       else user_message in
     let messages := [{| role := "user"; content := message_content |}] in
     (if is_edit_request && Nat.eqb retry_count 0 then
        logging INFO ("Sending edit request to AI " ++ name ++ ".")
      else logging INFO ("Sending general query to AI " ++ name)) ;;;
     response <- on_proc (chat_completion net messages) ;;
     logging INFO ("Received response from AI " ++ name) ;;;
     modify (with_last (r_content response)) ;;;
     (if negb is_edit_request then
        record_turn user_message (r_content response)
      else ret tt) ;;;
     last <- gets last_ai_response ;;
     ret last)
    is_Exception
    (fun e =>
       logging ERROR ("Error while communicating with AI " ++ name ++ ": "
                      ++ exn_str e) ;;;
       (* traceback.format_exc(), cut down to its last line *)
       logging ERROR ("Traceback (most recent call last): " ++ exn_str e) ;;;
       ret None).

(** One round of the loop over the code blocks; [continue] ends it. *)
Definition apply_code_block (code : string) : M World unit :=
  match re_match ITEM_INFO (Py.strip code) with
  | Some [item_type; path] =>
      found <- exists_ path ;;
      if negb found then
        logging ERROR ("Path does not exist: " ++ path) ;;;
        print ("Path not found: " ++ path)
      else
        writable <- access_w path ;;
        if negb writable then
          logging ERROR ("No write permission for: " ++ path) ;;;
          print ("Cannot write to file/directory: " ++ path)
        else if String.eqb item_type "FOLDER" then
          makedirs path ;;;
          logging INFO ("Folder created: " ++ path)
        else if String.eqb item_type "FILE" then
          let file_content := Py.strip (delete_first FILE_LINE code) in
          let directory := dirname path in
          (if Py.truthy directory then
             dir_found <- exists_ directory ;;
             if negb dir_found then
               makedirs directory ;;;
               logging INFO ("Folder created: " ++ directory)
             else ret tt
           else ret tt) ;;;
          write_text path file_content ;;;
          logging INFO ("File created: " ++ path)
        else ret tt
  | _ =>
      logging ERROR
        "Could not determine the file or folder information from the code block."
  end.

Definition max_retries : nat := 3.

(** The body of the [try] of [apply_creation_steps]. *)
Definition creation_body (creation_response : string) : M World bool :=
  let code_blocks := findall CODE_BLOCK creation_response in
  match code_blocks with
  | [] => raise (Exn ValueError "No code blocks found in the AI response." None)
  | _ =>
      logging INFO "Successfully extracted code blocks from creation response." ;;;
      for_each code_blocks apply_code_block ;;;
      ret true
  end.

(** [apply_creation_steps]: the retry count grows towards [max_retries]. *)
Equations? apply_creation_steps (creation_response : string)
    (added_files : Dict.t string) (retry_count : nat) : M World bool
    by wf (max_retries - retry_count) lt :=
apply_creation_steps creation_response added_files retry_count :=
  try_clauses (creation_body creation_response)
    [ (is_ValueError, fun e =>
         match lt_dec retry_count max_retries with
         | left _ =>
             logging WARNING
               ("Creation parsing failed: " ++ exn_str e
                ++ ". Retrying... (Attempt " ++ str_nat (retry_count + 1)
                ++ ")") ;;;
             let error_message :=
               exn_str e ++ " Please provide the creation instructions again using the specified format." in
             sleep (2 ^ Z.of_nat retry_count) ;;;
             new_response <- chat_with_ai error_message false 0
                               (Some added_files) ;;
             if Py.truthy_opt new_response then
               apply_creation_steps (default "" new_response) added_files
                 (retry_count + 1)
             else ret false
         | right _ =>
             logging ERROR
               ("Failed to parse creation instructions after multiple attempts: "
                ++ exn_str e) ;;;
             print "Creation response that failed to parse:" ;;;
             print creation_response ;;;
             ret false
         end);
      (is_Exception, fun e =>
         logging ERROR
           ("An unexpected error occurred during creation: " ++ exn_str e) ;;;
         ret false) ].
Proof. unfold max_retries in *. lia. Qed.

(** [apply_edit_instructions]: the loop over [original_files.items()],
    with [modified_files] as accumulator. *)
Definition edit_prompt (file_path content instructions : string) : string :=
  APPLY_EDITS_PROMPT ++ nl ++ nl ++ "Original File: " ++ file_path ++ nl
  ++ "Content:" ++ nl ++ content ++ nl ++ nl ++ "Edit Instructions:" ++ nl
  ++ instructions ++ nl ++ nl ++ "Updated File Content:".

Fixpoint edit_loop (edit_instructions : Dict.t string)
    (items : list (string * string)) (modified_files : Dict.t string)
    : M World (Dict.t string) :=
  match items with
  | [] => ret modified_files
  | (file_path, content) :: rest =>
      match Dict.get file_path edit_instructions with
      | Some instructions =>
          response <- chat_with_ai
                        (edit_prompt file_path content instructions)
                        true 0 None ;;
          if Py.truthy_opt response then
            edit_loop edit_instructions rest
              (Dict.set file_path (Py.strip (default "" response))
                 modified_files)
          else edit_loop edit_instructions rest modified_files
      | None =>
          edit_loop edit_instructions rest
            (Dict.set file_path content modified_files)
      end
  end.

Definition apply_edit_instructions (edit_instructions : Dict.t string)
    (original_files : Dict.t string) : M World (Dict.t string) :=
  edit_loop edit_instructions original_files Dict.empty.

(** [is_binary_file].  The quotient of the two lengths exceeds the
    float 0.30 exactly when ten times the one exceeds three times the
    other, the chunk having at most 1024 bytes. *)
Definition is_binary_file (file_path : string) : M World bool :=
  try_except
    (data <- read_text file_path ;;
     let chunk := Py.slice_to 1024 data in
     if Py.contains (String nul EmptyString) chunk then ret true
     else if String.eqb chunk "" then
       raise (Exn (Builtin "ZeroDivisionError") "division by zero" None)
     else if (3 * Py.len chunk <? 10 * count_if non_text chunk)%Z then ret true
     else ret false)
    is_Exception
    (fun e =>
       logging ERROR ("Error reading file " ++ file_path ++ ": " ++ exn_str e) ;;;
       ret true).

Definition load_gitignore_patterns (directory : string)
    : M World (list string) :=
  let gitignore_path := path_join directory ".gitignore" in
  found <- exists_ gitignore_path ;;
  if found then
    data <- read_text gitignore_path ;;
    ret (List.filter (fun line => Py.truthy line && negb (Py.startswith "#" line))
           (map Py.strip (Py.split_char Py.newline data)))
  else ret [].

Definition should_ignore (file_path : string) (patterns : list string)
    : bool :=
  existsb (fnmatch file_path) patterns.

(** [add_file_to_context]; the dictionary after the call is returned. *)
Definition add_file_to_context (file_path : string)
    (added_files : Dict.t string) (action : string)
    : M World (Dict.t string) :=
  has_gitignore <- exists_ ".gitignore" ;;
  gitignore_patterns <-
    (if has_gitignore then load_gitignore_patterns "." else ret []) ;;
  found <- exists_ file_path ;;
  if negb found then
    logging ERROR ("Path does not exist: " ++ file_path) ;;;
    print ("Path not found: " ++ file_path) ;;;
    ret added_files
  else
    readable <- access_r file_path ;;
    if negb readable then
      logging ERROR ("No read permission for: " ++ file_path) ;;;
      print ("Cannot read file/directory: " ++ file_path) ;;;
      ret added_files
    else
      is_file <- isfile file_path ;;
      if is_file then
        if existsb (fun ex_dir => Py.contains ex_dir file_path) excluded_dirs
        then
          logging INFO ("Skipped excluded directory file: " ++ file_path) ;;;
          ret added_files
        else if match gitignore_patterns with [] => false | _ => true end
                && should_ignore file_path gitignore_patterns then
          logging INFO ("Skipped file matching .gitignore pattern: "
                        ++ file_path) ;;;
          ret added_files
        else
          binary <- is_binary_file file_path ;;
          if binary then
            logging INFO ("Skipped binary file: " ++ file_path) ;;;
            ret added_files
          else
            file_size <- getsize file_path ;;
            if (MAX_FILE_SIZE <? file_size)%Z then
              logging ERROR ("File " ++ file_path
                             ++ " exceeds maximum size limit of 200.0MB") ;;;
              ret added_files
            else
              try_except
                (content <- read_text file_path ;;
                 logging INFO ("Added " ++ file_path ++ " " ++ action ++ ".") ;;;
                 ret (Dict.set file_path content added_files))
                is_OSError
                (fun e =>
                   logging ERROR ("Failed to read file " ++ file_path ++ ": "
                                  ++ exn_str e) ;;;
                   print ("Error reading file " ++ file_path) ;;;
                   ret added_files)
      else
        logging ERROR (file_path ++ " is not a file.") ;;;
        ret added_files.

Definition chat_context : string := "to the chat context".

Fixpoint add_files (file_paths : list string) (added_files : Dict.t string)
    : M World (Dict.t string) :=
  match file_paths with
  | [] => ret added_files
  | file_path :: rest =>
      added_files <- add_file_to_context file_path added_files chat_context ;;
      add_files rest added_files
  end.

Definition pruned (d : string) : bool :=
  existsb (String.eqb d) ["__pycache__"; ".git"; "node_modules"].

(** The loop over [os.walk(path)]: the files of a directory are added,
    then the walk descends into the sub-directories that were kept. *)
Fixpoint walk_add (t : WalkTree) (added_files : Dict.t string)
    : M World (Dict.t string) :=
  match t with
  | Walk root files_in_dir subdirs =>
      added_files <- add_files (map (path_join root) files_in_dir)
                       added_files ;;
      (fix descend (l : list (string * WalkTree))
           (added_files : Dict.t string) : M World (Dict.t string) :=
         match l with
         | [] => ret added_files
         | (d, sub) :: l' =>
             if pruned d then descend l' added_files
             else
               added_files <- walk_add sub added_files ;;
               descend l' added_files
         end) subdirs added_files
  end.

(** The loop over the paths of an [/add] command. *)
Fixpoint ingest (paths : list string) (added_files : Dict.t string)
    : M World (Dict.t string) :=
  match paths with
  | [] => ret added_files
  | path :: rest =>
      is_file <- isfile path ;;
      is_dir <- isdir path ;;
      added_files <-
        (if is_file then add_file_to_context path added_files chat_context
         else if is_dir then walk_add (os_walk path) added_files
         else
           logging ERROR (path ++ " is neither a file nor a directory.") ;;;
           ret added_files) ;;
      ingest rest added_files
  end.

(** The [/add] branch of the command loop of [main]: what the loop does
    next, and [added_files] afterwards. *)
Definition handle_add (user_input : string) (added_files : Dict.t string)
    : M World (loop_ctl * Dict.t string) :=
  let paths := tl (Py.split_ws user_input) in
  match paths with
  | [] =>
      logging WARNING "User issued /add without file or folder paths." ;;;
      ret (NextCommand, added_files)
  | _ =>
      added_files <- ingest paths added_files ;;
      if (MAX_TOTAL_SIZE <? total_size added_files)%Z then
        logging ERROR
          "Total size of all files exceeds maximum allowed limit of 600.0KB" ;;;
        print "Total size of files is too large. Please reduce the number/size of files." ;;;
        ret (ExitLoop, Dict.empty)
      else ret (NextCommand, added_files)
  end.
End Script.

(** *** Applying modifications *)

(** The script with its terminal input: the lines the user will type at
    the prompts, in order. *)
Record Session : Type := {
  world : World;
  stdin : list string
}.

Definition with_world (w : World) (s : Session) : Session :=
  {| world := w; stdin := stdin s |}.

Definition on_world {A} (m : M World A) : M Session A :=
  zoom world with_world m.

(** [await prompt_session.prompt_async(message)]: the prompt is shown and
    the next line is read; at the end of the input the prompt raises
    [EOFError]. *)
Definition prompt (message : string) : M Session string :=
  on_world (print message) ;;;
  fun s => match stdin s with
           | [] => (Raised (Exn (Builtin "EOFError") "" None), s)
           | line :: rest => (Ok line, {| world := world s; stdin := rest |})
           end.



Section Modifications.
Variable net : Transport.
(** [difflib.unified_diff] on the lines of the two contents, with the file
    names [a/file_path] and [b/file_path], five lines of context and no
    line terminator. *)
Variable unified_diff : string -> string -> string -> list string.




End Modifications.

End Eng.

(** ** Predicates used to state the properties *)

Module Spec.
Import Model Eng.

(** The model identifier the process is configured with: the value of
    [MODEL] once the [.env] file is loaded. *)
Definition configured_model (s : Sys) : option string :=
  (environ s ∪ dotenv s) !! "MODEL".

(** The client a manager constructs on first use. *)
Definition native_client (p : Proc) : Client :=
  match provider (mgr p) with
  | OLLAMA => OllamaClient
  | ANTHROPIC => AnthropicClient (environ (sys p) !! "ANTHROPIC_API_KEY")
  | OPENAI => OpenAIClient (environ (sys p) !! "OPENAI_API_KEY")
  end.

(** A client is at hand: already built, or its construction succeeds. *)
Definition client_available (net : Transport) (p : Proc) : Prop :=
  _client (mgr p) <> None \/ connect net (native_client p) = None.

(** The transport raises [e] on the request [chat_completion] sends for
    [messages] in state [p]. *)
Definition request_raises (net : Transport) (p : Proc)
    (messages : list ChatMessage) (e : exn) : Prop :=
  let self := mgr p in
  let n := length (sent (sys p)) in
  let msgs := role_content (_format_messages self messages) in
  match provider self with
  | OLLAMA => ollama_chat net n (model_name self) msgs = Raised e
  | ANTHROPIC =>
      exists config,
        MODEL_CONFIG !! full_model_name self = Some config /\
        anthropic_create net n (model_name self) (max_tokens config) msgs
        = Raised e
  | OPENAI => openai_create net n (model_name self) msgs = Raised e
  end.

(** The message of the [ModelAPIError] that wraps [e]. *)
Definition api_error_message (self : ModelManager) (e : exn) : string :=
  "Error in chat completion with " ++ provider_str (provider self) ++ ": "
  ++ exn_str e.

(** What remains of a history that has grown to [full]. *)
Definition truncated (full : list (option string)) : list (option string) :=
  if Nat.ltb 20 (length full) then Py.last_n 20 full else full.

(** A session of successful chat turns, each a request and its reply. *)
Fixpoint record_turns (turns : list (string * option string))
    : M World unit :=
  match turns with
  | [] => ret tt
  | (user_message, reply) :: rest =>
      record_turn user_message reply ;;; record_turns rest
  end.

(** The entries of a session, oldest first. *)
Definition entries (turns : list (string * option string))
    : list (option string) :=
  flat_map (fun t => [Some (fst t); snd t]) turns.

(** Every run of a computation takes the state to a related one, whether
    it returns or raises. *)
Definition steps {S B} (R : S -> S -> Prop) (m : M S B) : Prop :=
  forall s, R s (snd (m s)).

(** A computation leaves a component of the state as it found it. *)
Definition unchanged {S A} (f : S -> A) : S -> S -> Prop :=
  fun s s' => f s' = f s.

Definition preserves {S A B} (f : S -> A) (m : M S B) : Prop :=
  steps (unchanged f) m.

Definition request_messages (rq : Request) : list ChatMessage :=
  match rq with
  | OllamaChat _ m | AnthropicCreate _ _ m | OpenAICreate _ m => m
  end.

(** The requests sent grow by requests that all satisfy [P]. *)
Definition sends (P : Request -> Prop) : Sys -> Sys -> Prop :=
  fun s s' => exists l, sent s' = (sent s ++ l)%list /\ Forall P l.

(** The manager's identity is fixed at construction; only [_client]
    changes afterwards. *)
Definition same_identity (a b : ModelManager) : Prop :=
  full_model_name a = full_model_name b /\ provider a = provider b /\
  model_name a = model_name b.

(** A step of a manager in its process: the identity stays, the requests
    grow by requests satisfying [P]. *)
Definition proc_step (P : Request -> Prop) : Proc -> Proc -> Prop :=
  fun p p' => same_identity (mgr p') (mgr p) /\ sends P (sys p) (sys p').

Definition world_step (P : Request -> Prop) : World -> World -> Prop :=
  fun w w' => proc_step P (proc w) (proc w').

(** Every exception a computation raises is of a kind [C]. *)
Definition raises {S A} (C : exn -> Prop) (m : M S A) : Prop :=
  forall s e s', m s = (Raised e, s') -> C e.

(** The error record of a code block without a marker line. *)
Definition no_marker_record : level * string :=
  (ERROR,
   "Could not determine the file or folder information from the code block.").

(** A code block that does not start, once stripped, with a marker line. *)
Definition lacks_marker (code : string) : Prop :=
  Re.re_match ITEM_INFO (Py.strip code) = None.

(** The text sent when a creation response has no code block. *)
Definition retry_message : string :=
  "No code blocks found in the AI response. Please provide the creation instructions again using the specified format.".

(** The world just before the round-trip is issued again: the warning is
    logged and the wait of [2 ** retry_count] seconds is over. *)
Definition before_retry (retry_count : nat) (w : World) : World :=
  with_slept (slept w ++ [(2 ^ Z.of_nat retry_count)%Z])%list
    (with_log
       (log w ++
        [(WARNING,
          ("Creation parsing failed: No code blocks found in the AI response.. Retrying... (Attempt "
           ++ str_nat (retry_count + 1) ++ ")")%string)])%list w).

(** The world after the retries are exhausted on [creation_response]. *)
Definition given_up (creation_response : string) (w : World) : World :=
  with_stdout
    ((stdout w ++ ["Creation response that failed to parse:"])
     ++ [creation_response])%list
    (with_log
       (log w ++
        [(ERROR,
          "Failed to parse creation instructions after multiple attempts: No code blocks found in the AI response.")])%list
       w).

(** A reply that is there but has no fenced code block. *)
Definition unparsable (reply : string) : Prop :=
  Py.truthy reply = true /\ Re.findall CODE_BLOCK reply = [].

(** The waits before the first [k] re-issues, starting at retry count
    [from]. *)
Definition waits (from k : nat) : list Z :=
  map (fun i => 2 ^ Z.of_nat i)%Z (seq from k).

(** Handlers pass results on and mark what they raise. *)
Definition handled {A} (e0 : exn) (r : result A * World) : result A * World :=
  match r with
  | (Ok a, w) => (Ok a, w)
  | (Raised e, w) => (Raised (set_context e0 e), w)
  end.

(** The exception raised for a response without code blocks. *)
Definition no_blocks_error : exn :=
  Exn ValueError "No code blocks found in the AI response." None.

(** An error of the operating system. *)
Definition os_failure (e : exn) : Prop := exn_cls e = OSError.

(** A request that asks for the rewrite of a file of [original_files] for
    which [edit_instructions] has an entry. *)
Definition edit_request_for (edit_instructions original_files : Dict.t string)
    (rq : Request) : Prop :=
  exists file_path text instr,
    In (file_path, text) original_files /\
    Dict.get file_path edit_instructions = Some instr /\
    request_messages rq =
    [{| role := "user";
        content := EDIT_INSTRUCTION_PROMPT ++ nl ++ nl ++ "User request: "
                   ++ edit_prompt file_path text instr |}].

(** The environment offers what the construction of a manager needs: a
    model of the registry and, if that model requires a key, a non-empty
    value for it. *)
Definition configured (env : gmap string string) (m : string) : Prop :=
  env !! "MODEL" = Some m /\
  exists cfg,
    MODEL_CONFIG !! m = Some cfg /\
    (requires_api_key cfg = true ->
     exists k v, env_key cfg = Some k /\ env !! k = Some v /\ v <> "").

(** The model requires a key that the environment lacks. *)
Definition credential_missing (env : gmap string string) (m k : string)
    : Prop :=
  env !! "MODEL" = Some m /\
  exists cfg,
    MODEL_CONFIG !! m = Some cfg /\ requires_api_key cfg = true /\
    env_key cfg = Some k /\ (env !! k = None \/ env !! k = Some "").

(** What [parse_model_name] raises for a name it cannot read. *)
Definition invalid_format (m : string) (e : exn) : Prop :=
  exn_cls e = ModelConfigurationError /\
  exn_str e = "Invalid model name format: " ++ m /\
  exists cause, exn_context e = Some cause /\ exn_cls cause = ValueError.

(** The request [chat_completion] sends for [messages]: the same role and
    content list for every provider.  The Anthropic adapter reads the token
    limit of the manager's model from the registry first. *)
Definition request_of (self : ModelManager) (messages : list ChatMessage)
    : option Request :=
  match provider self with
  | OLLAMA => Some (OllamaChat (model_name self) (role_content messages))
  | ANTHROPIC =>
      match MODEL_CONFIG !! full_model_name self with
      | Some cfg =>
          Some (AnthropicCreate (model_name self) (max_tokens cfg)
                  (role_content messages))
      | None => None
      end
  | OPENAI => Some (OpenAICreate (model_name self) (role_content messages))
  end.

(** How the client of a manager evolves: a client that is there stays and
    nothing is built; where there is none, either none is built or the
    native client of the provider is built once and kept. *)
Definition memo (p p' : Proc) : Prop :=
  same_identity (mgr p') (mgr p) /\ environ (sys p') = environ (sys p) /\
  match _client (mgr p) with
  | Some c => _client (mgr p') = Some c /\ built (sys p') = built (sys p)
  | None =>
      (_client (mgr p') = None /\ built (sys p') = built (sys p)) \/
      (_client (mgr p') = Some (native_client p) /\
       built (sys p') = (built (sys p) ++ [native_client p])%list)
  end.

(** A history made of whole turns, a request and its reply each, at most
    ten of them: every even position holds what was sent, every odd one
    what came back. *)
Definition whole_pairs (h : list (option string)) : Prop :=
  exists turns, h = entries turns /\ length turns <= 10.

(** The history goes from whole turns to whole turns. *)
Definition keeps_pairs : World -> World -> Prop :=
  fun w w' => whole_pairs (conversation_history w) ->
              whole_pairs (conversation_history w').

(** Every model call on the process fails, whatever the messages. *)
Definition model_fails (net : Transport) (p : Proc) : Prop :=
  forall messages, exists e p', chat_completion net messages p = (Raised e, p').


(** The path a marker line names. *)
Definition marker_path (line : string) : string :=
  Py.strip (Py.slice_from 6 line).

(** The paths a parser state has stored or is collecting for. *)
Definition seen (st : parse_state) : list string :=
  (Dict.keys (instructions st)
   ++ match current_file st with
      | Some f => if Py.truthy f then [f] else []
      | None => []
      end)%list.

(** A transport on which every model call fails, in every state of the
    process. *)
Definition always_fails (net : Transport) : Prop :=
  forall p, model_fails net p.

(** The files of [original_files] that [edit_instructions] does not name. *)
Definition unnamed (edit_instructions original_files : Dict.t string)
    : Dict.t string :=
  List.filter (fun fc => negb (Dict.mem (fst fc) edit_instructions))
    original_files.

(** A content [is_binary_file] takes for text: its first 1024 characters
    are not empty, hold no NUL and at most 30% control characters. *)
Definition text_like (data : string) : Prop :=
  let chunk := Py.slice_to 1024 data in
  chunk <> "" /\ Py.contains (String nul EmptyString) chunk = false /\
  (10 * count_if non_text chunk <= 3 * Py.len chunk)%Z.

(** A path that a line of the ignore file matches; blank lines and
    comment lines are no patterns. *)
Definition ignored (fnmatch : string -> string -> bool)
    (f : gmap string node) (file_path : string) : Prop :=
  exists data wr line,
    lookup_path f ".gitignore" = Some (File data true wr) /\
    In line (Py.split_char Py.newline data) /\
    Py.strip line <> "" /\ Py.startswith "#" (Py.strip line) = false /\
    fnmatch file_path (Py.strip line) = true.

(** A file that [add_file_to_context] accepts, with the content it holds
    for it. *)
Definition admissible (fnmatch : string -> string -> bool)
    (f : gmap string node) (file_path data : string) : Prop :=
  (exists wr, lookup_path f file_path = Some (File data true wr)) /\
  existsb (fun ex_dir => Py.contains ex_dir file_path) excluded_dirs = false /\
  ~ ignored fnmatch f file_path /\
  text_like data /\ (Py.len data <= MAX_FILE_SIZE)%Z.

(** Only the log and the terminal differ. *)
Definition reported (w w' : World) : Prop :=
  fs w' = fs w /\ proc w' = proc w /\
  conversation_history w' = conversation_history w /\
  last_ai_response w' = last_ai_response w /\ slept w' = slept w.

(** An error of the operating system on the ignore file. *)
Definition gitignore_failure (e : exn) : Prop :=
  exists what, e = Exn OSError (what ++ ": './.gitignore'") None.

(** The ignore file, if there is one, can be read. *)
Definition gitignore_readable (f : gmap string node) : Prop :=
  match lookup_path f ".gitignore" with
  | None | Some (File _ true _) => True
  | _ => False
  end.

(** The outcome of an ingestion that started from the files [d] in the
    world [w]: what is held afterwards was held before or is admissible; only
    the ignore file can make it fail. *)
Definition ingested (fnmatch : string -> string -> bool) (d : Dict.t string)
    (w : World) (r : result (Dict.t string)) (w' : World) : Prop :=
  reported w w' /\
  match r with
  | Ok d' =>
      forall p data,
        In (p, data) d' ->
        In (p, data) d \/ admissible fnmatch (fs w) p data
  | Raised e => gitignore_failure e /\ ~ gitignore_readable (fs w)
  end.


(** The user's next line is a yes, surrounding blanks and case apart. *)
Definition consents (s : Session) : Prop :=
  match stdin s with
  | answer :: _ => Py.lower (Py.strip answer) = "yes"
  | [] => False
  end.

(** What a call of [apply_modifications] that returns [ok] has done. *)
Definition modified (new_content file_path : string) (s : Session)
    (ok : bool) (s' : Session) : Prop :=
  proc (world s') = proc (world s) /\
  conversation_history (world s') = conversation_history (world s) /\
  (ok = false -> fs (world s') = fs (world s)) /\
  (~ consents s -> fs (world s') = fs (world s)) /\
  (ok = true ->
   exists data r wr,
     lookup_path (fs (world s')) file_path = Some (File data r wr) /\
     Py.strip data = Py.strip new_content) /\
  (fs (world s') = fs (world s) \/
   exists old r,
     lookup_path (fs (world s)) file_path = Some (File old r true) /\
     fs (world s')
     = <[normpath file_path := File new_content r true]> (fs (world s))).


(** How a creation can change the files on disk: an entry stays, or a
    directory appears where nothing was, or a writable file gets a new
    content. *)
Definition changed (f f' : gmap string node) : Prop :=
  forall q,
    f' !! q = f !! q \/
    (f !! q = None /\ f' !! q = Some (Dir true true)) \/
    (exists old data r,
       f !! q = Some (File old r true) /\ f' !! q = Some (File data r true)).

Definition disk_changed (w w' : World) : Prop := changed (fs w) (fs w').


(** The code fence. *)
Definition fence : string := "```".

(** Every character of a text satisfies [f]. *)
Fixpoint all_chars (f : ascii -> bool) (s : string) : bool :=
  match s with
  | EmptyString => true
  | String c s' => f c && all_chars f s'
  end.

(** A text in which no code fence begins, not even one that the fence
    after the text would complete. *)
Definition fence_free (text : string) : Prop :=
  Py.contains fence (text ++ "``") = false.

End Spec.

(** ** Scenarios *)

Module Scenario.
Import Model Eng Spec.

Definition plain_reply : OllamaResponse :=
  {| o_message := Some {| om_content := Some "I cannot do that.";
                          om_tool_calls := None |};
     o_prompt_eval_count := Some 11%Z;
     o_eval_count := Some 5%Z |}.

Definition unreachable : exn :=
  Exn (Native "httpx.ConnectError") "All connection attempts failed" None.

(** A transport whose ollama server answers every request with the same
    prose, and whose other providers cannot be reached. *)
Definition net_prose : Transport :=
  {| connect := fun _ => None;
     ollama_chat := fun _ _ _ => Ok plain_reply;
     anthropic_create := fun _ _ _ _ => Raised unreachable;
     openai_create := fun _ _ _ => Raised unreachable |}.

(** A transport on which every request fails. *)
Definition net_down : Transport :=
  {| connect := fun _ => None;
     ollama_chat := fun _ _ _ => Raised unreachable;
     anthropic_create := fun _ _ _ _ => Raised unreachable;
     openai_create := fun _ _ _ => Raised unreachable |}.

Definition sys_ollama : Sys :=
  {| environ := {[ "MODEL" := "ollama/qwen2.5-coder:14b" ]};
     dotenv := ∅; built := []; sent := [] |}.

(** [MODEL] names a model the registry does not have. *)
Definition sys_unknown : Sys :=
  {| environ := {[ "MODEL" := "openai/gpt-5" ]};
     dotenv := ∅; built := []; sent := [] |}.

Definition mgr_ollama : ModelManager :=
  {| full_model_name := "ollama/qwen2.5-coder:14b"; provider := OLLAMA;
     model_name := "qwen2.5-coder:14b"; _client := None |}.

Definition proc_ollama : Proc := {| mgr := mgr_ollama; sys := sys_ollama |}.

Definition hello : list ChatMessage := [{| role := "user"; content := "hello" |}].

Definition world_of (p : Proc) (files : gmap string node)
    (history : list (option string)) : World :=
  {| proc := p; fs := files; conversation_history := history;
     last_ai_response := None; log := []; stdout := []; slept := [] |}.

(** An empty working directory and a fresh session. *)
Definition w_fresh : World := world_of proc_ollama ∅ [].

(** A session whose history holds ten turn pairs. *)
Definition ten_turns : list (string * option string) :=
  map (fun i => ("question " ++ str_nat i, Some ("answer " ++ str_nat i)))
    (seq 1 10).

Definition w_full : World := world_of proc_ollama ∅ (entries ten_turns).

Definition session21 : list (string * option string) :=
  map (fun i => ("question " ++ str_nat i, Some ("answer " ++ str_nat i)))
    (seq 1 21).

(** An edit response that names [a.py] twice. *)
Definition twice_pre : list string :=
  ["File: a.py"; "old instructions"; "File: b.py"; "for b"].
Definition twice_block : list string := ["  1. new"; ""; "  2. more"].
Definition twice_post : list string := ["File: c.py"; "rest"].
Definition twice : string :=
  Py.join nl (twice_pre ++ "File: a.py " :: twice_block ++ twice_post)%list.

(** Four text files of 160000 characters each: every one is below the
    per-file limit, together they exceed the total limit. *)
Definition big_text : string := Py.repeat_char "a" (N.to_nat 160000).

Definition big_files : gmap string node :=
  <[ "f1.txt" := File big_text true true ]>
  (<[ "f2.txt" := File big_text true true ]>
  (<[ "f3.txt" := File big_text true true ]>
  (<[ "f4.txt" := File big_text true true ]> ∅))).

Definition w_big : World := world_of proc_ollama big_files [].

Definition add_four : string := "/add f1.txt f2.txt f3.txt f4.txt".

(** A working directory without sub-directories, and no ignore patterns. *)
Definition flat_walk : string -> WalkTree := fun root => Walk root [] [].
Definition no_match : string -> string -> bool := fun _ _ => false.

(** A writable file [a.txt], and a response whose first block rewrites it
    and whose second block has no marker line. *)
Definition w_existing : World :=
  world_of proc_ollama {[ "a.txt" := File "old" true true ]} [].

Definition mixed : string :=
  "```" ++ nl ++ "### FILE: a.txt" ++ nl ++ "new" ++ nl ++ "```" ++ nl
  ++ "```" ++ nl ++ "just some text" ++ nl ++ "```".

(** The response of the round-trip property: one well-formed block. *)
Definition one_file : string :=
  "```" ++ nl ++ "### FILE: a/b.txt" ++ nl ++ "X" ++ nl ++ "```".

(** The code block of [one_file]. *)
Definition one_file_block : string :=
  "### FILE: a/b.txt" ++ nl ++ "X" ++ nl.

(** A working directory in which [a/b.txt] is already there. *)
Definition w_present : World :=
  world_of proc_ollama
    (<[ "a" := Dir true true ]> {[ "a/b.txt" := File "old" true true ]}) [].

(** A creation response in prose, and the three worlds in which the
    replies to its re-issues arrive when the model keeps answering in
    prose. *)
Definition prose : string := "Sure, I will create the files for you.".

Definition reissue (retry_count : nat) (w : World) : World :=
  snd (chat_with_ai net_prose retry_message false 0 (Some Dict.empty)
         (before_retry retry_count w)).

Definition w_retry1 : World := reissue 0 w_fresh.
Definition w_retry2 : World := reissue 1 w_retry1.
Definition w_retry3 : World := reissue 2 w_retry2.

(** Two files, of which an instruction map names one. *)
Definition two_files : Dict.t string :=
  [("a.py", "print(1)"); ("b.py", "print(2)")].
Definition only_a : Dict.t string := [("a.py", "print 3 instead")].

(** An environment that selects the OpenAI model without giving a key, and
    one that gives it through the [.env] file. *)
Definition sys_no_key : Sys :=
  {| environ := {[ "MODEL" := "openai/gpt-4o" ]};
     dotenv := ∅; built := []; sent := [] |}.

Definition sys_dotenv_key : Sys :=
  {| environ := {[ "MODEL" := "openai/gpt-4o" ]};
     dotenv := {[ "OPENAI_API_KEY" := "sk-test" ]}; built := []; sent := [] |}.


End Scenario.

(** * Properties *)

Import Model Eng Spec.

(** ** Inversion of computations *)

Lemma bind_ok {S A B} (m : M S A) (f : A -> M S B) s b s' :
  bind m f s = (Ok b, s') ->
  exists a s1, m s = (Ok a, s1) /\ f a s1 = (Ok b, s').
Proof.
  unfold bind. destruct (m s) as [[a|e] s1]; intros H.
  - eauto.
  - discriminate.
Qed.

Lemma bind_raised {S A B} (m : M S A) (f : A -> M S B) s e s' :
  bind m f s = (Raised e, s') ->
  m s = (Raised e, s') \/
  exists a s1, m s = (Ok a, s1) /\ f a s1 = (Raised e, s').
Proof.
  unfold bind. destruct (m s) as [[a|e0] s1]; intros H.
  - right. eauto.
  - left. injection H as -> ->. reflexivity.
Qed.

Lemma bind_step {S A B} (m : M S A) (f : A -> M S B) s a s1 :
  m s = (Ok a, s1) -> bind m f s = f a s1.
Proof. intros H. unfold bind. now rewrite H. Qed.

Lemma bind_fail {S A B} (m : M S A) (f : A -> M S B) s e s1 :
  m s = (Raised e, s1) -> bind m f s = (Raised e, s1).
Proof. intros H. unfold bind. now rewrite H. Qed.

Lemma try_except_ok {S A} (m : M S A) c h s a s' :
  try_except m c h s = (Ok a, s') ->
  m s = (Ok a, s') \/
  exists e s1, m s = (Raised e, s1) /\ c e = true /\ h e s1 = (Ok a, s').
Proof.
  unfold try_except, try_clauses. destruct (m s) as [[x|e] s1]; intros H.
  - left. congruence.
  - right. simpl in H. destruct (c e) eqn:Hc; [|discriminate].
    destruct (h e s1) as [[y|e'] s2] eqn:Hh; [|discriminate].
    exists e, s1. repeat split; congruence.
Qed.


Lemma try_except_caught {S A} (m : M S A) c h s e s1 :
  m s = (Raised e, s1) -> c e = true ->
  try_except m c h s =
    match h e s1 with
    | (Ok a, s2) => (Ok a, s2)
    | (Raised e', s2) => (Raised (set_context e e'), s2)
    end.
Proof.
  intros H Hc. unfold try_except, try_clauses. rewrite H. simpl. now rewrite Hc.
Qed.

(** ** The model manager *)

Lemma format_ollama_usage (response : OllamaResponse) :
  total_tokens (r_usage (_format_ollama_response response)) = 0%Z.
Proof. reflexivity. Qed.

(** C9.  The normalized response of the ollama adapter reports
    [usage.total_tokens = 0] whatever the native response carries: the
    formatter ignores the native token counts, and every response that
    [chat_completion] returns for the ollama provider is built by it. *)
Theorem ollama_total_tokens_zero :
  (forall response : OllamaResponse,
     total_tokens (r_usage (_format_ollama_response response)) = 0%Z) /\
  (forall net messages p r p',
     provider (mgr p) = OLLAMA ->
     chat_completion net messages p = (Ok r, p') ->
     total_tokens (r_usage r) = 0%Z).
Proof.
  split; [exact format_ollama_usage|].
  intros net messages p r p' Hp H. unfold chat_completion in H.
  apply bind_ok in H as (self & s1 & H1 & H).
  unfold gets in H1. injection H1 as <- <-.
  apply try_except_ok in H as [H | (e & s1 & _ & _ & H)]; [|discriminate].
  rewrite Hp in H. unfold _ollama_chat in H.
  apply bind_ok in H as (c & s1 & _ & H).
  apply bind_ok in H as (self & s2 & _ & H).
  apply bind_ok in H as (resp & s3 & _ & H).
  injection H as <- _. apply format_ollama_usage.
Qed.

Lemma ollama_total_tokens_zero_witness :
  exists r p',
    chat_completion Scenario.net_prose Scenario.hello Scenario.proc_ollama
    = (Ok r, p')
    /\ o_eval_count Scenario.plain_reply = Some 5%Z
    /\ total_tokens (r_usage r) = 0%Z.
Proof.
  eexists. eexists. split; [vm_compute; reflexivity|]. split; [reflexivity|].
  eapply (proj2 ollama_total_tokens_zero Scenario.net_prose Scenario.hello
            Scenario.proc_ollama).
  - reflexivity.
  - vm_compute. reflexivity.
Defined.

Lemma try_except_raised {S A} (m : M S A) c h s e' s' :
  try_except m c h s = (Raised e', s') ->
  (m s = (Raised e', s') /\ c e' = false) \/
  exists e s1 e'', m s = (Raised e, s1) /\ c e = true /\
                   h e s1 = (Raised e'', s') /\ e' = set_context e e''.
Proof.
  unfold try_except, try_clauses. destruct (m s) as [[x|e] s1]; intros H.
  - discriminate.
  - simpl in H. destruct (c e) eqn:Hc.
    + right. destruct (h e s1) as [[y|e''] s2] eqn:Hh; [discriminate|].
      injection H as <- <-. exists e, s1, e''. auto.
    + left. injection H as <- <-. auto.
Qed.

Lemma client_ready net p :
  client_available net p ->
  exists c p1,
    client net p = (Ok c, p1) /\ same_identity (mgr p1) (mgr p) /\
    sent (sys p1) = sent (sys p).
Proof.
  destruct p as [[full prov name cl] [env dot blt snt]].
  unfold client_available, native_client, client; simpl.
  intros [Hc | Hc].
  - destruct cl as [c|]; [|congruence].
    exists c. eexists. unfold bind, gets, ret; simpl.
    split; [reflexivity|]. repeat split.
  - destruct cl as [c|].
    + exists c. eexists. unfold bind, gets, ret; simpl.
      split; [reflexivity|]. repeat split.
    + unfold _initialize_client, bind, gets, try_except, try_clauses,
        on_sys, zoom, getenv, construct; simpl.
      destruct prov; simpl in *; rewrite Hc; simpl;
        eexists; eexists; (split; [reflexivity|]); repeat split.
Qed.

Lemma client_broken net p e :
  _client (mgr p) = None ->
  connect net (native_client p) = Some e ->
  exists p1 m,
    client net p = (Raised (Exn ModelConfigurationError m (Some e)), p1).
Proof.
  destruct p as [[full prov name cl] [env dot blt snt]].
  unfold native_client, client; simpl. intros -> Hc.
  unfold _initialize_client, bind, gets, try_except, try_clauses,
    on_sys, zoom, getenv, construct; simpl.
  destruct prov; simpl in *; rewrite Hc; simpl; eexists; eexists; reflexivity.
Qed.

(** C6.  Whatever is raised while [chat_completion] runs leaves it as a
    [ModelAPIError] whose context is the original exception and whose
    message ends with the original message; no provider-native exception
    type reaches the caller.  In particular a failure of the request is
    wrapped with the transport's exception as the cause, and a failure to
    construct the client is wrapped with the cause kept down the chain. *)
Theorem chat_completion_wraps_failures net messages p :
  (forall e' p',
     chat_completion net messages p = (Raised e', p') ->
     is_Native e' = false /\
     exists e0,
       e' = Exn ModelAPIError (api_error_message (mgr p) e0) (Some e0)) /\
  (forall e,
     client_available net p -> request_raises net p messages e ->
     exists p',
       chat_completion net messages p =
       (Raised (Exn ModelAPIError (api_error_message (mgr p) e) (Some e)), p')) /\
  (forall e,
     _client (mgr p) = None -> connect net (native_client p) = Some e ->
     exists p' m,
       let e1 := Exn ModelConfigurationError m (Some e) in
       chat_completion net messages p =
       (Raised (Exn ModelAPIError (api_error_message (mgr p) e1) (Some e1)), p')).
Proof.
  split; [|split].
  - intros e' p' H. unfold chat_completion in H.
    unfold bind at 1, gets at 1 in H.
    apply try_except_raised in H
      as [[_ Hc] | (e & s1 & e'' & _ & _ & Hh & ->)]; [discriminate|].
    unfold raise in Hh. injection Hh as <- _. simpl.
    split; [reflexivity|]. exists e. reflexivity.
  - intros e Hav Hrq.
    destruct (client_ready net p Hav) as (c & p1 & Hc & (Hf & Hp & Hn) & Hs).
    unfold chat_completion. unfold bind at 1, gets at 1.
    unfold request_raises in Hrq.
    match goal with
    | |- context [try_except ?m _ _ p] =>
        cut (exists p', m p = (Raised e, p'))
    end.
    { intros [p' Hb]. exists p'.
      erewrite try_except_caught; [reflexivity | exact Hb | reflexivity]. }
    destruct (provider (mgr p)) eqn:Hprov;
      [| destruct Hrq as (config & Hcfg & Hrq) |]; eexists.
    + unfold _openai_chat. rewrite (bind_step _ _ _ _ _ Hc).
      unfold bind at 1, gets at 1.
      apply bind_fail. unfold send, on_sys, zoom. rewrite Hs, Hn, Hrq.
      reflexivity.
    + unfold _anthropic_chat. rewrite (bind_step _ _ _ _ _ Hc).
      unfold bind at 1, gets at 1. rewrite Hf, Hcfg.
      apply bind_fail. unfold send, on_sys, zoom. rewrite Hs, Hn, Hrq.
      reflexivity.
    + unfold _ollama_chat. rewrite (bind_step _ _ _ _ _ Hc).
      unfold bind at 1, gets at 1.
      apply bind_fail. unfold send, on_sys, zoom. rewrite Hs, Hn, Hrq.
      reflexivity.
  - intros e Hnone Hconn.
    destruct (client_broken net p e Hnone Hconn) as (p1 & m & Hc).
    exists p1, m. unfold chat_completion. unfold bind at 1, gets at 1.
    erewrite try_except_caught; [reflexivity | | reflexivity].
    destruct (provider (mgr p));
      [unfold _openai_chat | unfold _anthropic_chat | unfold _ollama_chat];
      apply bind_fail; exact Hc.
Qed.

Lemma chat_completion_wraps_failures_witness :
  exists p',
    chat_completion Scenario.net_down Scenario.hello Scenario.proc_ollama =
    (Raised
       (Exn ModelAPIError
          "Error in chat completion with ModelProvider.OLLAMA: All connection attempts failed"
          (Some Scenario.unreachable)), p').
Proof.
  apply (proj1 (proj2 (chat_completion_wraps_failures
                         Scenario.net_down Scenario.hello Scenario.proc_ollama))
           Scenario.unreachable).
  - right. reflexivity.
  - reflexivity.
Defined.

(** *** Construction *)

Lemma load_model_config_unknown s m :
  configured_model s = Some m -> MODEL_CONFIG !! m = None ->
  load_model_config s =
  (Raised
     (if Py.truthy m then
        Exn ModelNotFoundError ("Model " ++ m ++ " not found in configuration")
          None
      else
        Exn ModelConfigurationError "MODEL not found in environment variables"
          None),
   with_environ (environ s ∪ dotenv s) s).
Proof.
  unfold configured_model. intros Hm Hcfg.
  unfold load_model_config, load_dotenv, getenv, bind, modify, gets, raise.
  simpl. rewrite Hm. destruct (Py.truthy m); simpl.
  - rewrite Hcfg. reflexivity.
  - reflexivity.
Qed.

Lemma load_model_config_unset s :
  configured_model s = None ->
  load_model_config s =
  (Raised
     (Exn ModelConfigurationError "MODEL not found in environment variables"
        None),
   with_environ (environ s ∪ dotenv s) s).
Proof.
  unfold configured_model. intros Hm.
  unfold load_model_config, load_dotenv, getenv, bind, modify, gets, raise.
  simpl. rewrite Hm. reflexivity.
Qed.

(** C3, as the code has it.  For every model identifier that is not in
    [MODEL_CONFIG], constructing a manager raises, builds no client and
    sends no request; the exception derives from [ModelError], and it is a
    [ModelNotFoundError] for a non-empty identifier, a
    [ModelConfigurationError] only when [MODEL] is empty or unset. *)
Theorem init_unknown_model_fails (s : Sys) :
  (forall m,
     configured_model s = Some m -> MODEL_CONFIG !! m = None ->
     exists e s',
       init s = (Raised e, s') /\
       is_ModelError e = true /\
       exn_cls e = (if Py.truthy m then ModelNotFoundError
                    else ModelConfigurationError) /\
       built s' = built s /\ sent s' = sent s) /\
  (configured_model s = None ->
   exists e s',
     init s = (Raised e, s') /\ exn_cls e = ModelConfigurationError /\
     built s' = built s /\ sent s' = sent s).
Proof.
  split.
  - intros m Hm Hcfg. unfold init.
    rewrite (bind_fail _ _ _ _ _ (load_model_config_unknown s m Hm Hcfg)).
    eexists. eexists. split; [reflexivity|].
    destruct (Py.truthy m); repeat split.
  - intros Hm. unfold init.
    rewrite (bind_fail _ _ _ _ _ (load_model_config_unset s Hm)).
    eexists. eexists. split; [reflexivity|]. repeat split.
Qed.

Lemma init_unknown_model_fails_witness :
  exists e s',
    init Scenario.sys_unknown = (Raised e, s') /\
    is_ModelError e = true /\
    exn_cls e = ModelNotFoundError /\
    built s' = [] /\ sent s' = [].
Proof.
  apply (proj1 (init_unknown_model_fails Scenario.sys_unknown) "openai/gpt-5").
  - vm_compute. reflexivity.
  - vm_compute. reflexivity.
Defined.

(** C3 as stated fails: with [MODEL=openai/gpt-5], which the registry does
    not have, construction raises [ModelNotFoundError], which is not a
    [ModelConfigurationError]. *)
Lemma init_unknown_model_not_configuration_error :
  configured_model Scenario.sys_unknown = Some "openai/gpt-5" /\
  MODEL_CONFIG !! "openai/gpt-5" = None /\
  fst (init Scenario.sys_unknown) =
    Raised (Exn ModelNotFoundError
              "Model openai/gpt-5 not found in configuration" None) /\
  is_ModelConfigurationError
    (Exn ModelNotFoundError
       "Model openai/gpt-5 not found in configuration" None) = false.
Proof. repeat split; vm_compute; reflexivity. Qed.

(** ** Rules for following a computation step by step *)

Section Steps.
Context {S : Type} (R : S -> S -> Prop) `{!PreOrder R}.

Lemma steps_ret {A} (a : A) : steps R (ret a).
Proof. intros s. simpl. reflexivity. Qed.

Lemma steps_raise {A} (e : exn) : steps R (raise (A:=A) e).
Proof. intros s. simpl. reflexivity. Qed.

Lemma steps_gets {A} (g : S -> A) : steps R (gets g).
Proof. intros s. simpl. reflexivity. Qed.

Lemma steps_bind {A B} (m : M S A) (k : A -> M S B) :
  steps R m -> (forall a, steps R (k a)) -> steps R (bind m k).
Proof.
  intros Hm Hk s. unfold bind. specialize (Hm s).
  destruct (m s) as [[a|e] s1]; simpl in *.
  - etransitivity; [exact Hm | apply Hk].
  - exact Hm.
Qed.

Lemma steps_handle {A} (clauses : list (clause S A)) e :
  Forall (fun cl => forall e, steps R (snd cl e)) clauses ->
  steps R (handle clauses e).
Proof.
  induction 1 as [|[c h] rest Hh _ IH]; intros s; simpl.
  - reflexivity.
  - destruct (c e).
    + specialize (Hh e s). simpl in Hh.
      destruct (h e s) as [[a|e'] s1]; exact Hh.
    + apply IH.
Qed.

Lemma steps_try_clauses {A} (m : M S A) clauses :
  steps R m ->
  Forall (fun cl => forall e, steps R (snd cl e)) clauses ->
  steps R (try_clauses m clauses).
Proof.
  intros Hm Hc s. unfold try_clauses. specialize (Hm s).
  destruct (m s) as [[a|e] s1]; simpl in *.
  - exact Hm.
  - etransitivity; [exact Hm | apply (steps_handle clauses e Hc)].
Qed.

Lemma steps_try_except {A} (m : M S A) c h :
  steps R m -> (forall e, steps R (h e)) -> steps R (try_except m c h).
Proof.
  intros Hm Hh. apply steps_try_clauses; [exact Hm|].
  constructor; [exact Hh | constructor].
Qed.

Lemma steps_if {A} (b : bool) (m1 m2 : M S A) :
  steps R m1 -> steps R m2 -> steps R (if b then m1 else m2).
Proof. destruct b; auto. Qed.

Lemma steps_modify (g : S -> S) : (forall s, R s (g s)) -> steps R (modify g).
Proof. intros Hg s. apply Hg. Qed.
End Steps.

Lemma steps_zoom {S T A} (R : S -> S -> Prop) (R' : T -> T -> Prop)
    (proj : T -> S) (inj : S -> T -> T) (m : M S A) :
  steps R m -> (forall t s', R (proj t) s' -> R' t (inj s' t)) ->
  steps R' (zoom proj inj m).
Proof.
  intros Hm Hinj t. unfold zoom. specialize (Hm (proj t)).
  destruct (m (proj t)) as [r s']. simpl in *. auto.
Qed.

Lemma steps_for_each {A} (R : World -> World -> Prop) `{!PreOrder R}
    (l : list A) body :
  (forall x, steps R (body x)) -> steps R (for_each l body).
Proof.
  intros Hb. induction l as [|x l IH]; simpl.
  - apply steps_ret; assumption.
  - apply steps_bind; auto.
Qed.

#[export] Instance unchanged_preorder {S A} (f : S -> A) :
  PreOrder (unchanged f).
Proof.
  split.
  - intros s. reflexivity.
  - intros s1 s2 s3 H12 H23. unfold unchanged in *. congruence.
Qed.

#[export] Instance sends_preorder (P : Request -> Prop) : PreOrder (sends P).
Proof.
  split.
  - intros s. exists []. rewrite app_nil_r. auto.
  - intros s1 s2 s3 (l1 & H1 & F1) (l2 & H2 & F2).
    exists (l1 ++ l2)%list. rewrite H2, H1, app_assoc. split; [reflexivity|].
    apply Forall_app; auto.
Qed.

#[export] Instance proc_step_preorder (P : Request -> Prop) :
  PreOrder (proc_step P).
Proof.
  split.
  - intros p. split; [repeat split | reflexivity].
  - intros p1 p2 p3 [(H1 & H2 & H3) Hb] [(H4 & H5 & H6) Hd]. split.
    + repeat split; congruence.
    + etransitivity; eassumption.
Qed.

#[export] Instance world_step_preorder (P : Request -> Prop) :
  PreOrder (world_step P).
Proof.
  split.
  - intros w. unfold world_step. reflexivity.
  - intros w1 w2 w3 H12 H23. unfold world_step in *.
    etransitivity; eassumption.
Qed.

(** Following the structure of a program; the leaves are closed by
    computation. *)
Ltac steps_leaf :=
  intros ?; unfold unchanged, world_step; simpl; reflexivity.

Ltac steps_step :=
  match goal with
  | |- preserves _ _ => unfold preserves
  | |- steps _ (bind _ _) => apply steps_bind; [exact _ | | intros ?]
  | |- steps _ (try_except _ _ _) =>
      apply steps_try_except; [exact _ | | intros ?]
  | |- steps _ (for_each _ _) => apply steps_for_each; [exact _ | intros ?]
  | |- steps _ (ret _) => apply steps_ret; exact _
  | |- steps _ (raise _) => apply steps_raise; exact _
  | |- steps _ (gets _) => apply steps_gets; exact _
  | |- steps _ (if _ then _ else _) => apply steps_if
  | |- steps _ (match ?x with _ => _ end) => destruct x
  | |- steps _ (modify _) => solve [steps_leaf]
  | |- steps _ (logging _ _) => solve [steps_leaf]
  | |- steps _ (print _) => solve [steps_leaf]
  | |- steps _ (sleep _) => solve [steps_leaf]
  | |- steps _ (os_error _ _) => solve [steps_leaf]
  | |- steps _ (Eng.exists_ _) => solve [steps_leaf]
  | |- steps _ (access_w _) => solve [steps_leaf]
  | |- steps _ (access_r _) => solve [steps_leaf]
  | |- steps _ (isfile _) => solve [steps_leaf]
  | |- steps _ (isdir _) => solve [steps_leaf]
  end.

Ltac follow := repeat steps_step.

(** ** What a chat round-trip does to the world *)

Lemma on_sys_steps {A} P (m : M Sys A) :
  steps (sends P) m -> steps (proc_step P) (on_sys m).
Proof.
  intros Hm. unfold on_sys.
  apply (steps_zoom (sends P)); [exact Hm|].
  intros p s' Hs. split; [repeat split | exact Hs].
Qed.

Lemma client_steps net P : steps (proc_step P) (client net).
Proof.
  intros [[full prov name cl] [env dot blt snt]].
  unfold client, _initialize_client, construct, set_mgr, on_sys, zoom,
    getenv, try_except, try_clauses, bind, gets, modify, ret, raise.
  simpl. destruct cl as [c|]; simpl.
  - split; [repeat split | reflexivity].
  - destruct prov; simpl;
      match goal with
      | |- context [connect net ?c] => destruct (connect net c)
      end; simpl;
      (split; [repeat split
              | exists []; simpl; rewrite app_nil_r; split;
                [reflexivity | constructor]]).
Qed.

Lemma send_steps {A} (P : Request -> Prop) rq (answer : nat -> result A) :
  P rq -> steps (proc_step P) (send rq answer).
Proof.
  intros HP p. unfold send, on_sys, zoom. simpl.
  split; [repeat split|]. exists [rq]. split; [reflexivity|].
  constructor; [exact HP | constructor].
Qed.

Lemma format_anthropic_steps P response :
  steps (proc_step P) (_format_anthropic_response response).
Proof.
  unfold _format_anthropic_response.
  apply steps_bind; [exact _ | | intros ?; apply steps_ret; exact _].
  destruct (a_content response) as [|[t|n] rest];
    (apply steps_ret || apply steps_raise); exact _.
Qed.

Lemma format_openai_steps P response :
  steps (proc_step P) (_format_openai_response response).
Proof.
  unfold _format_openai_response.
  destruct (oa_choices response) as [|choice rest].
  - apply steps_raise; exact _.
  - apply steps_bind; [exact _ | | intros ?; apply steps_ret; exact _].
    destruct (oa_usage response) as [[total|]|];
      (apply steps_ret || apply steps_raise); exact _.
Qed.

(** Every request [chat_completion] sends carries the caller's messages,
    and the manager keeps its identity. *)
Lemma chat_completion_steps net messages :
  steps
    (proc_step (fun rq => exists self,
                  request_messages rq
                  = role_content (_format_messages self messages)))
    (chat_completion net messages).
Proof.
  unfold chat_completion.
  apply steps_bind; [exact _ | apply steps_gets; exact _ | intros self].
  apply steps_try_except; [exact _ | | intros e; apply steps_raise; exact _].
  destruct (provider self) eqn:Hp.
  - unfold _openai_chat.
    apply steps_bind; [exact _ | apply client_steps | intros _].
    apply steps_bind; [exact _ | apply steps_gets; exact _ | intros self'].
    apply steps_bind; [exact _ | | intros ?; apply format_openai_steps].
    apply send_steps. exists self. reflexivity.
  - unfold _anthropic_chat.
    apply steps_bind; [exact _ | apply client_steps | intros _].
    apply steps_bind; [exact _ | apply steps_gets; exact _ | intros self'].
    destruct (MODEL_CONFIG !! full_model_name self');
      [|apply steps_raise; exact _].
    apply steps_bind; [exact _ | | intros ?; apply format_anthropic_steps].
    apply send_steps. exists self. reflexivity.
  - unfold _ollama_chat.
    apply steps_bind; [exact _ | apply client_steps | intros _].
    apply steps_bind; [exact _ | apply steps_gets; exact _ | intros self'].
    apply steps_bind; [exact _ | | intros ?; apply steps_ret; exact _].
    apply send_steps. exists self. reflexivity.
Qed.

Lemma one_message self (msg : ChatMessage) :
  role_content (_format_messages self [msg]) = [msg].
Proof. destruct msg. unfold _format_messages. destruct (provider self); reflexivity. Qed.

Lemma on_proc_steps {A} P (m : M Proc A) :
  steps (proc_step P) m -> steps (world_step P) (on_proc m).
Proof.
  intros Hm. unfold on_proc. apply (steps_zoom (proc_step P)); [exact Hm|].
  intros w p Hp. exact Hp.
Qed.

Lemma on_proc_preserves {F A} (f : World -> F) (m : M Proc A) :
  (forall p w, f (with_proc p w) = f w) -> preserves f (on_proc m).
Proof.
  intros Hf w. unfold on_proc, zoom, unchanged.
  destruct (m (proc w)) as [r p]. apply Hf.
Qed.

Lemma record_turn_preserves {F} (f : World -> F) user_message reply :
  (forall h w, f (with_history h w) = f w) ->
  preserves f (record_turn user_message reply).
Proof.
  intros Hf w. unfold record_turn, bind, modify, gets, unchanged; simpl.
  destruct (Nat.ltb _ _); simpl; now rewrite !Hf.
Qed.

Lemma record_turn_world_step P user_message reply :
  steps (world_step P) (record_turn user_message reply).
Proof.
  intros w. unfold record_turn, bind, modify, gets, world_step; simpl.
  destruct (Nat.ltb _ _); simpl; reflexivity.
Qed.

(** [chat_with_ai] never raises. *)
Lemma chat_with_ai_returns net user_message edit rc af w :
  exists r w', chat_with_ai net user_message edit rc af w = (Ok r, w').
Proof.
  unfold chat_with_ai. unfold bind at 1, model_full_name at 1, gets at 1.
  unfold try_except, try_clauses.
  match goal with
  | |- context [match ?m w with _ => _ end] => destruct (m w) as [[r|e] w1]
  end.
  - eauto.
  - simpl. eauto.
Qed.

(** It touches neither the filesystem, nor the clock, nor the terminal. *)
Lemma chat_with_ai_preserves {F} (f : World -> F) net user_message edit rc af :
  (forall p w, f (with_proc p w) = f w) ->
  (forall h w, f (with_history h w) = f w) ->
  (forall l w, f (with_log l w) = f w) ->
  (forall r w, f (with_last r w) = f w) ->
  preserves f (chat_with_ai net user_message edit rc af).
Proof.
  intros Hproc Hhist Hlog Hlast.
  assert (Hl : forall l m, steps (unchanged f) (logging l m)).
  { intros l m w. apply Hlog. }
  unfold preserves, chat_with_ai, model_full_name. cbv zeta.
  apply steps_bind; [exact _ | apply steps_gets; exact _ | intros name].
  apply steps_try_except; [exact _ | |].
  - apply steps_bind; [exact _ | apply steps_gets; exact _ | intros hist].
    apply steps_bind; [exact _ | apply steps_if; apply Hl | intros _].
    apply steps_bind;
      [exact _ | apply on_proc_preserves; exact Hproc | intros response].
    apply steps_bind; [exact _ | apply Hl | intros _].
    apply steps_bind; [exact _ | intros w; apply Hlast | intros _].
    apply steps_bind; [exact _ | | intros _].
    + apply steps_if; [|apply steps_ret; exact _].
      apply record_turn_preserves. exact Hhist.
    + apply steps_bind; [exact _ | apply steps_gets; exact _ | intros ?].
      apply steps_ret; exact _.
  - intros e.
    apply steps_bind; [exact _ | apply Hl | intros _].
    apply steps_bind; [exact _ | apply Hl | intros _].
    apply steps_ret; exact _.
Qed.

(** The request of an edit round-trip carries the edit prompt and the
    caller's text, and nothing else is sent. *)
Lemma chat_with_ai_edit_steps net prompt :
  steps
    (world_step (fun rq =>
       request_messages rq =
       [{| role := "user";
           content := EDIT_INSTRUCTION_PROMPT ++ nl ++ nl
                      ++ "User request: " ++ prompt |}]))
    (chat_with_ai net prompt true 0 None).
Proof.
  unfold chat_with_ai, model_full_name. cbv zeta. simpl negb. cbv iota.
  apply steps_bind; [exact _ | apply steps_gets; exact _ | intros name].
  apply steps_try_except; [exact _ | |].
  - apply steps_bind; [exact _ | apply steps_gets; exact _ | intros hist].
    apply steps_bind; [exact _ | steps_leaf | intros _].
    apply steps_bind; [exact _ | | intros response].
    + apply on_proc_steps.
      intros p. destruct (chat_completion_steps net
        [{| role := "user";
            content := EDIT_INSTRUCTION_PROMPT ++ nl ++ nl
                       ++ "User request: " ++ prompt |}] p)
        as [Hid (l & Hl & HF)].
      split; [exact Hid|]. exists l. split; [exact Hl|].
      eapply Forall_impl; [exact HF|].
      intros rq [self Hrq]. rewrite Hrq. apply one_message.
    + apply steps_bind; [exact _ | steps_leaf | intros _].
      apply steps_bind; [exact _ | steps_leaf | intros _].
      apply steps_bind; [exact _ | apply steps_ret; exact _ | intros _].
      apply steps_bind; [exact _ | apply steps_gets; exact _ | intros ?].
      apply steps_ret; exact _.
  - intros e.
    apply steps_bind; [exact _ | steps_leaf | intros _].
    apply steps_bind; [exact _ | steps_leaf | intros _].
    apply steps_ret; exact _.
Qed.

(** ** The conversation history *)

Lemma last_n_all {A} n (l : list A) : length l <= n -> Py.last_n n l = l.
Proof.
  intros H. unfold Py.last_n. replace (length l - n) with 0 by lia.
  reflexivity.
Qed.

Lemma last_n_length {A} n (l : list A) :
  n <= length l -> length (Py.last_n n l) = n.
Proof. intros H. unfold Py.last_n. rewrite length_skipn. lia. Qed.

Lemma last_n_suffix {A} n (l : list A) :
  l = (firstn (length l - n) l ++ Py.last_n n l)%list.
Proof. unfold Py.last_n. symmetry. apply firstn_skipn. Qed.

Lemma last_n_app_last_n {A} n (l r : list A) :
  Py.last_n n (Py.last_n n l ++ r) = Py.last_n n (l ++ r).
Proof.
  destruct (Nat.le_gt_cases (length l) n) as [Hle | Hgt].
  - now rewrite (last_n_all n l Hle).
  - unfold Py.last_n.
    rewrite !skipn_app, skipn_skipn, !length_app, !length_skipn.
    f_equal; f_equal; lia.
Qed.

Lemma truncated_last_n full : truncated full = Py.last_n 20 full.
Proof.
  unfold truncated. destruct (Nat.ltb_spec 20 (length full)) as [H | H].
  - reflexivity.
  - symmetry. apply last_n_all. exact H.
Qed.

Lemma record_turn_history user_message reply w :
  record_turn user_message reply w =
  (Ok tt,
   with_history
     (truncated (conversation_history w ++ [Some user_message; reply])) w).
Proof.
  unfold record_turn, bind, modify, gets, truncated; simpl.
  rewrite <- app_assoc; simpl.
  destruct (Nat.ltb _ _); reflexivity.
Qed.

Lemma logging_run l m w : logging l m w = (Ok tt, with_log (log w ++ [(l, m)]) w).
Proof. reflexivity. Qed.

Lemma on_proc_history {A} (m : M Proc A) w r w' :
  on_proc m w = (r, w') -> conversation_history w' = conversation_history w.
Proof.
  unfold on_proc, zoom. destruct (m (proc w)) as [r0 p].
  intros H. injection H as _ <-. reflexivity.
Qed.

(** A chat round-trip that is not an edit request either fails, returning
    nothing and leaving the history alone, or records one turn. *)
Lemma chat_with_ai_history net user_message rc af w r w' :
  chat_with_ai net user_message false rc af w = (Ok r, w') ->
  (r = None /\ conversation_history w' = conversation_history w) \/
  exists m, conversation_history w' =
            truncated (conversation_history w ++ [Some m; r]).
Proof.
  unfold chat_with_ai, model_full_name. unfold bind at 1, gets at 1.
  cbv zeta. simpl negb. cbv iota.
  intros H. apply try_except_ok in H as [H | (e & s1 & H & _ & Hh)].
  - right.
    apply bind_ok in H as (hist & w0 & H0 & H). unfold gets in H0.
    injection H0 as <- <-.
    apply bind_ok in H as ([] & w1 & H1 & H).
    apply bind_ok in H as (response & w2 & H2 & H).
    apply bind_ok in H as ([] & w3 & H3 & H).
    apply bind_ok in H as ([] & w4 & H4 & H).
    apply bind_ok in H as ([] & w5 & H5 & H).
    simpl in H1. rewrite logging_run in H1, H3. injection H1 as <-.
    apply on_proc_history in H2 as Hh2. simpl in Hh2.
    injection H3 as <-. unfold modify in H4. injection H4 as <-.
    rewrite record_turn_history in H5. injection H5 as <-.
    unfold bind, gets, ret in H. simpl in H. injection H as <- <-.
    simpl. rewrite Hh2. eexists. reflexivity.
  - left.
    unfold bind, logging, modify, ret in Hh. simpl in Hh.
    injection Hh as <- <-. split; [reflexivity|]. simpl.
    apply bind_raised in H as [H | (hist & w0 & H0 & H)]; [discriminate|].
    unfold gets in H0. injection H0 as <- <-.
    apply bind_raised in H as [H | ([] & w1 & H1 & H)];
      [simpl in H; rewrite logging_run in H; discriminate|].
    simpl in H1. rewrite logging_run in H1. injection H1 as <-.
    apply bind_raised in H as [H | (response & w2 & H2 & H)].
    { apply on_proc_history in H. exact H. }
    exfalso.
    apply bind_raised in H as [H | ([] & w3 & H3 & H)];
      [rewrite logging_run in H; discriminate|].
    apply bind_raised in H as [H | ([] & w4 & H4 & H)]; [discriminate|].
    apply bind_raised in H as [H | ([] & w5 & H5 & H)].
    { rewrite record_turn_history in H. discriminate. }
    discriminate.
Qed.

Lemma record_turns_history turns : forall w,
  length (conversation_history w) <= 20 ->
  fst (record_turns turns w) = Ok tt /\
  conversation_history (snd (record_turns turns w)) =
  Py.last_n 20 (conversation_history w ++ entries turns).
Proof.
  induction turns as [|[u r] turns IH]; intros w Hw; simpl.
  - rewrite app_nil_r, last_n_all by exact Hw. auto.
  - unfold bind. rewrite record_turn_history.
    set (w1 := with_history _ w).
    assert (Hw1 : length (conversation_history w1) <= 20).
    { subst w1. simpl. rewrite truncated_last_n. unfold Py.last_n.
      rewrite length_skipn. lia. }
    destruct (IH w1 Hw1) as [Hok Hh]. split; [exact Hok|].
    rewrite Hh. subst w1. simpl.
    rewrite truncated_last_n, last_n_app_last_n, <- app_assoc.
    reflexivity.
Qed.

Lemma entries_skipn k : forall turns,
  skipn (2 * k) (entries turns) = entries (skipn k turns).
Proof.
  induction k as [|k IH]; intros turns.
  - reflexivity.
  - destruct turns as [|t turns]; [reflexivity|].
    replace (2 * S k) with (S (S (2 * k))) by lia. simpl.
    apply IH.
Qed.

Lemma entries_length turns : length (entries turns) = 2 * length turns.
Proof. induction turns as [|t turns IH]; simpl; lia. Qed.

(** C5.  After a turn is recorded the history is the old one with the two
    new entries appended, cut down from the front: what remains is a suffix
    of the appended list (the oldest entries go first), it has exactly 20
    entries whenever the appended list has more than 20, and nothing is
    dropped otherwise.  A full history of 20 entries loses exactly its
    oldest turn pair.  In a session that starts empty, recording the 21st
    turn pair leaves exactly 20 entries, the ten most recent pairs in
    order. *)
Theorem history_fifo_truncation (user_message : string)
    (reply : option string) (w : World) :
  let h := conversation_history w in
  let full := (h ++ [Some user_message; reply])%list in
  let h' := conversation_history (snd (record_turn user_message reply w)) in
  fst (record_turn user_message reply w) = Ok tt /\
  (exists dropped, full = (dropped ++ h')%list) /\
  (20 < length full -> length h' = 20) /\
  (length full <= 20 -> h' = full) /\
  (length h = 20 ->
   h' = (skipn 2 h ++ [Some user_message; reply])%list) /\
  (forall turns : list (string * option string),
     h = [] -> length turns = 21 ->
     fst (record_turns turns w) = Ok tt /\
     conversation_history (snd (record_turns turns w))
     = entries (skipn 11 turns) /\
     length (conversation_history (snd (record_turns turns w))) = 20) /\
  (forall net message rc af r w',
     chat_with_ai net message false rc af w = (Ok r, w') ->
     (r = None /\ conversation_history w' = h) \/
     exists m, conversation_history w'
               = conversation_history (snd (record_turn m r w))).
Proof.
  intros h full h'. subst h'. rewrite record_turn_history. simpl.
  fold h. fold full. rewrite truncated_last_n.
  split; [reflexivity|]. split; [|split; [|split; [|split; [|split]]]].
  - eexists. apply last_n_suffix.
  - intros Hlen. apply last_n_length. lia.
  - intros Hlen. apply last_n_all. exact Hlen.
  - intros Hlen. unfold Py.last_n, full.
    rewrite length_app, Hlen. simpl.
    rewrite skipn_app, Hlen. reflexivity.
  - intros turns Hh Hlen.
    destruct (record_turns_history turns w) as [Hok Hhist].
    { fold h. rewrite Hh. simpl. lia. }
    fold h in Hhist. rewrite Hh in Hhist. simpl in Hhist.
    split; [exact Hok|]. rewrite Hhist. unfold Py.last_n.
    rewrite entries_length, Hlen.
    change (2 * 21 - 20) with (2 * 11).
    rewrite entries_skipn. split; [reflexivity|].
    rewrite entries_length, length_skipn, Hlen. reflexivity.
  - intros net message rc af r w' Hchat.
    destruct (chat_with_ai_history _ _ _ _ _ _ _ Hchat) as [Hf | [m Hm]].
    + left. exact Hf.
    + right. exists m. rewrite record_turn_history. exact Hm.
Qed.

Lemma history_fifo_truncation_witness :
  conversation_history
    (snd (record_turn "question 11" (Some "answer 11") Scenario.w_full))
  = (skipn 2 (conversation_history Scenario.w_full)
     ++ [Some "question 11"; Some "answer 11"])%list
  /\ conversation_history
       (snd (record_turns Scenario.session21 Scenario.w_fresh))
     = entries (skipn 11 Scenario.session21).
Proof.
  split.
  - destruct (history_fifo_truncation "question 11" (Some "answer 11")
                Scenario.w_full) as (_ & _ & _ & _ & H & _).
    exact (H eq_refl).
  - destruct (history_fifo_truncation "question 11" (Some "answer 11")
                Scenario.w_fresh) as (_ & _ & _ & _ & _ & H & _).
    destruct (H Scenario.session21 eq_refl eq_refl) as (_ & Hh & _).
    exact Hh.
Defined.

(** ** Dictionaries *)

Lemma dict_get_set_same {V} k (v : V) d : Dict.get k (Dict.set k v d) = Some v.
Proof.
  induction d as [|[k' v'] d IH]; simpl.
  - now rewrite String.eqb_refl.
  - destruct (String.eqb k k') eqn:E; simpl; rewrite E; auto.
Qed.

Lemma dict_get_set_other {V} k k' (v : V) d :
  k <> k' -> Dict.get k' (Dict.set k v d) = Dict.get k' d.
Proof.
  intros Hne. induction d as [|[k0 v0] d IH]; simpl.
  - destruct (String.eqb_spec k' k); congruence.
  - destruct (String.eqb_spec k k0); simpl.
    + subst k0. destruct (String.eqb_spec k' k); congruence.
    + destruct (String.eqb k' k0); auto.
Qed.

Lemma dict_get_none_keys {V} k (d : Dict.t V) :
  Dict.get k d = None <-> ~ In k (Dict.keys d).
Proof.
  induction d as [|[k' v'] d IH]; simpl.
  - tauto.
  - destruct (String.eqb_spec k k'); split; intros H.
    + discriminate.
    + exfalso. apply H. auto.
    + intros [E | Hin]; [congruence | now apply IH].
    + apply IH. tauto.
Qed.

Lemma dict_get_in {V} k (v : V) d :
  NoDup (Dict.keys d) -> In (k, v) d -> Dict.get k d = Some v.
Proof.
  induction d as [|[k' v'] d IH]; simpl; intros Hnd Hin; [contradiction|].
  apply NoDup_cons in Hnd as [Hk Hd].
  destruct Hin as [E | Hin].
  - injection E as -> ->. now rewrite String.eqb_refl.
  - destruct (String.eqb_spec k k') as [-> | Hne]; [|auto].
    exfalso. apply Hk. rewrite list_elem_of_In.
    apply (in_map fst) in Hin. exact Hin.
Qed.

Lemma dict_set_fresh {V} k (v : V) d :
  ~ In k (Dict.keys d) -> Dict.set k v d = (d ++ [(k, v)])%list.
Proof.
  induction d as [|[k' v'] d IH]; simpl; intros Hk; [reflexivity|].
  destruct (String.eqb_spec k k') as [-> | Hne]; [tauto|].
  rewrite IH by tauto. reflexivity.
Qed.

Lemma dict_keys_set {V} k (v : V) d :
  Dict.keys (Dict.set k v d) =
  if Dict.mem k d then Dict.keys d else (Dict.keys d ++ [k])%list.
Proof.
  unfold Dict.mem. induction d as [|[k' v'] d IH]; simpl; [reflexivity|].
  destruct (String.eqb_spec k k') as [-> | Hne]; simpl; [reflexivity|].
  rewrite IH. destruct (Dict.get k d); reflexivity.
Qed.

Lemma dict_wf_set {V} k (v : V) d : Dict.wf d -> Dict.wf (Dict.set k v d).
Proof.
  unfold Dict.wf. intros Hd. rewrite dict_keys_set. unfold Dict.mem.
  destruct (Dict.get k d) eqn:E; [exact Hd|].
  apply dict_get_none_keys in E.
  apply NoDup_app. split; [exact Hd|]. split.
  - intros x Hx Hx'. apply list_elem_of_In in Hx.
    apply list_elem_of_singleton in Hx'. subst x. contradiction.
  - apply NoDup_singleton.
Qed.

(** ** The edit instruction parser *)

Lemma fold_parse_app pre post st :
  fold_left parse_line (pre ++ post)%list st
  = fold_left parse_line post (fold_left parse_line pre st).
Proof. apply fold_left_app. Qed.

Lemma store_current_wf st :
  Dict.wf (instructions st) -> Dict.wf (store_current st).
Proof.
  intros Hwf. unfold store_current.
  destruct (current_file st) as [f|]; [|exact Hwf].
  destruct (Py.truthy f); [|exact Hwf].
  apply dict_wf_set. exact Hwf.
Qed.

Lemma parse_line_wf st line :
  Dict.wf (instructions st) -> Dict.wf (instructions (parse_line st line)).
Proof.
  intros Hwf. unfold parse_line.
  destruct (is_marker line); simpl.
  - apply store_current_wf. exact Hwf.
  - destruct (_ && _); exact Hwf.
Qed.

Lemma parse_lines_wf lines : forall st,
  Dict.wf (instructions st) -> Dict.wf (parse_lines st lines).
Proof.
  unfold parse_lines.
  induction lines as [|line lines IH]; intros st Hwf; simpl.
  - apply store_current_wf. exact Hwf.
  - apply IH. apply parse_line_wf. exact Hwf.
Qed.

(** Without a marker that names a path nothing is ever stored. *)
Lemma parse_no_marker lines : forall st,
  Forall (fun l => is_marker l = true ->
                   Py.strip (Py.slice_from 6 l) = "") lines ->
  instructions st = Dict.empty ->
  Py.truthy_opt (current_file st) = false ->
  parse_lines st lines = Dict.empty.
Proof.
  assert (Hstore : forall st, instructions st = Dict.empty ->
            Py.truthy_opt (current_file st) = false ->
            store_current st = Dict.empty).
  { intros st Hi Hc. unfold store_current.
    destruct (current_file st) as [f|]; [|exact Hi].
    simpl in Hc. rewrite Hc. exact Hi. }
  unfold parse_lines.
  induction lines as [|line lines IH]; intros st Hl Hi Hc; simpl.
  - apply Hstore; assumption.
  - apply Forall_cons in Hl as [Hline Hl].
    apply IH; [exact Hl | |]; unfold parse_line;
      destruct (is_marker line) eqn:E; cbn [instructions current_file].
    + apply Hstore; assumption.
    + rewrite Hc, andb_false_r. exact Hi.
    + rewrite (Hline eq_refl). reflexivity.
    + rewrite Hc, andb_false_r. exact Hc.
Qed.

(** The lines after a marker and before the next one are collected,
    stripped, blank ones left out. *)
Lemma parse_block block : forall ins path acc,
  Py.truthy path = true ->
  Forall (fun l => is_marker l = false) block ->
  fold_left parse_line block
    {| instructions := ins; current_file := Some path;
       current_instructions := acc |}
  = {| instructions := ins; current_file := Some path;
       current_instructions :=
         (acc ++ map Py.strip
                   (List.filter (fun l => Py.truthy (Py.strip l)) block))%list |}.
Proof.
  induction block as [|line block IH]; intros ins path acc Hp Hb; simpl.
  - now rewrite app_nil_r.
  - apply Forall_cons in Hb as [Hline Hb].
    unfold parse_line at 2. rewrite Hline. simpl. rewrite Hp.
    destruct (Py.truthy (Py.strip line)) eqn:E; simpl.
    + rewrite IH by assumption. now rewrite <- app_assoc.
    + rewrite IH by assumption. reflexivity.
Qed.

(** Markers that name other paths leave the entry of [path] alone. *)
Lemma parse_other_markers path lines : forall st,
  Forall (fun l => is_marker l = true ->
                   Py.strip (Py.slice_from 6 l) <> path) lines ->
  current_file st <> Some path ->
  Dict.get path (parse_lines st lines) = Dict.get path (instructions st).
Proof.
  unfold parse_lines.
  assert (Hstore : forall st, current_file st <> Some path ->
            Dict.get path (store_current st) = Dict.get path (instructions st)).
  { intros st Hc. unfold store_current.
    destruct (current_file st) as [f|] eqn:Ecf; [|reflexivity].
    destruct (Py.truthy f); [|reflexivity].
    apply dict_get_set_other. congruence. }
  induction lines as [|line lines IH]; intros st Hl Hc; simpl.
  - apply Hstore. exact Hc.
  - apply Forall_cons in Hl as [Hline Hl].
    rewrite IH; [|exact Hl|].
    + unfold parse_line. destruct (is_marker line); simpl.
      * apply Hstore. exact Hc.
      * destruct (_ && _); reflexivity.
    + unfold parse_line. destruct (is_marker line) eqn:E; simpl.
      * intros Heq. injection Heq as Heq. exact (Hline eq_refl Heq).
      * destruct (_ && _); exact Hc.
Qed.

(** C10.  The keys of a parsed instruction map are unique.  A marker line
    for [path] after which no later marker names [path] decides the entry
    of [path]: it is the block that follows that marker (up to the next
    marker or the end of the text), whatever earlier markers for the same
    path had collected. *)
Theorem parse_last_marker_wins :
  (forall response, Dict.wf (parse_edit_instructions response)) /\
  (forall response pre marker block post path,
     Py.split_char Py.newline response
     = (pre ++ marker :: block ++ post)%list ->
     is_marker marker = true ->
     Py.strip (Py.slice_from 6 marker) = path ->
     path <> "" ->
     Forall (fun l => is_marker l = false) block ->
     (post = [] \/ exists m post', post = m :: post' /\ is_marker m = true) ->
     Forall (fun l => is_marker l = true ->
                      Py.strip (Py.slice_from 6 l) <> path) post ->
     Dict.get path (parse_edit_instructions response)
     = Some (Py.join nl
               (map Py.strip
                  (List.filter (fun l => Py.truthy (Py.strip l)) block)))).
Proof.
  split.
  - intros response. unfold parse_edit_instructions.
    apply parse_lines_wf. constructor.
  - intros response pre marker block post path Hsplit Hm Hpath Hne Hb Hnext Hpost.
    assert (Htruthy : Py.truthy path = true)
      by (destruct path; [congruence | reflexivity]).
    unfold parse_edit_instructions, parse_lines. rewrite Hsplit.
    rewrite fold_parse_app. simpl.
    set (st1 := fold_left parse_line pre parse_start).
    unfold parse_line at 2. rewrite Hm, Hpath.
    rewrite fold_parse_app, parse_block by assumption. simpl.
    destruct Hnext as [-> | (m & post' & -> & Hmark)]; simpl.
    + unfold store_current. simpl. rewrite Htruthy.
      apply dict_get_set_same.
    + apply Forall_cons in Hpost as [Hm' Hpost'].
      unfold parse_line at 2. rewrite Hmark.
      match goal with
      | |- Dict.get path (store_current (fold_left parse_line post' ?st)) = _ =>
          change (Dict.get path (parse_lines st post') = 
                  Some (Py.join nl (map Py.strip
                     (List.filter (fun l => Py.truthy (Py.strip l)) block))));
          rewrite (parse_other_markers path post' st)
      end.
      * simpl. unfold store_current. simpl. rewrite Htruthy.
        apply dict_get_set_same.
      * exact Hpost'.
      * cbn [current_file]. intros Heq. injection Heq as Heq.
        exact (Hm' Hmark Heq).
Qed.

Lemma parse_last_marker_wins_witness :
  Dict.get "a.py" (parse_edit_instructions Scenario.twice)
  = Some (Py.join nl
            (map Py.strip
               (List.filter (fun l => Py.truthy (Py.strip l))
                  Scenario.twice_block)))
  /\ parse_edit_instructions Scenario.twice
     = [("a.py", "1. new" ++ nl ++ "2. more"); ("b.py", "for b");
        ("c.py", "rest")].
Proof.
  split; [|vm_compute; reflexivity].
  apply (proj2 parse_last_marker_wins Scenario.twice Scenario.twice_pre
           "File: a.py " Scenario.twice_block Scenario.twice_post "a.py").
  - vm_compute. reflexivity.
  - reflexivity.
  - vm_compute. reflexivity.
  - discriminate.
  - repeat constructor.
  - right. exists "File: c.py", ["rest"]. split; reflexivity.
  - repeat constructor; vm_compute; discriminate.
Defined.

(** ** The edit applier *)

Lemma dict_get_some_in {V} k (v : V) d : Dict.get k d = Some v -> In (k, v) d.
Proof.
  induction d as [|[k' v'] d IH]; simpl; [discriminate|].
  destruct (String.eqb_spec k k') as [-> | Hne]; intros H.
  - injection H as ->. auto.
  - auto.
Qed.

Lemma edit_loop_spec net ei original : forall items acc w,
  (forall x, In x items -> In x original) ->
  exists modified w',
    edit_loop net ei items acc w = (Ok modified, w') /\
    (forall p, ~ In p (Dict.keys items) ->
               Dict.get p modified = Dict.get p acc) /\
    (NoDup (Dict.keys items) ->
     forall p c, In (p, c) items -> Dict.get p ei = None ->
                 Dict.get p modified = Some c) /\
    fs w' = fs w /\
    world_step (edit_request_for ei original) w w'.
Proof.
  induction items as [|[p0 c0] rest IH]; intros acc w Hincl; simpl.
  - exists acc, w. repeat split; try reflexivity. intros _ p c [].
  - assert (Hrest : forall x, In x rest -> In x original)
      by (intros x Hx; apply Hincl; right; exact Hx).
    destruct (Dict.get p0 ei) as [instr|] eqn:Hei.
    + destruct (chat_with_ai_returns net (edit_prompt p0 c0 instr) true 0
                  None w) as (r & w1 & Hchat).
      rewrite (bind_step _ _ _ _ _ Hchat).
      pose proof (chat_with_ai_preserves fs net (edit_prompt p0 c0 instr)
                    true 0 None (fun _ _ => eq_refl) (fun _ _ => eq_refl)
                    (fun _ _ => eq_refl) (fun _ _ => eq_refl) w) as Hfs.
      pose proof (chat_with_ai_edit_steps net (edit_prompt p0 c0 instr) w)
        as Hstep.
      rewrite Hchat in Hfs, Hstep. unfold unchanged in Hfs. simpl in Hfs, Hstep.
      assert (Hstep' : world_step (edit_request_for ei original) w w1).
      { destruct Hstep as [Hid (l & Hl & HF)]. split; [exact Hid|].
        exists l. split; [exact Hl|].
        eapply Forall_impl; [exact HF|]. intros rq Hrq.
        exists p0, c0, instr. split; [apply Hincl; left; reflexivity|].
        split; [exact Hei | exact Hrq]. }
      set (acc' := if Py.truthy_opt r
                   then Dict.set p0 (Py.strip (default "" r)) acc else acc).
      destruct (IH acc' w1 Hrest) as (modified & w' & Hrun & Hout & Hin & Hf & Hs).
      exists modified, w'. split.
      { subst acc'. destruct (Py.truthy_opt r); exact Hrun. }
      split; [|split; [|split]].
      * intros p Hp. rewrite Hout by tauto. subst acc'.
        destruct (Py.truthy_opt r); [|reflexivity].
        apply dict_get_set_other. tauto.
      * intros Hnd p c [E | Hpc] Hnone.
        -- injection E as -> ->. congruence.
        -- apply NoDup_cons in Hnd as [_ Hnd]. eapply Hin; eassumption.
      * congruence.
      * etransitivity; eassumption.
    + destruct (IH (Dict.set p0 c0 acc) w Hrest)
        as (modified & w' & Hrun & Hout & Hin & Hf & Hs).
      exists modified, w'. split; [exact Hrun|].
      split; [|split; [|split]]; try assumption.
      * intros p Hp. rewrite Hout by tauto.
        apply dict_get_set_other. tauto.
      * intros Hnd p c [E | Hpc] Hnone; apply NoDup_cons in Hnd as [Hk Hnd].
        -- injection E as -> ->. rewrite Hout.
           ++ apply dict_get_set_same.
           ++ intros Hp. apply Hk. apply list_elem_of_In. exact Hp.
        -- eapply Hin; eassumption.
Qed.

Lemma edit_loop_empty net items : forall acc w,
  NoDup (Dict.keys (acc ++ items)%list) ->
  edit_loop net Dict.empty items acc w = (Ok (acc ++ items)%list, w).
Proof.
  induction items as [|[p0 c0] rest IH]; intros acc w Hnd; simpl.
  - now rewrite app_nil_r.
  - rewrite dict_set_fresh.
    + rewrite IH; rewrite <- app_assoc; [reflexivity | exact Hnd].
    + unfold Dict.keys in Hnd. rewrite map_app in Hnd.
      apply NoDup_app in Hnd as (_ & Hdisj & _).
      intros Hp. apply (Hdisj p0).
      * apply list_elem_of_In. exact Hp.
      * simpl. left.
Qed.

(** C8.  A response in which no marker line names a path parses to the
    empty map.  Applying
    a map returns a result, in which every file that the map does not name
    has its original content; the filesystem is not touched, and every
    request sent asks for the rewrite of a file the map names, so no other
    file goes to the model.  With the empty map the original files come
    back as they were and the world is unchanged: nothing is sent. *)
Theorem edit_absent_files_pass_through :
  (forall response,
     Forall (fun l => is_marker l = true ->
                      Py.strip (Py.slice_from 6 l) = "")
       (Py.split_char Py.newline response) ->
     parse_edit_instructions response = Dict.empty) /\
  (forall net edit_instructions original_files w,
     Dict.wf original_files ->
     exists modified_files w',
       apply_edit_instructions net edit_instructions original_files w
       = (Ok modified_files, w') /\
       (forall file_path text,
          Dict.get file_path original_files = Some text ->
          Dict.get file_path edit_instructions = None ->
          Dict.get file_path modified_files = Some text) /\
       fs w' = fs w /\
       world_step (edit_request_for edit_instructions original_files) w w') /\
  (forall net original_files w,
     Dict.wf original_files ->
     apply_edit_instructions net Dict.empty original_files w
     = (Ok original_files, w)).
Proof.
  split; [|split].
  - intros response Hno. unfold parse_edit_instructions.
    apply parse_no_marker; [exact Hno | reflexivity | reflexivity].
  - intros net ei original w Hwf. unfold apply_edit_instructions.
    destruct (edit_loop_spec net ei original original Dict.empty w)
      as (modified & w' & Hrun & _ & Hin & Hf & Hs); [auto|].
    exists modified, w'. split; [exact Hrun|]. split; [|split; assumption].
    intros p c Hget Hnone. apply (Hin Hwf p c); [|exact Hnone].
    apply dict_get_some_in. exact Hget.
  - intros net original w Hwf. unfold apply_edit_instructions.
    apply (edit_loop_empty net original Dict.empty w). exact Hwf.
Qed.

Lemma edit_absent_files_pass_through_witness :
  exists modified_files w',
    apply_edit_instructions Scenario.net_prose Scenario.only_a
      Scenario.two_files Scenario.w_fresh = (Ok modified_files, w') /\
    Dict.get "b.py" modified_files = Some "print(2)" /\
    length (sent (sys (proc w'))) = 1.
Proof.
  destruct (proj1 (proj2 edit_absent_files_pass_through) Scenario.net_prose
              Scenario.only_a Scenario.two_files Scenario.w_fresh)
    as (modified & w' & Hrun & Hpass & _ & _).
  { apply (bool_decide_unpack _). vm_compute. exact I. }
  exists modified, w'. split; [exact Hrun|]. split.
  - apply Hpass; reflexivity.
  - revert Hrun. vm_compute. intros [= _ <-]. reflexivity.
Defined.

(** ** Bulk ingestion *)

(** C7.  When the contents ingested by an [/add] command, together with
    those already held, exceed [MAX_TOTAL_SIZE], the command leaves the
    whole set of added files empty (and ends the command loop); it keeps
    the set as ingested when the total stays within the limit. *)
Theorem add_overflow_clears_all os_walk fnmatch user_input added_files w :
  let paths := tl (Py.split_ws user_input) in
  (paths <> [] ->
   (match ingest os_walk fnmatch paths added_files w with
    | (Ok ingested, _) => (MAX_TOTAL_SIZE <? total_size ingested)%Z
    | (Raised _, _) => false
    end) = true ->
   exists w',
     handle_add os_walk fnmatch user_input added_files w
     = (Ok (ExitLoop, Dict.empty), w') /\ fs w' = fs (snd (ingest os_walk fnmatch paths added_files w))) /\
  (paths <> [] ->
   forall ingested w1,
     ingest os_walk fnmatch paths added_files w = (Ok ingested, w1) ->
     (total_size ingested <= MAX_TOTAL_SIZE)%Z ->
     handle_add os_walk fnmatch user_input added_files w
     = (Ok (NextCommand, ingested), w1)).
Proof.
  intros paths. unfold handle_add. fold paths. split.
  - intros Hpaths Hover.
    destruct paths as [|path rest]; [congruence|].
    unfold bind at 1.
    destruct (ingest os_walk fnmatch (path :: rest) added_files w)
      as [[ingested|e] w1]; [|discriminate].
    rewrite Hover. eexists. split; reflexivity.
  - intros Hpaths ingested w1 Hing Hle.
    destruct paths as [|path rest]; [congruence|].
    unfold bind at 1. rewrite Hing.
    destruct (Z.ltb_spec MAX_TOTAL_SIZE (total_size ingested)); [lia|].
    reflexivity.
Qed.

Lemma add_overflow_clears_all_witness :
  exists w',
    handle_add Scenario.flat_walk Scenario.no_match Scenario.add_four
      Dict.empty Scenario.w_big
    = (Ok (ExitLoop, Dict.empty), w').
Proof.
  destruct (proj1 (add_overflow_clears_all Scenario.flat_walk
                     Scenario.no_match Scenario.add_four Dict.empty
                     Scenario.w_big)) as (w' & Hrun & _).
  - vm_compute. discriminate.
  - vm_compute. reflexivity.
  - exists w'. exact Hrun.
Defined.

(** ** The creation path *)

Section Raises.
Context {S : Type} (C : exn -> Prop).

Lemma raises_ret {A} (a : A) : raises (S:=S) C (ret a).
Proof. intros s e s' H. discriminate. Qed.

Lemma raises_gets {A} (g : S -> A) : raises C (gets g).
Proof. intros s e s' H. discriminate. Qed.

Lemma raises_modify (g : S -> S) : raises C (modify g).
Proof. intros s e s' H. discriminate. Qed.

Lemma raises_raise {A} e : C e -> raises (S:=S) (A:=A) C (raise e).
Proof. intros He s e' s' H. injection H as <- _. exact He. Qed.

Lemma raises_bind {A B} (m : M S A) (k : A -> M S B) :
  raises C m -> (forall a, raises C (k a)) -> raises C (bind m k).
Proof.
  intros Hm Hk s e s' H.
  apply bind_raised in H as [H | (a & s1 & _ & H)].
  - exact (Hm _ _ _ H).
  - exact (Hk _ _ _ _ H).
Qed.

Lemma raises_if {A} (b : bool) (m1 m2 : M S A) :
  raises C m1 -> raises C m2 -> raises C (if b then m1 else m2).
Proof. destruct b; auto. Qed.
End Raises.

Lemma raises_for_each {A} C (l : list A) body :
  (forall x, raises C (body x)) -> raises C (for_each l body).
Proof.
  intros Hb. induction l as [|x l IH]; simpl.
  - apply raises_ret.
  - apply raises_bind; auto.
Qed.

Ltac raises_step :=
  match goal with
  | |- raises _ (bind _ _) => apply raises_bind; [|intros ?]
  | |- raises _ (for_each _ _) => apply raises_for_each; intros ?
  | |- raises _ (ret _) => apply raises_ret
  | |- raises _ (gets _) => apply raises_gets
  | |- raises _ (modify _) => apply raises_modify
  | |- raises _ (logging _ _) => apply raises_modify
  | |- raises _ (print _) => apply raises_modify
  | |- raises _ (Eng.exists_ _) => apply raises_gets
  | |- raises _ (access_w _) => apply raises_gets
  | |- raises _ (os_error _ _) => apply raises_raise; reflexivity
  | |- raises _ (if _ then _ else _) => apply raises_if
  | |- raises _ (match ?x with _ => _ end) => destruct x
  end.

Lemma check_parent_raises p : raises os_failure (check_parent p).
Proof. unfold check_parent. repeat raises_step. Qed.

Lemma mkdir_if_absent_raises p : raises os_failure (mkdir_if_absent p).
Proof.
  unfold mkdir_if_absent. repeat raises_step. apply check_parent_raises.
Qed.

Lemma makedirs_raises p : raises os_failure (makedirs p).
Proof.
  unfold makedirs. repeat raises_step. apply mkdir_if_absent_raises.
Qed.

Lemma write_text_raises p text : raises os_failure (write_text p text).
Proof.
  unfold write_text. repeat raises_step. apply check_parent_raises.
Qed.

(** A code block can only fail with an error of the operating system. *)
Lemma apply_code_block_raises code : raises os_failure (apply_code_block code).
Proof.
  unfold apply_code_block. cbv zeta.
  repeat first [ raises_step | apply makedirs_raises | apply write_text_raises ].
Qed.

(** What a code block leaves alone: everything but the filesystem, the
    log and the terminal. *)
Lemma apply_code_block_preserves {F} (f : World -> F) code :
  (forall x w, f (with_fs x w) = f w) ->
  (forall l w, f (with_log l w) = f w) ->
  (forall o w, f (with_stdout o w) = f w) ->
  preserves f (apply_code_block code).
Proof.
  intros Hfs Hlog Hout.
  assert (Hl : forall l m, steps (unchanged f) (logging l m))
    by (intros l m w; apply Hlog).
  assert (Hp : forall t, steps (unchanged f) (print t))
    by (intros t w; apply Hout).
  assert (Hm : forall g, steps (unchanged f)
                 (modify (fun w => with_fs (g w) w)))
    by (intros g w; apply Hfs).
  assert (Hcp : forall p, steps (unchanged f) (check_parent p)).
  { intros p. unfold check_parent. follow. }
  assert (Hmk : forall p, steps (unchanged f) (makedirs p)).
  { intros p. unfold makedirs, mkdir_if_absent. follow; auto. }
  assert (Hwr : forall p t, steps (unchanged f) (write_text p t)).
  { intros p t. unfold write_text. follow; auto. }
  unfold preserves, apply_code_block. cbv zeta. follow; auto.
Qed.

Lemma for_each_app {A} (l1 l2 : list A) body w :
  for_each (l1 ++ l2)%list body w = (for_each l1 body ;;; for_each l2 body) w.
Proof.
  revert w. induction l1 as [|x l1 IH]; intros w; simpl.
  - reflexivity.
  - unfold bind in *. destruct (body x w) as [[[]|e] w1]; [|reflexivity].
    apply IH.
Qed.

Lemma lacks_marker_skipped code w :
  lacks_marker code ->
  apply_code_block code w = (Ok tt, with_log (log w ++ [no_marker_record]) w).
Proof. unfold lacks_marker, apply_code_block. intros ->. reflexivity. Qed.

Lemma creation_body_blocks response w :
  Re.findall CODE_BLOCK response <> [] ->
  creation_body response w =
  match for_each (Re.findall CODE_BLOCK response) apply_code_block
          (with_log
             (log w ++ [(INFO, "Successfully extracted code blocks from creation response.")])
             w) with
  | (Ok _, w1) => (Ok true, w1)
  | (Raised e, w1) => (Raised e, w1)
  end.
Proof.
  unfold creation_body. intros Hne.
  destruct (Re.findall CODE_BLOCK response) as [|code codes]; [congruence|].
  unfold bind at 1. rewrite logging_run. unfold bind at 1.
  destruct (for_each (code :: codes) apply_code_block _) as [[[]|e] w1];
    reflexivity.
Qed.

Lemma creation_body_no_blocks response w :
  Re.findall CODE_BLOCK response = [] ->
  creation_body response w =
  (Raised (Exn ValueError "No code blocks found in the AI response." None), w).
Proof. unfold creation_body. intros ->. reflexivity. Qed.

(** With at least one block there is no retry: the blocks are applied,
    and an operating-system error ends the call with [False]. *)
Lemma apply_creation_steps_blocks net response added_files retry_count w :
  Re.findall CODE_BLOCK response <> [] ->
  apply_creation_steps net response added_files retry_count w =
  match for_each (Re.findall CODE_BLOCK response) apply_code_block
          (with_log
             (log w ++ [(INFO, "Successfully extracted code blocks from creation response.")])
             w) with
  | (Ok _, w1) => (Ok true, w1)
  | (Raised e, w1) =>
      (Ok false,
       with_log
         (log w1 ++ [(ERROR, "An unexpected error occurred during creation: "
                             ++ exn_str e)]) w1)
  end.
Proof.
  intros Hne.
  rewrite apply_creation_steps_equation_1. unfold try_clauses.
  rewrite (creation_body_blocks response w Hne).
  destruct (for_each _ apply_code_block _) as [[[]|e] w1] eqn:Hloop;
    [reflexivity|].
  assert (He : os_failure e).
  { eapply (raises_for_each os_failure); [|exact Hloop].
    apply apply_code_block_raises. }
  destruct e as [c m ctx]. unfold os_failure in He. simpl in He. subst c.
  reflexivity.
Qed.

Lemma apply_creation_steps_blocks_frame {F} (f : World -> F)
    net response added_files retry_count w :
  (forall x w, f (with_fs x w) = f w) ->
  (forall l w, f (with_log l w) = f w) ->
  (forall o w, f (with_stdout o w) = f w) ->
  Re.findall CODE_BLOCK response <> [] ->
  f (snd (apply_creation_steps net response added_files retry_count w)) = f w.
Proof.
  intros H1 H2 H3 Hne.
  rewrite (apply_creation_steps_blocks net response added_files retry_count
             w Hne).
  set (w0 := with_log _ w).
  pose proof (steps_for_each (unchanged f) (Re.findall CODE_BLOCK response)
                apply_code_block
                (fun code => apply_code_block_preserves f code H1 H2 H3) w0)
    as Hloop.
  unfold unchanged in Hloop.
  destruct (for_each _ apply_code_block w0) as [[[]|e] w1]; simpl in *.
  - rewrite Hloop. subst w0. apply H2.
  - rewrite H2, Hloop. subst w0. apply H2.
Qed.

(** C1, as the code has it.  A response with at least one fenced block is
    never a parse failure: its blocks are applied one by one, in order, and
    the call returns [True] (or [False] after an operating-system error,
    which ends the loop) without any retry: nothing is sent, no wait, the
    history stays.  A block that lacks the marker line only adds an error
    record to the log; the blocks before and after it are applied as if it
    were not there. *)
Theorem creation_blocks_applied_one_by_one :
  (forall net response added_files retry_count w,
     Re.findall CODE_BLOCK response <> [] ->
     apply_creation_steps net response added_files retry_count w =
     match for_each (Re.findall CODE_BLOCK response) apply_code_block
             (with_log
                (log w ++ [(INFO, "Successfully extracted code blocks from creation response.")])
                w) with
     | (Ok _, w1) => (Ok true, w1)
     | (Raised e, w1) =>
         (Ok false,
          with_log
            (log w1 ++ [(ERROR, "An unexpected error occurred during creation: "
                                ++ exn_str e)]) w1)
     end) /\
  (forall net response added_files retry_count w,
     Re.findall CODE_BLOCK response <> [] ->
     let w' := snd (apply_creation_steps net response added_files
                      retry_count w) in
     slept w' = slept w /\ proc w' = proc w /\
     conversation_history w' = conversation_history w) /\
  (forall code w,
     lacks_marker code ->
     apply_code_block code w
     = (Ok tt, with_log (log w ++ [no_marker_record]) w)) /\
  (forall before bad after w,
     lacks_marker bad ->
     for_each (before ++ bad :: after)%list apply_code_block w
     = (for_each before apply_code_block ;;;
        logging ERROR (snd no_marker_record) ;;;
        for_each after apply_code_block) w).
Proof.
  assert (Hrun := apply_creation_steps_blocks).
  split; [exact Hrun|]. split; [|split].
  - intros net response added_files retry_count w Hne w'. subst w'.
    split; [|split];
      apply apply_creation_steps_blocks_frame; auto.
  - exact lacks_marker_skipped.
  - intros before bad after w Hbad.
    rewrite for_each_app. unfold bind.
    destruct (for_each before apply_code_block w) as [[[]|e] w1];
      [|reflexivity].
    simpl. unfold bind. rewrite lacks_marker_skipped by exact Hbad.
    reflexivity.
Qed.

(** C1 as stated fails: the second block of the response has no marker
    line, yet the first block is applied ([a.txt] is rewritten) and the
    call returns [True] at once, without retry. *)
Lemma creation_salvages_blocks :
  map (fun code => Re.re_match ITEM_INFO (Py.strip code))
    (Re.findall CODE_BLOCK Scenario.mixed)
  = [Some ["FILE"; "a.txt"]; None] /\
  fst (apply_creation_steps Scenario.net_prose Scenario.mixed Dict.empty 0
         Scenario.w_existing) = Ok true /\
  fs (snd (apply_creation_steps Scenario.net_prose Scenario.mixed Dict.empty 0
             Scenario.w_existing)) !! "a.txt" = Some (File "new" true true) /\
  slept (snd (apply_creation_steps Scenario.net_prose Scenario.mixed
                Dict.empty 0 Scenario.w_existing)) = [] /\
  sent (sys (proc (snd (apply_creation_steps Scenario.net_prose Scenario.mixed
                          Dict.empty 0 Scenario.w_existing)))) = [].
Proof. repeat split; vm_compute; reflexivity. Qed.

Lemma creation_blocks_applied_one_by_one_witness :
  fst (apply_creation_steps Scenario.net_prose Scenario.mixed Dict.empty 0
         Scenario.w_existing) = Ok true /\
  slept (snd (apply_creation_steps Scenario.net_prose Scenario.mixed
                Dict.empty 0 Scenario.w_existing)) = [].
Proof.
  split.
  - rewrite (proj1 creation_blocks_applied_one_by_one Scenario.net_prose
               Scenario.mixed Dict.empty 0 Scenario.w_existing).
    + vm_compute. reflexivity.
    + vm_compute. discriminate.
  - apply (proj1 (proj2 creation_blocks_applied_one_by_one) Scenario.net_prose
             Scenario.mixed Dict.empty 0 Scenario.w_existing).
    vm_compute. discriminate.
Defined.

Lemma one_file_parsed :
  Re.findall CODE_BLOCK Scenario.one_file = [Scenario.one_file_block] /\
  Re.re_match ITEM_INFO (Py.strip Scenario.one_file_block)
  = Some ["FILE"; "a/b.txt"] /\
  Py.strip (Re.delete_first FILE_LINE Scenario.one_file_block) = "X".
Proof. repeat split; vm_compute; reflexivity. Qed.

(** C2 on the code.  The response with the one block [### FILE: a/b.txt]
    and content [X] parses to that one file directive.  Applying it where
    [a/b.txt] does not exist yet creates nothing: the path is reported as
    not found, the filesystem is left as it was, and the call still returns
    [True].  Only a file that is already there (and writable) receives the
    content [X]. *)
Theorem creation_of_absent_file_skipped net added_files w :
  (Re.findall CODE_BLOCK Scenario.one_file = [Scenario.one_file_block] /\
   Re.re_match ITEM_INFO (Py.strip Scenario.one_file_block)
   = Some ["FILE"; "a/b.txt"] /\
   Py.strip (Re.delete_first FILE_LINE Scenario.one_file_block) = "X") /\
  (lookup_path (fs w) "a/b.txt" = None ->
   exists w',
     apply_creation_steps net Scenario.one_file added_files 0 w = (Ok true, w')
     /\ fs w' = fs w
     /\ stdout w' = (stdout w ++ ["Path not found: a/b.txt"])%list) /\
  (forall old r,
     lookup_path (fs w) "a/b.txt" = Some (File old r true) ->
     lookup_path (fs w) "a" <> None ->
     exists w',
       apply_creation_steps net Scenario.one_file added_files 0 w = (Ok true, w')
       /\ fs w' = <[ "a/b.txt" := File "X" r true ]> (fs w)).
Proof.
  destruct one_file_parsed as (Hblocks & Hinfo & Hcontent).
  split; [auto|]. split.
  - intros Habsent.
    rewrite apply_creation_steps_blocks by (rewrite Hblocks; discriminate).
    rewrite Hblocks. simpl for_each. unfold bind at 1.
    unfold apply_code_block. rewrite Hinfo.
    unfold bind at 1, Eng.exists_ at 1, gets at 1. cbn [fs with_log].
    rewrite Habsent. cbn [negb].
    eexists. split; [reflexivity|]. split; reflexivity.
  - intros old r Hfile Hdir.
    rewrite apply_creation_steps_blocks by (rewrite Hblocks; discriminate).
    rewrite Hblocks. simpl for_each. unfold bind at 1.
    unfold apply_code_block. rewrite Hinfo, Hcontent.
    unfold bind at 1, Eng.exists_ at 1, gets at 1. cbn [fs with_log].
    rewrite Hfile. cbn [negb].
    unfold bind at 1, access_w at 1, gets at 1. cbn [fs with_log].
    rewrite Hfile. cbn [negb].
    replace (String.eqb "FILE" "FOLDER") with false by reflexivity.
    replace (String.eqb "FILE" "FILE") with true by reflexivity.
    replace (dirname "a/b.txt") with "a" by reflexivity.
    replace (Py.truthy "a") with true by reflexivity.
    unfold bind at 1. unfold bind at 1, Eng.exists_ at 1, gets at 1.
    cbn [fs with_log].
    destruct (lookup_path (fs w) "a") as [d|] eqn:Hd; [|congruence].
    cbn [negb]. unfold ret at 1.
    unfold bind at 1. unfold write_text, bind at 1, gets at 1.
    cbn [fs with_log]. rewrite Hfile.
    unfold modify at 1. cbn [fs with_log].
    eexists. split; reflexivity.
Qed.

Lemma creation_of_absent_file_skipped_witness :
  (exists w',
     apply_creation_steps Scenario.net_prose Scenario.one_file Dict.empty 0
       Scenario.w_fresh = (Ok true, w')
     /\ fs w' = ∅ /\ stdout w' = ["Path not found: a/b.txt"]) /\
  (exists w',
     apply_creation_steps Scenario.net_prose Scenario.one_file Dict.empty 0
       Scenario.w_present = (Ok true, w')
     /\ fs w' = <[ "a/b.txt" := File "X" true true ]> (fs Scenario.w_present)).
Proof.
  split.
  - apply (proj1 (proj2 (creation_of_absent_file_skipped Scenario.net_prose
                           Dict.empty Scenario.w_fresh))).
    reflexivity.
  - apply (proj2 (proj2 (creation_of_absent_file_skipped Scenario.net_prose
                           Dict.empty Scenario.w_present)) "old" true).
    + vm_compute. reflexivity.
    + vm_compute. discriminate.
Defined.

(** ** Retrying the creation round-trip *)

Lemma no_blocks_retry_raw net response added_files retry_count w :
  retry_count < max_retries ->
  Re.findall CODE_BLOCK response = [] ->
  apply_creation_steps net response added_files retry_count w =
  handled no_blocks_error
    match chat_with_ai net retry_message false 0 (Some added_files)
            (before_retry retry_count w) with
    | (Ok reply, w2) =>
        if Py.truthy_opt reply then
          apply_creation_steps net (default "" reply) added_files
            (retry_count + 1) w2
        else (Ok false, w2)
    | (Raised e, w2) => (Raised e, w2)
    end.
Proof.
  intros Hlt Hnone.
  rewrite apply_creation_steps_equation_1. unfold try_clauses.
  rewrite (creation_body_no_blocks response w Hnone).
  cbn [handle is_ValueError exn_cls].
  destruct (lt_dec retry_count max_retries) as [_ | Hge]; [|contradiction].
  unfold bind at 1. rewrite logging_run.
  cbv zeta. unfold bind at 1, sleep at 1, modify at 1.
  unfold bind at 1.
  change (with_slept _ _) with (before_retry retry_count w).
  change (exn_str _ ++ _) with retry_message.
  destruct (chat_with_ai net retry_message false 0 (Some added_files)
              (before_retry retry_count w)) as [[reply|e] w2];
    [|reflexivity].
  destruct (Py.truthy_opt reply); reflexivity.
Qed.

Lemma no_blocks_given_up net response added_files retry_count w :
  max_retries <= retry_count ->
  Re.findall CODE_BLOCK response = [] ->
  apply_creation_steps net response added_files retry_count w
  = (Ok false, given_up response w).
Proof.
  intros Hge Hnone.
  rewrite apply_creation_steps_equation_1. unfold try_clauses.
  rewrite (creation_body_no_blocks response w Hnone).
  cbn [handle is_ValueError exn_cls].
  destruct (lt_dec retry_count max_retries) as [Hlt | _]; [lia|].
  reflexivity.
Qed.

(** [apply_creation_steps] always returns. *)
Lemma apply_creation_steps_returns net added_files : forall n retry_count,
  max_retries - retry_count <= n ->
  forall response w,
  exists ok w',
    apply_creation_steps net response added_files retry_count w = (Ok ok, w').
Proof.
  induction n as [|n IH]; intros retry_count Hn response w;
    destruct (Re.findall CODE_BLOCK response) as [|code codes] eqn:Hblocks.
  - rewrite no_blocks_given_up by (assumption || lia). eauto.
  - rewrite apply_creation_steps_blocks by (rewrite Hblocks; discriminate).
    destruct (for_each _ apply_code_block _) as [[[]|e] w1]; eauto.
  - destruct (le_lt_dec max_retries retry_count) as [Hge | Hlt].
    { rewrite no_blocks_given_up by assumption. eauto. }
    rewrite no_blocks_retry_raw by assumption.
    destruct (chat_with_ai_returns net retry_message false 0
                (Some added_files) (before_retry retry_count w))
      as (reply & w2 & ->).
    destruct (Py.truthy_opt reply); [|simpl; eauto].
    destruct (IH (retry_count + 1) ltac:(lia) (default "" reply) w2)
      as (ok & w' & ->).
    simpl. eauto.
  - rewrite apply_creation_steps_blocks by (rewrite Hblocks; discriminate).
    destruct (for_each _ apply_code_block _) as [[[]|e] w1]; eauto.
Qed.

(** One retry: the wait, the round-trip with the augmented message, and the
    next attempt on the reply, if there is one. *)
Lemma no_blocks_retry net response added_files retry_count w :
  retry_count < max_retries ->
  Re.findall CODE_BLOCK response = [] ->
  exists reply w2,
    chat_with_ai net retry_message false 0 (Some added_files)
      (before_retry retry_count w) = (Ok reply, w2) /\
    slept w2 = slept (before_retry retry_count w) /\
    stdout w2 = stdout w /\ fs w2 = fs w /\
    apply_creation_steps net response added_files retry_count w =
    if Py.truthy_opt reply then
      apply_creation_steps net (default "" reply) added_files
        (retry_count + 1) w2
    else (Ok false, w2).
Proof.
  intros Hlt Hnone.
  rewrite no_blocks_retry_raw by assumption.
  destruct (chat_with_ai_returns net retry_message false 0
              (Some added_files) (before_retry retry_count w))
    as (reply & w2 & Hchat).
  exists reply, w2. split; [exact Hchat|].
  assert (Hf : forall F (f : World -> F),
            (forall p w, f (with_proc p w) = f w) ->
            (forall h w, f (with_history h w) = f w) ->
            (forall l w, f (with_log l w) = f w) ->
            (forall r w, f (with_last r w) = f w) ->
            f w2 = f (before_retry retry_count w)).
  { intros F f H1 H2 H3 H4.
    pose proof (chat_with_ai_preserves f net retry_message false 0
                  (Some added_files) H1 H2 H3 H4
                  (before_retry retry_count w)) as H.
    rewrite Hchat in H. exact H. }
  split; [apply Hf; reflexivity|].
  split; [apply (Hf _ stdout); reflexivity|].
  split; [apply (Hf _ fs); reflexivity|].
  rewrite Hchat. destruct (Py.truthy_opt reply); [|reflexivity].
  destruct (apply_creation_steps_returns net added_files max_retries
              (retry_count + 1) ltac:(lia) (default "" reply) w2)
    as (ok & w' & ->).
  reflexivity.
Qed.

Lemma given_up_frame response w :
  slept (given_up response w) = slept w /\
  stdout (given_up response w)
  = (stdout w ++ ["Creation response that failed to parse:"; response])%list.
Proof.
  split; [reflexivity|]. unfold given_up. simpl.
  rewrite <- app_assoc. reflexivity.
Qed.

Lemma waits_step from k : waits from (S k) = (2 ^ Z.of_nat from)%Z :: waits (S from) k.
Proof. reflexivity. Qed.

(** The waits of a run: one before each re-issue, doubling. *)
Lemma schedule_from net added_files : forall n retry_count,
  retry_count + n = max_retries ->
  forall response w,
  exists ok w' k,
    apply_creation_steps net response added_files retry_count w = (Ok ok, w')
    /\ k <= n /\ slept w' = (slept w ++ waits retry_count k)%list.
Proof.
  induction n as [|n IH]; intros retry_count Hn response w;
    destruct (Re.findall CODE_BLOCK response) as [|code codes] eqn:Hblocks.
  - rewrite no_blocks_given_up by (assumption || lia).
    exists false, (given_up response w), 0. simpl. rewrite app_nil_r. auto.
  - destruct (apply_creation_steps_returns net added_files max_retries
                retry_count ltac:(lia) response w) as (ok & w' & Hrun).
    exists ok, w', 0. split; [exact Hrun|]. split; [lia|].
    simpl. rewrite app_nil_r.
    pose proof (apply_creation_steps_blocks_frame slept net response
                  added_files retry_count w (fun _ _ => eq_refl)
                  (fun _ _ => eq_refl) (fun _ _ => eq_refl)) as Hf.
    rewrite Hrun in Hf. apply Hf. rewrite Hblocks. discriminate.
  - destruct (no_blocks_retry net response added_files retry_count w)
      as (reply & w2 & Hchat & Hslept & _ & _ & Hrun);
      [lia | exact Hblocks |].
    rewrite Hrun. destruct (Py.truthy_opt reply).
    + destruct (IH (retry_count + 1) ltac:(lia) (default "" reply) w2)
        as (ok & w' & k & Hrec & Hk & Hs).
      exists ok, w', (S k). split; [exact Hrec|]. split; [lia|].
      rewrite Hs, Hslept, waits_step. simpl.
      rewrite <- app_assoc. simpl.
      replace (retry_count + 1) with (S retry_count) by lia. reflexivity.
    + exists false, w2, 1. split; [reflexivity|]. split; [lia|].
      rewrite Hslept. reflexivity.
  - destruct (apply_creation_steps_returns net added_files max_retries
                retry_count ltac:(lia) response w) as (ok & w' & Hrun).
    exists ok, w', 0. split; [exact Hrun|]. split; [lia|].
    simpl. rewrite app_nil_r.
    pose proof (apply_creation_steps_blocks_frame slept net response
                  added_files retry_count w (fun _ _ => eq_refl)
                  (fun _ _ => eq_refl) (fun _ _ => eq_refl)) as Hf.
    rewrite Hrun in Hf. apply Hf. rewrite Hblocks. discriminate.
Qed.

(** C4, as the code has it.  A response without a fenced code block makes
    the call wait [2 ** retry_count] seconds and issue the round-trip again
    with the fixed error message; the reply, if there is one, is treated
    with the retry count raised by one, and without a reply the call
    returns [False].  At retry count 3 the call returns [False], after
    printing the response it could not parse.  So a call waits 1, 2 and 4
    seconds before its first, second and third re-issue and never issues a
    fourth; when the first response and the three replies all lack a code
    block, four responses have been parsed, the waits were exactly 1, 2 and
    4 seconds, and the last reply is the one printed. *)
Theorem creation_retry_schedule net added_files :
  (forall response retry_count w,
     retry_count < max_retries ->
     Re.findall CODE_BLOCK response = [] ->
     exists reply w2,
       chat_with_ai net retry_message false 0 (Some added_files)
         (before_retry retry_count w) = (Ok reply, w2) /\
       apply_creation_steps net response added_files retry_count w =
       if Py.truthy_opt reply then
         apply_creation_steps net (default "" reply) added_files
           (retry_count + 1) w2
       else (Ok false, w2)) /\
  (forall response w,
     Re.findall CODE_BLOCK response = [] ->
     apply_creation_steps net response added_files max_retries w
     = (Ok false, given_up response w)) /\
  (forall response w,
     exists ok w' k,
       apply_creation_steps net response added_files 0 w = (Ok ok, w') /\
       k <= 3 /\ slept w' = (slept w ++ firstn k [1; 2; 4]%Z)%list) /\
  (forall response w r1 w1 r2 w2 r3 w3,
     Re.findall CODE_BLOCK response = [] ->
     chat_with_ai net retry_message false 0 (Some added_files)
       (before_retry 0 w) = (Ok (Some r1), w1) ->
     unparsable r1 ->
     chat_with_ai net retry_message false 0 (Some added_files)
       (before_retry 1 w1) = (Ok (Some r2), w2) ->
     unparsable r2 ->
     chat_with_ai net retry_message false 0 (Some added_files)
       (before_retry 2 w2) = (Ok (Some r3), w3) ->
     unparsable r3 ->
     apply_creation_steps net response added_files 0 w
     = (Ok false, given_up r3 w3) /\
     slept (given_up r3 w3) = (slept w ++ [1; 2; 4]%Z)%list /\
     stdout (given_up r3 w3)
     = (stdout w ++ ["Creation response that failed to parse:"; r3])%list).
Proof.
  split; [|split; [|split]].
  - intros response retry_count w Hlt Hnone.
    destruct (no_blocks_retry net response added_files retry_count w Hlt Hnone)
      as (reply & w2 & Hchat & _ & _ & _ & Hrun).
    exists reply, w2. split; assumption.
  - intros response w Hnone. apply no_blocks_given_up; [lia | exact Hnone].
  - intros response w.
    destruct (schedule_from net added_files 3 0 eq_refl response w)
      as (ok & w' & k & Hrun & Hk & Hs).
    exists ok, w', k. split; [exact Hrun|]. split; [exact Hk|].
    rewrite Hs. f_equal.
    destruct k as [|[|[|[|k]]]]; try reflexivity. lia.
  - intros response w r1 w1 r2 w2 r3 w3 Hnone H1 [Ht1 Hn1] H2 [Ht2 Hn2]
      H3 [Ht3 Hn3].
    assert (Hf : forall F (f : World -> F) k wa r wb,
              (forall p w, f (with_proc p w) = f w) ->
              (forall h w, f (with_history h w) = f w) ->
              (forall l w, f (with_log l w) = f w) ->
              (forall r w, f (with_last r w) = f w) ->
              chat_with_ai net retry_message false 0 (Some added_files)
                (before_retry k wa) = (Ok r, wb) ->
              f wb = f (before_retry k wa)).
    { intros F f k wa r wb Ha Hb Hc Hd Hchat.
      pose proof (chat_with_ai_preserves f net retry_message false 0
                    (Some added_files) Ha Hb Hc Hd (before_retry k wa)) as H.
      rewrite Hchat in H. exact H. }
    split; [|split].
    + rewrite no_blocks_retry_raw by (unfold max_retries; lia || assumption).
      rewrite H1. cbn [Py.truthy_opt default Nat.add]. rewrite Ht1.
      rewrite no_blocks_retry_raw by (unfold max_retries; lia || assumption).
      rewrite H2. cbn [Py.truthy_opt default Nat.add]. rewrite Ht2.
      rewrite no_blocks_retry_raw by (unfold max_retries; lia || assumption).
      rewrite H3. cbn [Py.truthy_opt default Nat.add]. rewrite Ht3.
      rewrite no_blocks_given_up by (unfold max_retries; lia || assumption).
      reflexivity.
    + rewrite (proj1 (given_up_frame r3 w3)).
      rewrite (Hf _ slept 2 w2 _ w3) by (reflexivity || exact H3).
      simpl. rewrite (Hf _ slept 1 w1 _ w2) by (reflexivity || exact H2).
      simpl. rewrite (Hf _ slept 0 w _ w1) by (reflexivity || exact H1).
      simpl. rewrite <- !app_assoc. reflexivity.
    + rewrite (proj2 (given_up_frame r3 w3)).
      rewrite (Hf _ stdout 2 w2 _ w3) by (reflexivity || exact H3).
      simpl. rewrite (Hf _ stdout 1 w1 _ w2) by (reflexivity || exact H2).
      simpl. rewrite (Hf _ stdout 0 w _ w1) by (reflexivity || exact H1).
      reflexivity.
Qed.

Lemma creation_retry_schedule_witness :
  apply_creation_steps Scenario.net_prose Scenario.prose Dict.empty 0
    Scenario.w_fresh
  = (Ok false, given_up "I cannot do that." Scenario.w_retry3) /\
  slept (given_up "I cannot do that." Scenario.w_retry3) = [1; 2; 4]%Z /\
  stdout (given_up "I cannot do that." Scenario.w_retry3)
  = ["Creation response that failed to parse:"; "I cannot do that."].
Proof.
  apply (proj2 (proj2 (proj2 (creation_retry_schedule Scenario.net_prose
                                Dict.empty)))
           Scenario.prose Scenario.w_fresh
           "I cannot do that." Scenario.w_retry1
           "I cannot do that." Scenario.w_retry2
           "I cannot do that." Scenario.w_retry3).
  - vm_compute. reflexivity.
  - vm_compute. reflexivity.
  - split; vm_compute; reflexivity.
  - vm_compute. reflexivity.
  - split; vm_compute; reflexivity.
  - vm_compute. reflexivity.
  - split; vm_compute; reflexivity.
Defined.

(** C4 as stated fails: when the model keeps answering in prose, the first
    wait is 1 second, not 2, and the round-trip is re-issued three times
    after the first response, so four responses are parsed, not three. *)
Lemma creation_retry_first_wait_is_one_second :
  Re.findall CODE_BLOCK Scenario.prose = [] /\
  slept (snd (apply_creation_steps Scenario.net_prose Scenario.prose
                Dict.empty 0 Scenario.w_fresh)) = [1; 2; 4]%Z /\
  hd 0%Z (slept (snd (apply_creation_steps Scenario.net_prose Scenario.prose
                        Dict.empty 0 Scenario.w_fresh))) <> 2%Z /\
  length (sent (sys (proc (snd (apply_creation_steps Scenario.net_prose
                                  Scenario.prose Dict.empty 0
                                  Scenario.w_fresh))))) = 3 /\
  fst (apply_creation_steps Scenario.net_prose Scenario.prose Dict.empty 0
         Scenario.w_fresh) = Ok false.
Proof. repeat split; vm_compute; (reflexivity || discriminate). Qed.

(** * Further properties of the model manager *)

Lemma model_config_cases m cfg :
  MODEL_CONFIG !! m = Some cfg ->
  (m = "anthropic/claude-3-5-sonnet-latest" /\ requires_api_key cfg = true /\
   env_key cfg = Some "ANTHROPIC_API_KEY") \/
  (m = "ollama/qwen2.5-coder:14b" /\ requires_api_key cfg = false) \/
  (m = "openai/gpt-4o" /\ requires_api_key cfg = true /\
   env_key cfg = Some "OPENAI_API_KEY").
Proof.
  unfold MODEL_CONFIG. rewrite !lookup_insert, lookup_empty.
  repeat case_decide; intros Hl; try discriminate;
    injection Hl as <-; subst m; auto.
Qed.

Lemma load_model_config_known s m cfg :
  configured_model s = Some m -> MODEL_CONFIG !! m = Some cfg ->
  load_model_config s = (Ok m, with_environ (environ s ∪ dotenv s) s).
Proof.
  unfold configured_model. intros Hm Hcfg.
  unfold load_model_config, load_dotenv, getenv, bind, modify, gets, ret.
  simpl. rewrite Hm.
  destruct m as [|c m']; [vm_compute in Hcfg; discriminate|].
  simpl. rewrite Hcfg. reflexivity.
Qed.

Lemma load_model_config_ok s m s1 :
  load_model_config s = (Ok m, s1) ->
  configured_model s = Some m /\ is_Some (MODEL_CONFIG !! m) /\
  s1 = with_environ (environ s ∪ dotenv s) s.
Proof.
  unfold configured_model, load_model_config, load_dotenv, getenv, bind,
    modify, gets, ret, raise. simpl.
  destruct ((environ s ∪ dotenv s) !! "MODEL") as [m0|]; [|discriminate].
  destruct (Py.truthy m0); simpl; [|discriminate].
  destruct (MODEL_CONFIG !! m0) eqn:Hcfg; [|discriminate].
  intros H. injection H as <- <-. rewrite Hcfg. eauto.
Qed.

Lemma parse_registry_name m cfg s :
  MODEL_CONFIG !! m = Some cfg ->
  exists p name,
    parse_model_name m s = (Ok (p, name), s) /\
    provider_value p ++ "/" ++ name = m.
Proof.
  intros Hcfg.
  destruct (model_config_cases m cfg Hcfg) as [(-> & _) | [(-> & _) | (-> & _)]];
    eexists; eexists; (split; [reflexivity|]); reflexivity.
Qed.

Lemma validate_api_keys_run m cfg s :
  MODEL_CONFIG !! m = Some cfg ->
  validate_api_keys m s =
  if requires_api_key cfg then
    match env_key cfg with
    | Some k =>
        if Py.truthy_opt (environ s !! k) then (Ok tt, s)
        else (Raised (Exn ModelConfigurationError
                        ("API key " ++ k ++ " required for " ++ m
                         ++ " not found in environment variables") None), s)
    | None => (Raised (Exn (Builtin "TypeError") "str expected, not NoneType" None), s)
    end
  else (Ok tt, s).
Proof.
  intros Hcfg. unfold validate_api_keys. rewrite Hcfg.
  destruct (requires_api_key cfg); [|reflexivity].
  destruct (env_key cfg) as [k|]; [|reflexivity].
  unfold bind, getenv, gets. destruct (Py.truthy_opt (environ s !! k)); reflexivity.
Qed.

(** X1.  Construction succeeds exactly when the environment, with the
    [.env] file loaded, names a model of the registry and holds a non-empty
    value for the key that model requires.  The manager then carries the
    configured name, split at its first slash into provider and model, and
    has no client yet; nothing is built or sent. *)
Theorem init_succeeds_iff_configured (s : Sys) :
  let env := environ s ∪ dotenv s in
  (forall m,
     configured env m ->
     exists self,
       init s = (Ok self, with_environ env s) /\
       full_model_name self = m /\
       provider_value (provider self) ++ "/" ++ model_name self = m /\
       _client self = None) /\
  (forall self s',
     init s = (Ok self, s') ->
     configured env (full_model_name self) /\
     built s' = built s /\ sent s' = sent s).
Proof.
  intros env. split.
  - intros m (Hm & cfg & Hcfg & Hkey).
    unfold init.
    rewrite (bind_step _ _ _ _ _ (load_model_config_known s m cfg Hm Hcfg)).
    destruct (parse_registry_name m cfg (with_environ env s) Hcfg)
      as (p & name & Hparse & Hname).
    rewrite (bind_step _ _ _ _ _ Hparse).
    unfold bind. rewrite (validate_api_keys_run m cfg _ Hcfg).
    destruct (requires_api_key cfg).
    + destruct (Hkey eq_refl) as (k & v & -> & Hv & Hne).
      cbn [environ with_environ]. fold env. rewrite Hv.
      destruct v; [congruence|]. simpl. eexists. repeat split. exact Hname.
    + eexists. repeat split. exact Hname.
  - intros self s' Hinit. unfold init in Hinit.
    apply bind_ok in Hinit as (full & s1 & Hload & Hinit).
    apply load_model_config_ok in Hload as (Hm & [cfg Hcfg] & ->).
    destruct (parse_registry_name full cfg (with_environ env s) Hcfg)
      as (p & name & Hparse & Hname).
    rewrite (bind_step _ _ _ _ _ Hparse) in Hinit.
    unfold bind in Hinit. rewrite (validate_api_keys_run full cfg _ Hcfg) in Hinit.
    assert (Hgoal : (requires_api_key cfg = true ->
              exists k v, env_key cfg = Some k /\ env !! k = Some v /\ v <> "")
            /\ self = {| full_model_name := full; provider := p; model_name := name; _client := None |}
            /\ s' = with_environ env s).
    { destruct (requires_api_key cfg).
      - destruct (env_key cfg) as [k|]; [|discriminate Hinit].
        cbn [environ with_environ] in Hinit. fold env in Hinit.
        destruct (env !! k) as [v|] eqn:Hv; simpl in Hinit;
          [|discriminate Hinit].
        destruct v; simpl in Hinit; [discriminate Hinit|].
        injection Hinit as <- <-. split; [|auto].
        intros _. exists k. eexists. split; [reflexivity|].
        split; [exact Hv|]. intros Heq. discriminate Heq.
      - simpl in Hinit. injection Hinit as <- <-. split; [discriminate | auto]. }
    destruct Hgoal as (Hkey & -> & ->). simpl.
    split; [|auto]. split; [exact Hm|]. exists cfg. auto.
Qed.

(** X2.  When the configured model requires a key that is unset or empty,
    construction fails with [ModelConfigurationError] naming the key and
    the model, before any client is built or any request sent. *)
Theorem init_missing_credential (s : Sys) m k :
  credential_missing (environ s ∪ dotenv s) m k ->
  exists s',
    init s =
    (Raised (Exn ModelConfigurationError
               ("API key " ++ k ++ " required for " ++ m
                ++ " not found in environment variables") None), s') /\
    built s' = built s /\ sent s' = sent s.
Proof.
  intros (Hm & cfg & Hcfg & Hreq & Hk & Hmiss). unfold init.
  rewrite (bind_step _ _ _ _ _ (load_model_config_known s m cfg Hm Hcfg)).
  destruct (parse_registry_name m cfg
              (with_environ (environ s ∪ dotenv s) s) Hcfg)
    as (p & name & Hparse & _).
  rewrite (bind_step _ _ _ _ _ Hparse).
  unfold bind. rewrite (validate_api_keys_run m cfg _ Hcfg), Hreq, Hk.
  cbn [environ with_environ].
  destruct Hmiss as [-> | ->]; simpl; eexists; repeat split.
Qed.

Lemma init_succeeds_iff_configured_witness :
  exists self s',
    init Scenario.sys_dotenv_key = (Ok self, s') /\
    full_model_name self = "openai/gpt-4o" /\ _client self = None.
Proof.
  destruct (proj1 (init_succeeds_iff_configured Scenario.sys_dotenv_key)
              "openai/gpt-4o") as (self & Hrun & Hname & _ & Hc).
  - split; [vm_compute; reflexivity|]. eexists. split; [vm_compute; reflexivity|].
    intros _. exists "OPENAI_API_KEY", "sk-test".
    split; [reflexivity|]. split; [vm_compute; reflexivity|].
    intros Heq. discriminate Heq.
  - exists self. eexists. split; [exact Hrun|]. split; assumption.
Defined.

Lemma init_missing_credential_witness :
  exists s',
    init Scenario.sys_no_key =
    (Raised (Exn ModelConfigurationError
               "API key OPENAI_API_KEY required for openai/gpt-4o not found in environment variables"
               None), s') /\
    built s' = [] /\ sent s' = [].
Proof.
  apply (init_missing_credential Scenario.sys_no_key "openai/gpt-4o"
           "OPENAI_API_KEY").
  split; [vm_compute; reflexivity|]. eexists.
  split; [vm_compute; reflexivity|]. split; [reflexivity|].
  split; [reflexivity|]. left. vm_compute. reflexivity.
Defined.

Lemma contains_char_cons a c m :
  Py.contains (String a EmptyString) (String c m)
  = Ascii.eqb a c || Py.contains (String a EmptyString) m.
Proof.
  cbn [Py.contains]. f_equal. unfold Py.startswith. cbn [String.prefix].
  destruct (Ascii.ascii_dec a c) as [-> | Hne].
  - rewrite Ascii.eqb_refl. destruct m; reflexivity.
  - destruct (Ascii.eqb_spec a c); [congruence | reflexivity].
Qed.

Lemma split_once_no_sep m :
  Py.contains "/" m = false -> Py.split_once "/" m = (m, None).
Proof.
  induction m as [|c m IH]; [reflexivity|].
  rewrite contains_char_cons. intros Hc.
  apply orb_false_iff in Hc as [Hc Hm]. cbn [Py.split_once].
  rewrite Ascii.eqb_sym, Hc, (IH Hm). reflexivity.
Qed.

Lemma split_once_first v name :
  Py.contains "/" v = false ->
  Py.split_once "/" (v ++ "/" ++ name) = (v, Some name).
Proof.
  induction v as [|c v IH]; [reflexivity|].
  rewrite contains_char_cons. intros Hc.
  apply orb_false_iff in Hc as [Hc Hv].
  change (String c v ++ "/" ++ name) with (String c (v ++ "/" ++ name)).
  cbn [Py.split_once]. rewrite Ascii.eqb_sym, Hc, (IH Hv). reflexivity.
Qed.

(** X3.  [parse_model_name] inverts the joining of a provider value and a
    model name with a slash, whatever further slashes the model name has;
    a name without slash, or with an unknown provider before the first
    slash, raises [ModelConfigurationError] with the [ValueError] as its
    context. *)
Theorem parse_model_name_round_trip :
  (forall p name s,
     parse_model_name (provider_value p ++ "/" ++ name) s = (Ok (p, name), s)) /\
  (forall m s,
     Py.contains "/" m = false ->
     exists e, parse_model_name m s = (Raised e, s) /\ invalid_format m e) /\
  (forall v name s,
     Py.contains "/" v = false -> provider_of_value v = None ->
     exists e, parse_model_name (v ++ "/" ++ name) s = (Raised e, s) /\
               invalid_format (v ++ "/" ++ name) e).
Proof.
  split; [|split].
  - intros p name s. destruct p; reflexivity.
  - intros m s Hm. unfold parse_model_name, try_except, try_clauses.
    rewrite (split_once_no_sep m Hm). simpl.
    eexists. split; [reflexivity|]. repeat split. eexists. split; reflexivity.
  - intros v name s Hv Hp. unfold parse_model_name, try_except, try_clauses.
    rewrite (split_once_first v name Hv), Hp. simpl.
    eexists. split; [reflexivity|]. repeat split. eexists. split; reflexivity.
Qed.

Lemma parse_model_name_round_trip_witness :
  (exists e, parse_model_name "gpt-4o" Scenario.sys_ollama
             = (Raised e, Scenario.sys_ollama) /\ invalid_format "gpt-4o" e) /\
  (exists e, parse_model_name "mistral/large" Scenario.sys_ollama
             = (Raised e, Scenario.sys_ollama)
             /\ invalid_format "mistral/large" e) /\
  parse_model_name "ollama/library/qwen" Scenario.sys_ollama
  = (Ok (OLLAMA, "library/qwen"), Scenario.sys_ollama).
Proof.
  split; [|split].
  - apply (proj1 (proj2 parse_model_name_round_trip)). reflexivity.
  - apply (proj2 (proj2 parse_model_name_round_trip) "mistral" "large");
      reflexivity.
  - apply (proj1 parse_model_name_round_trip OLLAMA "library/qwen").
Defined.

(** ** One client, one request *)

#[export] Instance memo_preorder : PreOrder memo.
Proof.
  split.
  - intros p. split; [repeat split|]. split; [reflexivity|].
    destruct (_client (mgr p)); auto.
  - intros p1 p2 p3 ((Hf & Hp & Hn) & He & H12) ((Hf' & Hp' & Hn') & He' & H23).
    split; [repeat split; congruence|]. split; [congruence|].
    assert (Hnat : native_client p2 = native_client p1)
      by (unfold native_client; rewrite Hp, He; reflexivity).
    destruct (_client (mgr p1)) as [c|].
    + destruct H12 as [Hc Hb]. rewrite Hc in H23. destruct H23 as [Hc' Hb'].
      split; congruence.
    + destruct H12 as [[Hc Hb] | [Hc Hb]]; rewrite Hc in H23.
      * destruct H23 as [[Hc' Hb'] | [Hc' Hb']]; [left | right];
          split; congruence.
      * destruct H23 as [Hc' Hb']. right. split; congruence.
Qed.

Lemma client_memo net : steps memo (client net).
Proof.
  intros [[full prov name cl] [env dot blt snt]].
  unfold client, _initialize_client, construct, set_mgr, on_sys, zoom,
    getenv, try_except, try_clauses, bind, gets, modify, ret, raise, memo,
    native_client.
  simpl. destruct cl as [c|]; simpl.
  - repeat split.
  - destruct prov; simpl;
      match goal with
      | |- context [connect net ?c] => destruct (connect net c)
      end; simpl; (split; [repeat split|]); (split; [reflexivity|]); auto.
Qed.

Lemma send_memo {A} rq (answer : nat -> result A) : steps memo (send rq answer).
Proof.
  intros p. unfold send, on_sys, zoom, memo. simpl.
  split; [repeat split|]. split; [reflexivity|].
  destruct (_client (mgr p)); auto.
Qed.

Lemma format_anthropic_any (R : Proc -> Proc -> Prop) `{!PreOrder R} response :
  steps R (_format_anthropic_response response).
Proof.
  unfold _format_anthropic_response.
  apply steps_bind; [exact _ | | intros ?; apply steps_ret; exact _].
  destruct (a_content response) as [|[t|n] rest];
    (apply steps_ret || apply steps_raise); exact _.
Qed.

Lemma format_openai_any (R : Proc -> Proc -> Prop) `{!PreOrder R} response :
  steps R (_format_openai_response response).
Proof.
  unfold _format_openai_response.
  destruct (oa_choices response) as [|choice rest].
  - apply steps_raise; exact _.
  - apply steps_bind; [exact _ | | intros ?; apply steps_ret; exact _].
    destruct (oa_usage response) as [[total|]|];
      (apply steps_ret || apply steps_raise); exact _.
Qed.

Lemma chat_completion_memo net messages :
  steps memo (chat_completion net messages).
Proof.
  unfold chat_completion.
  apply steps_bind; [exact _ | apply steps_gets; exact _ | intros self].
  apply steps_try_except; [exact _ | | intros e; apply steps_raise; exact _].
  destruct (provider self).
  - unfold _openai_chat.
    apply steps_bind; [exact _ | apply client_memo | intros _].
    apply steps_bind; [exact _ | apply steps_gets; exact _ | intros self'].
    apply steps_bind; [exact _ | apply send_memo | intros ?].
    apply format_openai_any; exact _.
  - unfold _anthropic_chat.
    apply steps_bind; [exact _ | apply client_memo | intros _].
    apply steps_bind; [exact _ | apply steps_gets; exact _ | intros self'].
    destruct (MODEL_CONFIG !! full_model_name self');
      [|apply steps_raise; exact _].
    apply steps_bind; [exact _ | apply send_memo | intros ?].
    apply format_anthropic_any; exact _.
  - unfold _ollama_chat.
    apply steps_bind; [exact _ | apply client_memo | intros _].
    apply steps_bind; [exact _ | apply steps_gets; exact _ | intros self'].
    apply steps_bind; [exact _ | apply send_memo | intros ?].
    apply steps_ret; exact _.
Qed.

Lemma client_ok_present net p c p1 :
  client net p = (Ok c, p1) -> _client (mgr p1) = Some c.
Proof.
  unfold client. unfold bind at 1, gets at 1.
  destruct (_client (mgr p)) as [c0|] eqn:Hc.
  - unfold ret. intros H. injection H as <- <-. exact Hc.
  - intros H. apply bind_ok in H as (c1 & p2 & _ & H).
    unfold bind, gets, set_mgr, modify, ret in H. simpl in H.
    injection H as <- <-. reflexivity.
Qed.

Lemma steps_run {S A} (R : S -> S -> Prop) (m : M S A) s r s' :
  steps R m -> m s = (r, s') -> R s s'.
Proof. intros Hm Hrun. specialize (Hm s). rewrite Hrun in Hm. exact Hm. Qed.

(** A successful call leaves a client behind. *)
Lemma chat_completion_ok_client net messages p r p1 :
  chat_completion net messages p = (Ok r, p1) ->
  exists c, _client (mgr p1) = Some c.
Proof.
  unfold chat_completion. unfold bind at 1, gets at 1. intros H.
  apply try_except_ok in H as [H | (e & s1 & _ & _ & H)]; [|discriminate].
  assert (Hrest : forall c p0,
            client net p = (Ok c, p0) -> memo p0 p1 ->
            exists c, _client (mgr p1) = Some c).
  { intros c p0 Hc (_ & _ & Hm). apply client_ok_present in Hc.
    rewrite Hc in Hm. destruct Hm as [Hm _]. eauto. }
  destruct (provider (mgr p)).
  - unfold _openai_chat in H.
    apply bind_ok in H as (c & p0 & Hc & H). apply (Hrest c p0 Hc).
    apply bind_ok in H as (self & p2 & Hg & H). injection Hg as <- <-.
    revert H. apply steps_run.
    apply steps_bind; [exact _ | apply send_memo | intros ?].
    apply format_openai_any; exact _.
  - unfold _anthropic_chat in H.
    apply bind_ok in H as (c & p0 & Hc & H). apply (Hrest c p0 Hc).
    apply bind_ok in H as (self & p2 & Hg & H). injection Hg as <- <-.
    revert H. apply steps_run.
    destruct (MODEL_CONFIG !! full_model_name (mgr p0));
      [|apply steps_raise; exact _].
    apply steps_bind; [exact _ | apply send_memo | intros ?].
    apply format_anthropic_any; exact _.
  - unfold _ollama_chat in H.
    apply bind_ok in H as (c & p0 & Hc & H). apply (Hrest c p0 Hc).
    apply bind_ok in H as (self & p2 & Hg & H). injection Hg as <- <-.
    revert H. apply steps_run.
    apply steps_bind; [exact _ | apply send_memo | intros ?].
    apply steps_ret; exact _.
Qed.

(** X4.  The client of a manager is built lazily and at most once.  A call
    of [chat_completion] on a manager that has its client builds nothing
    and keeps that client; on a manager without client it builds at most
    the one native client of its provider, which it then keeps.  A call
    that returns leaves a client behind, so no later call on the same
    manager builds another. *)
Theorem client_built_at_most_once net messages p :
  memo p (snd (chat_completion net messages p)) /\
  (forall r p1,
     chat_completion net messages p = (Ok r, p1) ->
     (exists c, _client (mgr p1) = Some c) /\
     forall messages2,
       built (sys (snd (chat_completion net messages2 p1))) = built (sys p1) /\
       _client (mgr (snd (chat_completion net messages2 p1)))
       = _client (mgr p1)).
Proof.
  split; [apply chat_completion_memo|].
  intros r p1 Hrun.
  destruct (chat_completion_ok_client net messages p r p1 Hrun) as [c Hc].
  split; [eauto|]. intros messages2.
  destruct (chat_completion_memo net messages2 p1) as (_ & _ & Hm).
  rewrite Hc in Hm. destruct Hm as [Hc' Hb]. rewrite Hc. auto.
Qed.

Lemma client_built_at_most_once_witness :
  built (sys (snd (chat_completion Scenario.net_prose Scenario.hello
                     Scenario.proc_ollama))) = [OllamaClient] /\
  built (sys (snd (chat_completion Scenario.net_prose Scenario.hello
                     (snd (chat_completion Scenario.net_prose Scenario.hello
                             Scenario.proc_ollama))))) = [OllamaClient].
Proof.
  split; [vm_compute; reflexivity|].
  destruct (proj2 (client_built_at_most_once Scenario.net_prose Scenario.hello
                     Scenario.proc_ollama)
              (_format_ollama_response Scenario.plain_reply)
              (snd (chat_completion Scenario.net_prose Scenario.hello
                      Scenario.proc_ollama))) as [_ H].
  - vm_compute. reflexivity.
  - rewrite (proj1 (H Scenario.hello)). vm_compute. reflexivity.
Defined.

Lemma role_content_idem messages :
  role_content (role_content messages) = role_content messages.
Proof.
  unfold role_content. rewrite map_map. reflexivity.
Qed.

Lemma role_content_format self messages :
  role_content (_format_messages self messages) = role_content messages.
Proof.
  unfold _format_messages. destruct (provider self);
    [reflexivity | apply role_content_idem | reflexivity].
Qed.

Lemma try_except_raise_state {S A} (m : M S A) c (f : exn -> exn) s :
  snd (try_except m c (fun e => raise (f e)) s) = snd (m s).
Proof.
  unfold try_except, try_clauses. destruct (m s) as [[a|e] s1]; simpl;
    [reflexivity|]. destruct (c e); reflexivity.
Qed.

Lemma chat_completion_state net messages p :
  snd (chat_completion net messages p) =
  snd (match provider (mgr p) with
       | OLLAMA => _ollama_chat net (_format_messages (mgr p) messages)
       | ANTHROPIC => _anthropic_chat net (_format_messages (mgr p) messages)
       | OPENAI => _openai_chat net (_format_messages (mgr p) messages)
       end p).
Proof.
  unfold chat_completion. unfold bind at 1, gets at 1.
  apply try_except_raise_state.
Qed.

Lemma format_keeps_state_openai response p :
  snd (_format_openai_response response p) = p.
Proof.
  apply (format_openai_any (unchanged (fun p => p)) response p).
Qed.

Lemma format_keeps_state_anthropic response p :
  snd (_format_anthropic_response response p) = p.
Proof.
  apply (format_anthropic_any (unchanged (fun p => p)) response p).
Qed.

Lemma send_then {A B} rq (answer : nat -> result A) (k : A -> M Proc B) p :
  (forall a p0, snd (k a p0) = p0) ->
  sent (sys (snd ((response <- send rq answer ;; k response) p)))
  = (sent (sys p) ++ [rq])%list.
Proof.
  intros Hk. unfold bind, send, on_sys, zoom.
  destruct (answer (length (sent (sys p)))) as [a|e]; simpl.
  - rewrite Hk. reflexivity.
  - reflexivity.
Qed.

(** X5.  A call of [chat_completion] whose client is at hand sends exactly
    one request, the same role and content list for every provider (the
    Anthropic adapter sends none when the registry lacks the manager's
    model); a call that cannot construct its client sends nothing. *)
Theorem one_request_per_call net messages p :
  let p' := snd (chat_completion net messages p) in
  (client_available net p ->
   sent (sys p') =
   (sent (sys p) ++ match request_of (mgr p) messages with
                    | Some rq => [rq]
                    | None => []
                    end)%list) /\
  (forall e,
     _client (mgr p) = None -> connect net (native_client p) = Some e ->
     sent (sys p') = sent (sys p)).
Proof.
  intros p'. subst p'. rewrite chat_completion_state. split.
  - intros Hav.
    destruct (client_ready net p Hav) as (c & p1 & Hc & (Hf & Hp & Hn) & Hs).
    unfold request_of.
    destruct (provider (mgr p)).
    + unfold _openai_chat. rewrite (bind_step _ _ _ _ _ Hc).
      unfold bind at 1, gets at 1.
      rewrite send_then by (intros; apply format_keeps_state_openai).
      rewrite Hs, Hn, role_content_format. reflexivity.
    + unfold _anthropic_chat. rewrite (bind_step _ _ _ _ _ Hc).
      unfold bind at 1, gets at 1. rewrite Hf.
      destruct (MODEL_CONFIG !! full_model_name (mgr p)) as [cfg|].
      * rewrite send_then by (intros; apply format_keeps_state_anthropic).
        rewrite Hs, Hn, role_content_format. reflexivity.
      * simpl. rewrite Hs, app_nil_r. reflexivity.
    + unfold _ollama_chat. rewrite (bind_step _ _ _ _ _ Hc).
      unfold bind at 1, gets at 1.
      rewrite send_then by reflexivity.
      rewrite Hs, Hn, role_content_format. reflexivity.
  - intros e Hnone Hconn.
    destruct p as [[full prov name cl] [env dot blt snt]].
    simpl in Hnone. subst cl. unfold native_client in Hconn. simpl in Hconn.
    unfold _openai_chat, _anthropic_chat, _ollama_chat, client,
      _initialize_client, construct, on_sys, zoom, getenv, try_except,
      try_clauses, bind, gets, raise.
    simpl. destruct prov; simpl; rewrite Hconn; reflexivity.
Qed.

Lemma one_request_per_call_witness :
  sent (sys (snd (chat_completion Scenario.net_down Scenario.hello
                    Scenario.proc_ollama)))
  = [OllamaChat "qwen2.5-coder:14b" Scenario.hello].
Proof.
  apply (proj1 (one_request_per_call Scenario.net_down Scenario.hello
                  Scenario.proc_ollama)).
  right. reflexivity.
Defined.



(** ** Chat round-trips never fail the caller *)

Lemma chat_with_ai_failed net user_message edit rc af w :
  model_fails net (proc w) ->
  exists e p' name sending,
    chat_with_ai net user_message edit rc af w =
    (Ok None,
     with_log
       (log w ++
        [(INFO, sending);
         (ERROR, ("Error while communicating with AI " ++ name ++ ": "
                  ++ exn_str e)%string);
         (ERROR, ("Traceback (most recent call last): " ++ exn_str e)%string)])%list
       (with_proc p' w)).
Proof.
  intros Hfail.
  unfold chat_with_ai. unfold bind at 1, model_full_name at 1, gets at 1.
  cbv zeta.
  match goal with
  | |- context [try_except ?m _ _ w] =>
      assert (Hbody : exists e p' sending,
                m w = (Raised e,
                       with_proc p'
                         (with_log (log w ++ [(INFO, sending)])%list w)))
  end.
  { unfold bind at 1, gets at 1.
    destruct (edit && Nat.eqb rc 0);
      unfold bind at 1; rewrite logging_run;
      unfold bind at 1, on_proc, zoom; cbn [proc with_log];
      match goal with
      | |- context [chat_completion net ?msgs (proc w)] =>
          destruct (Hfail msgs) as (e & p' & Hrun)
      end; rewrite Hrun; do 3 eexists; reflexivity. }
  destruct Hbody as (e & p' & sending & Hbody).
  exists e, p', (full_model_name (mgr (proc w))), sending.
  rewrite (try_except_caught _ _ _ _ _ _ Hbody eq_refl).
  unfold bind, logging, modify, ret. simpl. rewrite <- !app_assoc.
  reflexivity.
Qed.

Lemma chat_with_ai_edit_history net user_message rc af :
  preserves conversation_history (chat_with_ai net user_message true rc af).
Proof.
  unfold chat_with_ai, model_full_name. cbv zeta. simpl negb. cbv iota.
  assert (Hlog : forall l m, preserves conversation_history (logging l m))
    by (intros l m w0; reflexivity).
  apply steps_bind; [exact _ | apply steps_gets; exact _ | intros name].
  apply steps_try_except; [exact _ | |].
  - apply steps_bind; [exact _ | apply steps_gets; exact _ | intros hist].
    apply steps_bind; [exact _ | apply steps_if; apply Hlog | intros _].
    apply steps_bind;
      [exact _ | apply on_proc_preserves; reflexivity | intros response].
    apply steps_bind; [exact _ | apply Hlog | intros _].
    apply steps_bind; [exact _ | intros w0; reflexivity | intros _].
    apply steps_bind; [exact _ | apply steps_ret; exact _ | intros _].
    apply steps_bind; [exact _ | apply steps_gets; exact _ | intros ?].
    apply steps_ret; exact _.
  - intros e.
    apply steps_bind; [exact _ | apply Hlog | intros _].
    apply steps_bind; [exact _ | apply Hlog | intros _].
    apply steps_ret; exact _.
Qed.



(** ** The history holds whole turns *)

Lemma steps_mono {S A} (R R' : S -> S -> Prop) (m : M S A) :
  (forall s s', R s s' -> R' s s') -> steps R m -> steps R' m.
Proof. intros Himp Hm s. apply Himp, Hm. Qed.

#[export] Instance keeps_pairs_preorder : PreOrder keeps_pairs.
Proof.
  split.
  - intros w H. exact H.
  - intros a b c Hab Hbc H. apply Hbc, Hab, H.
Qed.

(** The loop of [apply_edit_instructions] follows every relation that its
    round-trips follow. *)
Lemma edit_loop_steps (R : World -> World -> Prop) `{!PreOrder R} net ei :
  (forall prompt, steps R (chat_with_ai net prompt true 0 None)) ->
  forall items acc, steps R (edit_loop net ei items acc).
Proof.
  intros Hchat. induction items as [|[p c] rest IH]; intros acc; simpl.
  - apply steps_ret; exact _.
  - destruct (Dict.get p ei) as [instr|]; [|apply IH].
    apply steps_bind; [exact _ | apply Hchat | intros r].
    destruct (Py.truthy_opt r); apply IH.
Qed.

(** So does [apply_creation_steps], retries included. *)
Lemma apply_creation_steps_steps (R : World -> World -> Prop) `{!PreOrder R}
    net added_files :
  (forall l m, steps R (logging l m)) ->
  (forall t, steps R (print t)) ->
  (forall z, steps R (sleep z)) ->
  (forall code, steps R (apply_code_block code)) ->
  (forall m, steps R (chat_with_ai net m false 0 (Some added_files))) ->
  forall n retry_count, max_retries - retry_count <= n ->
  forall response,
    steps R (apply_creation_steps net response added_files retry_count).
Proof.
  intros Hlog Hprint Hsleep Hblock Hchat.
  induction n as [|n IH]; intros retry_count Hn response;
    rewrite apply_creation_steps_equation_1;
    (apply steps_try_clauses; [exact _ | |]).
  1, 3: unfold creation_body;
        destruct (Re.findall CODE_BLOCK response) as [|code codes];
        [apply steps_raise; exact _|];
        (apply steps_bind; [exact _ | apply Hlog | intros _]);
        (apply steps_bind; [exact _ | | intros _; apply steps_ret; exact _]);
        apply steps_for_each; [exact _ | exact Hblock].
  - constructor; [|constructor; [|constructor]]; intros e; cbn [snd].
    + destruct (lt_dec retry_count max_retries) as [Hlt|_]; [lia|].
      apply steps_bind; [exact _ | apply Hlog | intros _].
      apply steps_bind; [exact _ | apply Hprint | intros _].
      apply steps_bind; [exact _ | apply Hprint | intros _].
      apply steps_ret; exact _.
    + apply steps_bind; [exact _ | apply Hlog | intros _].
      apply steps_ret; exact _.
  - constructor; [|constructor; [|constructor]]; intros e; cbn [snd].
    + destruct (lt_dec retry_count max_retries) as [Hlt|_].
      * apply steps_bind; [exact _ | apply Hlog | intros _].
        cbv zeta.
        apply steps_bind; [exact _ | apply Hsleep | intros _].
        apply steps_bind; [exact _ | apply Hchat | intros reply].
        destruct (Py.truthy_opt reply); [|apply steps_ret; exact _].
        apply IH. lia.
      * apply steps_bind; [exact _ | apply Hlog | intros _].
        apply steps_bind; [exact _ | apply Hprint | intros _].
        apply steps_bind; [exact _ | apply Hprint | intros _].
        apply steps_ret; exact _.
    + apply steps_bind; [exact _ | apply Hlog | intros _].
      apply steps_ret; exact _.
Qed.

Lemma entries_app a b : entries (a ++ b) = (entries a ++ entries b)%list.
Proof. unfold entries. apply flat_map_app. Qed.

Lemma whole_pairs_turn h m r :
  whole_pairs h -> whole_pairs (truncated (h ++ [Some m; r])).
Proof.
  intros (turns & -> & Hlen).
  change [Some m; r] with (entries [(m, r)]).
  rewrite <- entries_app, truncated_last_n.
  destruct (le_lt_dec (length turns) 9) as [Hle | Hgt].
  - exists (turns ++ [(m, r)])%list. split.
    + apply last_n_all. rewrite entries_length, length_app. simpl. lia.
    + rewrite length_app. simpl. lia.
  - exists (skipn 1 (turns ++ [(m, r)]))%list. split.
    + unfold Py.last_n. rewrite entries_length, length_app. simpl length.
      replace (2 * (length turns + 1) - 20) with (2 * 1) by lia.
      apply entries_skipn.
    + rewrite length_skipn, length_app. simpl. lia.
Qed.

Lemma unchanged_keeps_pairs w w' :
  unchanged conversation_history w w' -> keeps_pairs w w'.
Proof. unfold unchanged, keeps_pairs. intros ->. auto. Qed.

Lemma chat_with_ai_keeps_pairs net user_message edit rc af :
  steps keeps_pairs (chat_with_ai net user_message edit rc af).
Proof.
  destruct edit.
  - eapply steps_mono; [apply unchanged_keeps_pairs|].
    apply chat_with_ai_edit_history.
  - intros w Hw.
    destruct (chat_with_ai_returns net user_message false rc af w)
      as (r & w' & Hrun).
    rewrite Hrun. simpl.
    destruct (chat_with_ai_history _ _ _ _ _ _ _ Hrun) as [[_ ->] | [m ->]].
    + exact Hw.
    + apply whole_pairs_turn. exact Hw.
Qed.

Lemma labelled_entries turns : forall i,
  Nat.even i = true ->
  labelled i (entries turns) =
  flat_map (fun t => ["User: " ++ fst t; "AI: " ++ Py.str_opt (snd t)]) turns.
Proof.
  induction turns as [|[m r] turns IH]; intros i Hi; [reflexivity|].
  assert (Hsi : Nat.even (S i) = false)
    by (rewrite Nat.even_succ, <- Nat.negb_even, Hi; reflexivity).
  change (entries ((m, r) :: turns)) with (Some m :: r :: entries turns).
  cbn [labelled flat_map fst snd app]. rewrite Hi, Hsi.
  rewrite (IH (S (S i))) by exact Hi. reflexivity.
Qed.

(** X8.  The history always consists of whole turns, at most ten of them:
    a history of that shape (the empty one of a fresh session is) keeps it
    through every chat round-trip, every creation with its retries and
    every application of edit instructions, which does not touch the
    history at all.  On such a history the labels of the transcript are
    right: what was sent is labelled [User:], what came back [AI:]. *)
Theorem history_keeps_whole_pairs net w :
  whole_pairs (conversation_history w) ->
  (forall user_message edit rc af,
     whole_pairs (conversation_history
                    (snd (chat_with_ai net user_message edit rc af w)))) /\
  (forall response added_files retry_count,
     whole_pairs (conversation_history
                    (snd (apply_creation_steps net response added_files
                            retry_count w)))) /\
  (forall edit_instructions original_files,
     conversation_history
       (snd (apply_edit_instructions net edit_instructions original_files w))
     = conversation_history w) /\
  (exists turns,
     conversation_history w = entries turns /\ length turns <= 10 /\
     labelled 0 (conversation_history w) =
     flat_map (fun t => ["User: " ++ fst t; "AI: " ++ Py.str_opt (snd t)])
       turns).
Proof.
  intros Hw. split; [|split; [|split]].
  - intros user_message edit rc af.
    apply (chat_with_ai_keeps_pairs net user_message edit rc af w Hw).
  - intros response added_files retry_count.
    refine (apply_creation_steps_steps keeps_pairs net added_files
              _ _ _ _ _ max_retries retry_count _ response w Hw).
    + intros l m. eapply steps_mono; [apply unchanged_keeps_pairs|].
      intros s; reflexivity.
    + intros t. eapply steps_mono; [apply unchanged_keeps_pairs|].
      intros s; reflexivity.
    + intros z. eapply steps_mono; [apply unchanged_keeps_pairs|].
      intros s; reflexivity.
    + intros code. eapply steps_mono; [apply unchanged_keeps_pairs|].
      apply apply_code_block_preserves; reflexivity.
    + intros m. apply chat_with_ai_keeps_pairs.
    + lia.
  - intros ei original. unfold apply_edit_instructions.
    apply (edit_loop_steps (unchanged conversation_history) net ei).
    intros prompt. apply chat_with_ai_edit_history.
  - destruct Hw as (turns & Hh & Hlen). exists turns.
    split; [exact Hh|]. split; [exact Hlen|].
    rewrite Hh. apply labelled_entries. reflexivity.
Qed.

Lemma history_keeps_whole_pairs_witness :
  whole_pairs
    (conversation_history
       (snd (chat_with_ai Scenario.net_prose "one more" false 0 None
               Scenario.w_full))).
Proof.
  apply (proj1 (history_keeps_whole_pairs Scenario.net_prose Scenario.w_full
                  ltac:(exists Scenario.ten_turns; split;
                        [reflexivity | vm_compute; lia]))).
Defined.

(** ** The cost of a creation *)

Lemma client_sent net p : sent (sys (snd (client net p))) = sent (sys p).
Proof.
  destruct (client_steps net (fun _ => False) p) as [_ (l & Hl & HF)].
  destruct l as [|rq l].
  - rewrite app_nil_r in Hl. exact Hl.
  - apply Forall_cons in HF as [[] _].
Qed.

Lemma chat_completion_sent_le net messages p :
  length (sent (sys (snd (chat_completion net messages p))))
  <= S (length (sent (sys p))).
Proof.
  rewrite chat_completion_state.
  pose proof (client_sent net p) as Hc.
  destruct (client net p) as [[c|e] p1] eqn:Hcl; simpl in Hc.
  - destruct (provider (mgr p)).
    + unfold _openai_chat. rewrite (bind_step _ _ _ _ _ Hcl).
      unfold bind at 1, gets at 1.
      rewrite send_then by (intros; apply format_keeps_state_openai).
      rewrite Hc, length_app. simpl. lia.
    + unfold _anthropic_chat. rewrite (bind_step _ _ _ _ _ Hcl).
      unfold bind at 1, gets at 1.
      destruct (MODEL_CONFIG !! full_model_name (mgr p1)) as [cfg|].
      * rewrite send_then by (intros; apply format_keeps_state_anthropic).
        rewrite Hc, length_app. simpl. lia.
      * simpl. rewrite Hc. lia.
    + unfold _ollama_chat. rewrite (bind_step _ _ _ _ _ Hcl).
      unfold bind at 1, gets at 1.
      rewrite send_then by reflexivity.
      rewrite Hc, length_app. simpl. lia.
  - destruct (provider (mgr p));
      unfold _openai_chat, _anthropic_chat, _ollama_chat;
      rewrite (bind_fail _ _ _ _ _ Hcl); simpl; rewrite Hc; lia.
Qed.

(** The process after a chat round-trip is the one a single model call
    leaves. *)
Lemma chat_with_ai_proc net user_message edit rc af w :
  exists messages,
    proc (snd (chat_with_ai net user_message edit rc af w))
    = snd (chat_completion net messages (proc w)).
Proof.
  unfold chat_with_ai. unfold bind at 1, model_full_name at 1, gets at 1.
  cbv zeta.
  unfold try_except, try_clauses. unfold bind at 1, gets at 1.
  unfold bind at 1.
  match goal with
  | |- context [(if ?b then logging ?l ?m1 else logging ?l ?m2) w] =>
      replace ((if b then logging l m1 else logging l m2) w)
        with (Ok tt, with_log (log w ++ [(l, if b then m1 else m2)]) w)
        by (destruct b; reflexivity)
  end.
  unfold bind at 1, on_proc at 1, zoom at 1. cbn [proc with_log].
  match goal with
  | |- context [chat_completion net ?msgs (proc w)] =>
      exists msgs;
      destruct (chat_completion net msgs (proc w)) as [[response|e] p1] eqn:Hrun
  end.
  - match goal with
    | |- proc (snd match ?m ?w0 with _ => _ end) = _ =>
        assert (Hp : preserves proc m)
    end.
    { assert (Hlog : forall l m, preserves proc (logging l m))
        by (intros l m w0; reflexivity).
      apply steps_bind; [exact _ | apply Hlog | intros _].
      apply steps_bind; [exact _ | intros w0; reflexivity | intros _].
      apply steps_bind; [exact _ | | intros _].
      - apply steps_if; [|apply steps_ret; exact _].
        apply record_turn_preserves; reflexivity.
      - apply steps_bind; [exact _ | apply steps_gets; exact _ | intros ?].
        apply steps_ret; exact _. }
    match goal with
    | |- proc (snd match ?m ?w0 with _ => _ end) = _ =>
        specialize (Hp w0); destruct (m w0) as [[r|e] w1]
    end; simpl in *; exact Hp.
  - reflexivity.
Qed.

Lemma chat_with_ai_sent_le net user_message edit rc af w :
  length (sent (sys (proc (snd (chat_with_ai net user_message edit rc af w)))))
  <= S (length (sent (sys (proc w)))).
Proof.
  destruct (chat_with_ai_proc net user_message edit rc af w) as (msgs & ->).
  apply chat_completion_sent_le.
Qed.

Lemma creation_cost net added_files : forall n retry_count,
  max_retries - retry_count <= n ->
  forall response w,
  exists ok w' k,
    apply_creation_steps net response added_files retry_count w = (Ok ok, w')
    /\ k <= max_retries - retry_count
    /\ slept w' = (slept w ++ waits retry_count k)%list
    /\ length (sent (sys (proc w'))) <= length (sent (sys (proc w))) + k.
Proof.
  assert (Hblocks : forall retry_count response w,
            Re.findall CODE_BLOCK response <> [] ->
            exists ok w' k,
              apply_creation_steps net response added_files retry_count w
              = (Ok ok, w')
              /\ k <= max_retries - retry_count
              /\ slept w' = (slept w ++ waits retry_count k)%list
              /\ length (sent (sys (proc w')))
                 <= length (sent (sys (proc w))) + k).
  { intros retry_count response w Hne.
    destruct (apply_creation_steps_returns net added_files max_retries
                retry_count ltac:(lia) response w) as (ok & w' & Hrun).
    pose proof (apply_creation_steps_blocks_frame slept net response
                  added_files retry_count w (fun _ _ => eq_refl)
                  (fun _ _ => eq_refl) (fun _ _ => eq_refl) Hne) as Hs.
    pose proof (apply_creation_steps_blocks_frame proc net response
                  added_files retry_count w (fun _ _ => eq_refl)
                  (fun _ _ => eq_refl) (fun _ _ => eq_refl) Hne) as Hp.
    rewrite Hrun in Hs, Hp. simpl in Hs, Hp.
    exists ok, w', 0. split; [exact Hrun|]. split; [lia|].
    rewrite Hs, Hp. unfold waits. simpl. rewrite app_nil_r.
    split; [reflexivity | lia]. }
  assert (Hgive : forall retry_count response w,
            max_retries <= retry_count ->
            Re.findall CODE_BLOCK response = [] ->
            exists ok w' k,
              apply_creation_steps net response added_files retry_count w
              = (Ok ok, w')
              /\ k <= max_retries - retry_count
              /\ slept w' = (slept w ++ waits retry_count k)%list
              /\ length (sent (sys (proc w')))
                 <= length (sent (sys (proc w))) + k).
  { intros retry_count response w Hge Hnone.
    exists false, (given_up response w), 0.
    split; [apply no_blocks_given_up; assumption|]. split; [lia|].
    unfold waits. simpl. rewrite app_nil_r. split; [reflexivity | lia]. }
  induction n as [|n IH]; intros retry_count Hn response w;
    destruct (Re.findall CODE_BLOCK response) as [|code codes] eqn:Hb;
    try (apply Hblocks; rewrite Hb; discriminate).
  - apply Hgive; [lia | exact Hb].
  - destruct (le_lt_dec max_retries retry_count) as [Hge | Hlt];
      [apply Hgive; assumption|].
    destruct (no_blocks_retry net response added_files retry_count w Hlt Hb)
      as (reply & w2 & Hchat & Hslept & _ & _ & Hrun).
    pose proof (chat_with_ai_sent_le net retry_message false 0
                  (Some added_files) (before_retry retry_count w)) as Hsent.
    rewrite Hchat in Hsent. simpl in Hsent.
    destruct (Py.truthy_opt reply).
    + destruct (IH (retry_count + 1) ltac:(lia) (default "" reply) w2)
        as (ok & w' & k & Hrec & Hk & Hs & Hq).
      exists ok, w', (S k). split; [rewrite Hrun; exact Hrec|].
      split; [lia|]. split.
      * rewrite Hs, Hslept, waits_step. simpl. rewrite <- app_assoc.
        replace (S retry_count) with (retry_count + 1) by lia. reflexivity.
      * lia.
    + exists false, w2, 1. split; [exact Hrun|]. split; [lia|].
      split; [rewrite Hslept; reflexivity | lia].
Qed.

(** X9.  A creation always returns, whatever the model answers, and its
    cost is bounded: it re-issues the round-trip [k] times for some [k] of
    at most [max_retries - retry_count] (three for a fresh call), waits
    2^retry_count, 2^(retry_count+1), ... seconds before them and sends at
    most [k] requests. *)
Theorem creation_retries_bounded net response added_files retry_count w :
  exists ok w' k,
    apply_creation_steps net response added_files retry_count w = (Ok ok, w')
    /\ k <= max_retries - retry_count
    /\ slept w' = (slept w ++ waits retry_count k)%list
    /\ length (sent (sys (proc w'))) <= length (sent (sys (proc w))) + k.
Proof.
  apply (creation_cost net added_files max_retries retry_count). lia.
Qed.

(** ** Creation does not create *)





(** ** What the parser keeps *)

Lemma split_char_pieces sep s : Py.split_char sep s <> [].
Proof.
  destruct s as [|c s]; simpl; [discriminate|].
  destruct (Ascii.eqb c sep); [discriminate|].
  destruct (Py.split_char sep s); discriminate.
Qed.

Lemma split_char_app sep a b :
  Py.split_char sep (a ++ String sep b)
  = (Py.split_char sep a ++ Py.split_char sep b)%list.
Proof.
  induction a as [|c a IH]; simpl.
  - rewrite Ascii.eqb_refl. reflexivity.
  - destruct (Ascii.eqb c sep); [rewrite IH; reflexivity|].
    rewrite IH. pose proof (split_char_pieces sep a) as Hne.
    destruct (Py.split_char sep a); [congruence | reflexivity].
Qed.

Lemma parse_line_idle st line :
  is_marker line = false -> Py.truthy_opt (current_file st) = false ->
  parse_line st line = st.
Proof.
  intros Hm Hc. unfold parse_line. rewrite Hm, Hc, andb_false_r. reflexivity.
Qed.

Lemma parse_lines_idle lines : forall st,
  Forall (fun l => is_marker l = false) lines ->
  Py.truthy_opt (current_file st) = false ->
  fold_left parse_line lines st = st.
Proof.
  induction lines as [|line lines IH]; intros st Hall Hc; [reflexivity|].
  apply Forall_cons in Hall as [Hl Hall]. simpl.
  rewrite parse_line_idle by assumption. apply IH; assumption.
Qed.

(** X11.  Whatever a response says before its first marker line is
    dropped: the text parses as if it started at the line after. *)
Theorem parse_ignores_preamble preamble rest :
  Forall (fun l => is_marker l = false)
    (Py.split_char Py.newline preamble) ->
  parse_edit_instructions (preamble ++ nl ++ rest)
  = parse_edit_instructions rest.
Proof.
  intros Hpre. unfold parse_edit_instructions, parse_lines.
  change (nl ++ rest) with (String Py.newline rest).
  rewrite split_char_app, fold_parse_app.
  rewrite (parse_lines_idle _ parse_start Hpre eq_refl). reflexivity.
Qed.

Lemma parse_ignores_preamble_witness :
  parse_edit_instructions
    ("Here are the edits:" ++ nl ++ "" ++ nl ++ "File: a.py" ++ nl ++ "1. fix")
  = [("a.py", "1. fix")].
Proof.
  change ("Here are the edits:" ++ nl ++ "" ++ nl ++ "File: a.py" ++ nl
          ++ "1. fix")
    with (("Here are the edits:" ++ nl ++ "") ++ nl
          ++ ("File: a.py" ++ nl ++ "1. fix")).
  rewrite parse_ignores_preamble.
  - vm_compute. reflexivity.
  - vm_compute. repeat constructor.
Defined.

Lemma in_keys_set {V} p k (v : V) d :
  In p (Dict.keys (Dict.set k v d)) <-> p = k \/ In p (Dict.keys d).
Proof.
  rewrite dict_keys_set. unfold Dict.mem.
  destruct (Dict.get k d) as [v0|] eqn:E.
  - split; [auto|]. intros [-> | H]; [|exact H].
    apply dict_get_some_in in E. unfold Dict.keys.
    apply in_map_iff. exists (k, v0). auto.
  - rewrite in_app_iff. simpl. split; intros H.
    + destruct H as [H | [<- | []]]; auto.
    + destruct H as [-> | H]; auto.
Qed.

Lemma in_keys_store p st :
  In p (Dict.keys (store_current st)) <-> In p (seen st).
Proof.
  unfold store_current, seen. rewrite in_app_iff.
  destruct (current_file st) as [f|]; simpl; [|tauto].
  destruct (Py.truthy f); simpl; [|tauto].
  rewrite in_keys_set. intuition congruence.
Qed.

Lemma seen_parse_line p st line :
  In p (seen (parse_line st line)) <->
  In p (seen st) \/
  (p <> "" /\ is_marker line = true /\ marker_path line = p).
Proof.
  unfold parse_line. destruct (is_marker line) eqn:Hm.
  - unfold seen at 1. cbn [instructions current_file].
    rewrite in_app_iff, in_keys_store. fold (marker_path line).
    destruct (marker_path line) as [|c s] eqn:Hp; simpl.
    + split; [tauto|]. intros [H | (Hne & _ & <-)]; [tauto | congruence].
    + split.
      * intros [H | [<- | []]]; [tauto|]. right. repeat split. discriminate.
      * intros [H | (_ & _ & <-)]; tauto.
  - assert (Hsame : seen (if Py.truthy (Py.strip line)
                             && Py.truthy_opt (current_file st)
                          then {| instructions := instructions st;
                                  current_file := current_file st;
                                  current_instructions :=
                                    (current_instructions st
                                     ++ [Py.strip line])%list |}
                          else st) = seen st)
      by (destruct (_ && _); reflexivity).
    rewrite Hsame. split; [tauto|]. intros [H | (_ & H & _)];
      [exact H | discriminate].
Qed.

Lemma seen_fold p lines : forall st,
  In p (seen (fold_left parse_line lines st)) <->
  In p (seen st) \/
  (p <> "" /\
   exists line, In line lines /\ is_marker line = true /\ marker_path line = p).
Proof.
  induction lines as [|l lines IH]; intros st; simpl.
  - split; [tauto|]. intros [H | (_ & line & [] & _)]. exact H.
  - rewrite IH, seen_parse_line. split.
    + intros [[H | (Hne & Hm & Hp)] | (Hne & line & Hin & Hm & Hp)].
      * tauto.
      * right. split; [exact Hne|]. exists l. auto.
      * right. split; [exact Hne|]. exists line. auto.
    + intros [H | (Hne & line & [<- | Hin] & Hm & Hp)].
      * tauto.
      * left. right. auto.
      * right. split; [exact Hne|]. exists line. auto.
Qed.

(** X12.  The files of a parsed instruction map are exactly the paths that
    some marker line of the response names, the empty path apart: every
    named file has an entry, even when no instruction follows its marker,
    and nothing else has. *)
Theorem parse_keys_are_marker_paths response p :
  In p (Dict.keys (parse_edit_instructions response)) <->
  p <> "" /\
  exists line,
    In line (Py.split_char Py.newline response) /\
    is_marker line = true /\ marker_path line = p.
Proof.
  unfold parse_edit_instructions, parse_lines.
  rewrite in_keys_store, seen_fold. unfold seen. simpl. tauto.
Qed.

(** ** Files the model does not rewrite *)

Lemma edit_loop_keys net ei : forall items acc w p,
  In p (Dict.keys (default [] (match fst (edit_loop net ei items acc w) with
                               | Ok d => Some d
                               | Raised _ => None
                               end))) ->
  In p (Dict.keys acc) \/ In p (Dict.keys items).
Proof.
  induction items as [|[p0 c0] rest IH]; intros acc w p; simpl; [auto|].
  destruct (Dict.get p0 ei) as [instr|].
  - destruct (chat_with_ai_returns net (edit_prompt p0 c0 instr) true 0
                None w) as (r & w1 & Hchat).
    rewrite (bind_step _ _ _ _ _ Hchat).
    destruct (Py.truthy_opt r); intros H; apply IH in H;
      try rewrite in_keys_set in H; simpl; intuition (subst; auto).
  - intros H. apply IH in H. rewrite in_keys_set in H.
    simpl; intuition (subst; auto).
Qed.

Lemma edit_loop_failing net ei : always_fails net ->
  forall items acc w,
    NoDup (Dict.keys (acc ++ items)%list) ->
    exists w',
      edit_loop net ei items acc w = (Ok (acc ++ unnamed ei items)%list, w').
Proof.
  intros Hfail. induction items as [|[p0 c0] rest IH]; intros acc w Hnd.
  - exists w. simpl. rewrite app_nil_r. reflexivity.
  - simpl. unfold unnamed, Dict.mem. simpl.
    destruct (Dict.get p0 ei) as [instr|]; simpl.
    + destruct (chat_with_ai_failed net (edit_prompt p0 c0 instr) true 0
                  None w (Hfail (proc w)))
        as (e & p' & name & sending & Hchat).
      rewrite (bind_step _ _ _ _ _ Hchat). simpl.
      apply IH. unfold Dict.keys in *. rewrite map_app in *. simpl in Hnd.
      apply NoDup_app in Hnd as (Ha & Hd & Hr).
      apply NoDup_cons in Hr as [_ Hr].
      apply NoDup_app. split; [exact Ha|]. split; [|exact Hr].
      intros x Hx Hx'. apply (Hd x Hx). right. exact Hx'.
    + rewrite dict_set_fresh.
      * destruct (IH (acc ++ [(p0, c0)])%list w) as (w' & Hrun).
        { rewrite <- app_assoc. exact Hnd. }
        exists w'. rewrite Hrun, <- app_assoc. reflexivity.
      * unfold Dict.keys in Hnd. rewrite map_app in Hnd.
        apply NoDup_app in Hnd as (_ & Hdisj & _).
        intros Hp. apply (Hdisj p0).
        -- apply list_elem_of_In. exact Hp.
        -- simpl. left.
Qed.

(** X13.  The result of [apply_edit_instructions] holds no file that was
    not among the original files.  A named file whose rewrite fails is not
    carried over with its old content, it is left out: when every model
    call fails, the result is exactly the files the instructions do not
    name, in their order, with their contents. *)
Theorem edit_failed_rewrites_dropped net edit_instructions original_files w :
  (forall modified w' p,
     apply_edit_instructions net edit_instructions original_files w
     = (Ok modified, w') ->
     In p (Dict.keys modified) -> In p (Dict.keys original_files)) /\
  (always_fails net -> Dict.wf original_files ->
   exists w',
     apply_edit_instructions net edit_instructions original_files w
     = (Ok (unnamed edit_instructions original_files), w')).
Proof.
  unfold apply_edit_instructions. split.
  - intros modified w' p Hrun Hin.
    destruct (edit_loop_keys net edit_instructions original_files Dict.empty
                w p) as [[] | H]; [|exact H].
    rewrite Hrun. exact Hin.
  - intros Hfail Hwf.
    apply (edit_loop_failing net edit_instructions Hfail original_files
             Dict.empty w Hwf).
Qed.

Lemma net_down_fails : always_fails Scenario.net_down.
Proof.
  intros [[full prov name cl] [env dot blt snt]] messages.
  destruct prov, cl as [c|];
    try (destruct (MODEL_CONFIG !! full) as [cfg|] eqn:Hcfg);
    unfold chat_completion, _openai_chat, _anthropic_chat, _ollama_chat,
      client, _initialize_client, construct, set_mgr, send, on_sys, zoom,
      getenv, try_except, try_clauses, bind, gets, modify, ret, raise;
    simpl; try rewrite Hcfg; simpl; eauto.
Qed.

Lemma edit_failed_rewrites_dropped_witness :
  exists w',
    apply_edit_instructions Scenario.net_down Scenario.only_a
      Scenario.two_files Scenario.w_fresh
    = (Ok [("b.py", "print(2)")], w').
Proof.
  apply (proj2 (edit_failed_rewrites_dropped Scenario.net_down
                  Scenario.only_a Scenario.two_files Scenario.w_fresh)).
  - exact net_down_fails.
  - apply (bool_decide_unpack _). vm_compute. exact I.
Defined.

(** ** What ingestion accepts *)

#[export] Instance reported_preorder : PreOrder reported.
Proof.
  split.
  - intros w. repeat split.
  - intros a b c (H1 & H2 & H3 & H4 & H5) (K1 & K2 & K3 & K4 & K5).
    repeat split; congruence.
Qed.

Lemma read_text_run p w :
  read_text p w =
  match lookup_path (fs w) p with
  | Some (File data true _) => (Ok data, w)
  | Some (File _ false _) =>
      (Raised (Exn OSError ("Permission denied" ++ ": '" ++ p ++ "'") None), w)
  | Some (Dir _ _) =>
      (Raised (Exn OSError ("Is a directory" ++ ": '" ++ p ++ "'") None), w)
  | None =>
      (Raised (Exn OSError ("No such file or directory" ++ ": '" ++ p ++ "'")
                 None), w)
  end.
Proof.
  unfold read_text, bind, gets, os_error, raise, ret.
  destruct (lookup_path (fs w) p) as [[data [] wr | r wr]|]; reflexivity.
Qed.

Lemma is_binary_file_run file_path w :
  exists b w',
    is_binary_file file_path w = (Ok b, w') /\ reported w w' /\
    stdout w' = stdout w /\
    (b = false <->
     exists data wr,
       lookup_path (fs w) file_path = Some (File data true wr) /\
       text_like data) /\
    (b = false -> w' = w).
Proof.
  unfold is_binary_file, try_except, try_clauses. unfold bind at 1.
  rewrite read_text_run.
  destruct (lookup_path (fs w) file_path) as [[data [] wr | r wr]|] eqn:Hl;
    try (do 2 eexists; split; [reflexivity|];
         split; [repeat split|]; split; [reflexivity|];
         split; [|discriminate];
         split; [discriminate | intros (d & x & Hd & _); discriminate]).
  unfold text_like. cbv zeta.
  destruct (Py.contains (String nul EmptyString) (Py.slice_to 1024 data))
    eqn:Hnul.
  { do 2 eexists. split; [reflexivity|]. split; [repeat split|].
    split; [reflexivity|]. split; [|discriminate].
    split; [discriminate|].
    intros (d & x & Hd & _ & Hn & _). injection Hd as <- _. congruence. }
  destruct (String.eqb_spec (Py.slice_to 1024 data) "") as [He | Hne].
  { do 2 eexists. split; [reflexivity|]. split; [repeat split|].
    split; [reflexivity|]. split; [|discriminate].
    split; [discriminate|].
    intros (d & x & Hd & Hc & _). injection Hd as <- _. congruence. }
  destruct (Z.ltb_spec (3 * Py.len (Py.slice_to 1024 data))
              (10 * count_if non_text (Py.slice_to 1024 data))) as [Hlt | Hge].
  { do 2 eexists. split; [reflexivity|]. split; [repeat split|].
    split; [reflexivity|]. split; [|discriminate].
    split; [discriminate|].
    intros (d & x & Hd & _ & _ & Hq). injection Hd as <- _. lia. }
  do 2 eexists. split; [reflexivity|]. split; [repeat split|].
  split; [reflexivity|]. split; [|reflexivity].
  split; [|reflexivity]. intros _. exists data, wr. auto.
Qed.










(** X14.  [is_binary_file] never raises and changes nothing but the log.
    It answers [False] exactly for a readable file whose first 1024
    characters are not empty, hold no NUL and at most 30% control
    characters; a missing or unreadable file, a directory and an empty
    file all count as binary. *)
Theorem is_binary_file_spec file_path w :
  exists b w',
    is_binary_file file_path w = (Ok b, w') /\ reported w w' /\
    stdout w' = stdout w /\
    (b = false <->
     exists data wr,
       lookup_path (fs w) file_path = Some (File data true wr) /\
       text_like data) /\
    (b = false -> w' = w).
Proof. apply is_binary_file_run. Qed.

(** ** The loops of an [/add] command *)
















(** ** Writing needs consent *)







(** ** An edit changes only the files it was given *)








(** ** What a turn records *)

Lemma client_identity net p :
  same_identity (mgr (snd (client net p))) (mgr p).
Proof. apply (client_steps net (fun _ => True) p). Qed.

Lemma send_ok {A} rq (answer : nat -> result A) p a p2 :
  send rq answer p = (Ok a, p2) ->
  sent (sys p2) = (sent (sys p) ++ [rq])%list /\ mgr p2 = mgr p.
Proof.
  unfold send, on_sys, zoom.
  destruct (answer (length (sent (sys p)))); intros H; injection H as _ <-;
    split; reflexivity.
Qed.

(** A call that returns has sent its one request. *)
Lemma chat_completion_ok_sent net messages p r p1 :
  chat_completion net messages p = (Ok r, p1) ->
  exists rq,
    request_of (mgr p) messages = Some rq /\
    sent (sys p1) = (sent (sys p) ++ [rq])%list.
Proof.
  unfold chat_completion. unfold bind at 1, gets at 1. intros H.
  apply try_except_ok in H as [H | (e & s1 & _ & _ & H)]; [|discriminate].
  cbv zeta in H. unfold request_of.
  pose proof (client_sent net p) as Hcs.
  pose proof (client_identity net p) as (Hf & _ & Hn).
  destruct (provider (mgr p)).
  - unfold _openai_chat in H.
    apply bind_ok in H as (c & p0 & Hc & H). rewrite Hc in Hcs, Hf, Hn.
    apply bind_ok in H as (self & p2 & Hg & H). injection Hg as <- <-.
    cbv zeta in H.
    apply bind_ok in H as (resp & p3 & Hs & H). apply send_ok in Hs as [Hs _].
    pose proof (format_keeps_state_openai resp p3) as Hk.
    rewrite H in Hk. simpl in Hk, Hcs, Hn. subst p3.
    eexists. split; [reflexivity|].
    rewrite Hs, Hcs, Hn, role_content_format. reflexivity.
  - unfold _anthropic_chat in H.
    apply bind_ok in H as (c & p0 & Hc & H). rewrite Hc in Hcs, Hf, Hn.
    apply bind_ok in H as (self & p2 & Hg & H). injection Hg as <- <-.
    simpl in Hf, Hn, Hcs. rewrite Hf in H.
    destruct (MODEL_CONFIG !! full_model_name (mgr p)) as [cfg|];
      [|discriminate].
    cbv zeta in H.
    apply bind_ok in H as (resp & p3 & Hs & H). apply send_ok in Hs as [Hs _].
    pose proof (format_keeps_state_anthropic resp p3) as Hk.
    rewrite H in Hk. simpl in Hk. subst p3.
    eexists. split; [reflexivity|].
    rewrite Hs, Hcs, Hn, role_content_format. reflexivity.
  - unfold _ollama_chat in H.
    apply bind_ok in H as (c & p0 & Hc & H). rewrite Hc in Hcs, Hf, Hn.
    apply bind_ok in H as (self & p2 & Hg & H). injection Hg as <- <-.
    cbv zeta in H.
    apply bind_ok in H as (resp & p3 & Hs & H). apply send_ok in Hs as [Hs _].
    injection H as _ <-. simpl in Hcs, Hn.
    eexists. split; [reflexivity|].
    rewrite Hs, Hcs, Hn, role_content_format. reflexivity.
Qed.

Lemma request_of_messages self messages rq :
  request_of self messages = Some rq ->
  request_messages rq = role_content messages.
Proof.
  unfold request_of.
  destruct (provider self); [| destruct (MODEL_CONFIG !! _) |];
    intros H; try discriminate; injection H as <-; reflexivity.
Qed.

Lemma prefix_app a b : String.prefix a (a ++ b) = true.
Proof.
  induction a as [|c a IH]; simpl; [destruct b; reflexivity|].
  destruct (ascii_dec c c); [exact IH | congruence].
Qed.

(** X20.  A chat round-trip that is not an edit request either fails,
    returning nothing and leaving history and last response alone, or it
    sends exactly one request, one user message, and records that very
    text as the user's entry of the turn, followed by the reply.  The text
    starts with the transcript of the history so far: what is recorded for
    a turn contains all that was recorded before it. *)
Theorem recorded_turn_is_sent_text net user_message rc af w r w' :
  chat_with_ai net user_message false rc af w = (Ok r, w') ->
  (r = None /\ conversation_history w' = conversation_history w /\
   last_ai_response w' = last_ai_response w) \/
  exists rq text,
    sent (sys (proc w')) = (sent (sys (proc w)) ++ [rq])%list /\
    request_messages rq = [{| role := "user"; content := text |}] /\
    conversation_history w'
    = truncated (conversation_history w ++ [Some text; r]) /\
    last_ai_response w' = r /\
    Py.startswith (Py.join nl (labelled 0 (conversation_history w))) text
    = true.
Proof.
  unfold chat_with_ai, model_full_name. unfold bind at 1, gets at 1.
  cbv zeta. simpl negb. cbv iota.
  intros H. apply try_except_ok in H as [H | (e & s1 & H & _ & Hh)].
  - right.
    apply bind_ok in H as (hist & w0 & H0 & H). unfold gets in H0.
    injection H0 as <- <-.
    apply bind_ok in H as ([] & w1 & H1 & H).
    apply bind_ok in H as (response & w2 & H2 & H).
    apply bind_ok in H as ([] & w3 & H3 & H).
    apply bind_ok in H as ([] & w4 & H4 & H).
    apply bind_ok in H as ([] & w5 & H5 & H).
    simpl in H1. rewrite logging_run in H1, H3. injection H1 as <-.
    apply on_proc_history in H2 as Hh2. simpl in Hh2.
    unfold on_proc, zoom in H2. cbn [proc with_log] in H2.
    destruct (chat_completion net _ (proc w)) as [[resp|e] p1] eqn:Hcc;
      [|discriminate H2].
    injection H2 as <- <-.
    apply chat_completion_ok_sent in Hcc as (rq & Hrq & Hsent).
    apply request_of_messages in Hrq.
    injection H3 as <-. unfold modify in H4. injection H4 as <-.
    rewrite record_turn_history in H5. injection H5 as <-.
    unfold bind, gets, ret in H. simpl in H. injection H as <- <-.
    exists rq. eexists. split; [exact Hsent|]. split; [exact Hrq|].
    split; [reflexivity|]. split; [reflexivity|].
    destruct (Py.truthy (Py.join nl (labelled 0 (conversation_history w))))
      eqn:Ht.
    + apply prefix_app.
    + destruct (Py.join nl (labelled 0 (conversation_history w)));
        [|discriminate].
      unfold Py.startswith.
      match goal with |- String.prefix "" ?s = true => destruct s end;
        reflexivity.
  - left.
    unfold bind, logging, modify, ret in Hh. simpl in Hh.
    injection Hh as <- <-. split; [reflexivity|]. simpl.
    apply bind_raised in H as [H | (hist & w0 & H0 & H)]; [discriminate|].
    unfold gets in H0. injection H0 as <- <-.
    apply bind_raised in H as [H | ([] & w1 & H1 & H)];
      [simpl in H; rewrite logging_run in H; discriminate|].
    simpl in H1. rewrite logging_run in H1. injection H1 as <-.
    apply bind_raised in H as [H | (response & w2 & H2 & H)].
    { unfold on_proc, zoom in H. destruct (chat_completion _ _ _) as [r0 p0].
      injection H as _ <-. split; reflexivity. }
    exfalso.
    apply bind_raised in H as [H | ([] & w3 & H3 & H)];
      [rewrite logging_run in H; discriminate|].
    apply bind_raised in H as [H | ([] & w4 & H4 & H)]; [discriminate|].
    apply bind_raised in H as [H | ([] & w5 & H5 & H)].
    { rewrite record_turn_history in H. discriminate. }
    discriminate.
Qed.

Lemma recorded_turn_is_sent_text_witness :
  exists rq text,
    request_messages rq = [{| role := "user"; content := text |}] /\
    conversation_history
      (snd (chat_with_ai Scenario.net_prose "and then?" false 0 None
              Scenario.w_full))
    = truncated (conversation_history Scenario.w_full
                 ++ [Some text; Some "I cannot do that."]) /\
    Py.startswith
      (Py.join nl (labelled 0 (conversation_history Scenario.w_full))) text
    = true.
Proof.
  destruct (recorded_turn_is_sent_text Scenario.net_prose "and then?" 0 None
              Scenario.w_full (Some "I cannot do that.")
              (snd (chat_with_ai Scenario.net_prose "and then?" false 0 None
                      Scenario.w_full)))
    as [(Hn & _) | (rq & text & Hsent & Hrq & Hh & Hl & Hp)].
  - vm_compute. reflexivity.
  - discriminate Hn.
  - exists rq, text. split; [exact Hrq|]. split; [exact Hh | exact Hp].
Defined.

(** ** Creation creates no file *)

#[export] Instance disk_changed_preorder : PreOrder disk_changed.
Proof.
  split.
  - intros w q. left. reflexivity.
  - intros a b c Hab Hbc q. specialize (Hab q). specialize (Hbc q).
    unfold disk_changed, changed in *.
    destruct Hbc as [E | [[Hn Hd] | (old & data & r & Ho & Hn)]];
      destruct Hab as [E' | [[Hn' Hd'] | (old' & data' & r' & Ho' & Hn')]].
    + left. congruence.
    + right. left. split; congruence.
    + right. right. exists old', data', r'. split; congruence.
    + right. left. split; congruence.
    + congruence.
    + congruence.
    + right. right. exists old, data, r. split; congruence.
    + congruence.
    + right. right. rewrite Hn' in Ho. injection Ho as <- <-.
      exists old', data, r'. split; congruence.
Qed.

Lemma fs_kept_disk_changed w w' :
  unchanged fs w w' -> disk_changed w w'.
Proof. intros H q. left. rewrite H. reflexivity. Qed.

Lemma check_parent_state p w : snd (check_parent p w) = w.
Proof.
  unfold check_parent, bind, gets, os_error, raise, ret.
  destruct (dirname (normpath p)); [reflexivity|].
  destruct (lookup_path (fs w) _) as [[data r wr | r [] ]|]; reflexivity.
Qed.

Lemma lookup_none_key f p :
  p <> "" -> lookup_path f p = None -> f !! normpath p = None.
Proof.
  unfold lookup_path. intros Hp.
  destruct (String.eqb_spec p ""); [contradiction|].
  destruct (String.eqb (normpath p) ""); [discriminate | auto].
Qed.

Lemma mkdir_if_absent_changed p w :
  p <> "" -> disk_changed w (snd (mkdir_if_absent p w)).
Proof.
  intros Hp. unfold mkdir_if_absent. unfold bind at 1, gets at 1.
  destruct (lookup_path (fs w) p) as [[data r wr | r wr]|] eqn:Hl;
    try (intros q; left; reflexivity).
  unfold bind. pose proof (check_parent_state p w) as Hs.
  destruct (check_parent p w) as [[[]|e] w1]; simpl in Hs; subst w1;
    [|intros q; left; reflexivity].
  unfold modify. intros q. cbn [snd fs with_fs].
  apply lookup_none_key in Hl; [|exact Hp].
  destruct (String.eqb_spec (normpath p) q) as [<- | Hne].
  - right. left. split; [exact Hl | apply lookup_insert_eq].
  - left. apply lookup_insert_ne. exact Hne.
Qed.

Lemma for_each_changed (l : list string) body :
  (forall x, In x l -> forall w, disk_changed w (snd (body x w))) ->
  forall w, disk_changed w (snd (for_each l body w)).
Proof.
  induction l as [|x l IH]; intros Hb w; simpl.
  - reflexivity.
  - unfold bind. pose proof (Hb x (or_introl eq_refl) w) as Hx.
    destruct (body x w) as [[[]|e] w1]; simpl in *; [|exact Hx].
    etransitivity; [exact Hx|]. apply IH. intros y Hy. apply Hb. right.
    exact Hy.
Qed.

Lemma ancestors_nonempty s : forall pre a,
  In a (ancestors_from pre s) -> a <> "".
Proof.
  induction s as [|c s IH]; intros pre a; simpl; [intros []|].
  rewrite in_app_iff. intros [H | H]; [|apply (IH _ _ H)].
  destruct (Ascii.eqb c slash); [|destruct H].
  destruct (String.eqb_spec pre ""); simpl in H; [destruct H|].
  destruct H as [<- | []]. assumption.
Qed.

Lemma makedirs_changed p : steps disk_changed (makedirs p).
Proof.
  intros w. unfold makedirs.
  destruct (String.eqb p ""); [reflexivity|].
  destruct (String.eqb_spec (normpath p) "") as [|Hne]; [reflexivity|].
  apply for_each_changed. intros a Ha w0.
  apply mkdir_if_absent_changed.
  apply in_app_iff in Ha as [Ha | [<- | []]].
  - apply (ancestors_nonempty _ _ _ Ha).
  - exact Hne.
Qed.

(** Entries that are there stay through the making of directories. *)
Lemma mkdir_if_absent_keeps p w q nd :
  p <> "" -> fs w !! q = Some nd ->
  fs (snd (mkdir_if_absent p w)) !! q = Some nd.
Proof.
  intros Hp Hq. unfold mkdir_if_absent. unfold bind at 1, gets at 1.
  destruct (lookup_path (fs w) p) as [[data r wr | r wr]|] eqn:Hl;
    try exact Hq.
  unfold bind. pose proof (check_parent_state p w) as Hs.
  destruct (check_parent p w) as [[[]|e] w1]; simpl in Hs; subst w1;
    [|exact Hq].
  unfold modify. cbn [snd fs with_fs].
  apply lookup_none_key in Hl; [|exact Hp].
  rewrite lookup_insert_ne; [exact Hq|]. intros <-. congruence.
Qed.

Lemma makedirs_keeps p w q nd :
  fs w !! q = Some nd -> fs (snd (makedirs p w)) !! q = Some nd.
Proof.
  unfold makedirs.
  destruct (String.eqb p ""); [auto|].
  destruct (String.eqb_spec (normpath p) "") as [|Hne]; [auto|].
  assert (Hall : forall a, In a (ancestors_from "" (normpath p)
                                 ++ [normpath p])%list -> a <> "").
  { intros a Ha. apply in_app_iff in Ha as [Ha | [<- | []]].
    - apply (ancestors_nonempty _ _ _ Ha).
    - exact Hne. }
  revert w. induction (ancestors_from "" (normpath p) ++ [normpath p])%list
    as [|a l IH]; intros w Hq; simpl; [exact Hq|].
  unfold bind.
  pose proof (mkdir_if_absent_keeps a w q nd (Hall a (or_introl eq_refl)) Hq)
    as Ha.
  destruct (mkdir_if_absent a w) as [[[]|e] w1]; simpl in Ha; [|exact Ha].
  apply IH; [|exact Ha]. intros b Hb. apply Hall. right. exact Hb.
Qed.

Lemma lookup_path_kept f f' p nd :
  (forall q x, f !! q = Some x -> f' !! q = Some x) ->
  lookup_path f p = Some nd -> lookup_path f' p = Some nd.
Proof.
  intros Hk. unfold lookup_path.
  destruct (String.eqb p ""); [discriminate|].
  destruct (String.eqb (normpath p) ""); [auto | apply Hk].
Qed.

Lemma write_text_changed path text w nd :
  lookup_path (fs w) path = Some nd ->
  disk_changed w (snd (write_text path text w)).
Proof.
  intros Hl. unfold write_text, bind, gets, modify, os_error, raise.
  rewrite Hl. destruct nd as [old r [] | r wr];
    try (intros q; left; reflexivity).
  cbn [snd]. intros q. cbn [fs with_fs].
  destruct (String.eqb_spec (normpath path) q) as [<- | Hne].
  - right. right. exists old, text, r. split; [|apply lookup_insert_eq].
    revert Hl. unfold lookup_path.
    destruct (String.eqb path ""); [discriminate|].
    destruct (String.eqb (normpath path) ""); [discriminate | auto].
  - left. apply lookup_insert_ne. exact Hne.
Qed.

Lemma apply_code_block_changed code :
  steps disk_changed (apply_code_block code).
Proof.
  intros w. unfold apply_code_block.
  destruct (Re.re_match ITEM_INFO (Py.strip code))
    as [[|item_type [|path [|x l]]]|]; try (intros q; left; reflexivity).
  unfold bind at 1, Eng.exists_ at 1, gets at 1.
  destruct (lookup_path (fs w) path) as [nd|] eqn:Hl; cbn [negb];
    [|intros q; left; reflexivity].
  unfold bind at 1, access_w at 1, gets at 1. rewrite Hl.
  destruct (negb _); [intros q; left; reflexivity|].
  destruct (String.eqb item_type "FOLDER").
  { unfold bind. pose proof (makedirs_changed path w) as Hm.
    destruct (makedirs path w) as [[[]|e] w1]; exact Hm. }
  destruct (String.eqb item_type "FILE"); [|reflexivity].
  cbv zeta. unfold bind at 1.
  match goal with
  | |- context [match ?m w with _ => _ end] =>
      assert (Hdir : disk_changed w (snd (m w)) /\
                     lookup_path (fs (snd (m w))) path = Some nd)
  end.
  { destruct (Py.truthy (dirname path)); [|split; [reflexivity | exact Hl]].
    unfold bind, Eng.exists_, gets.
    destruct (lookup_path (fs w) (dirname path)); cbn [negb];
      [split; [reflexivity | exact Hl]|].
    pose proof (makedirs_changed (dirname path) w) as Hm.
    assert (Hk : lookup_path (fs (snd (makedirs (dirname path) w))) path
                 = Some nd).
    { apply (lookup_path_kept (fs w)); [|exact Hl].
      intros q x. apply makedirs_keeps. }
    destruct (makedirs (dirname path) w) as [[[]|e] w1]; simpl in *;
      split; assumption. }
  match goal with
  | |- context [match ?m w with _ => _ end] =>
      destruct (m w) as [[[]|e] w1]
  end; cbn [snd] in Hdir; destruct Hdir as [Hch Hl1]; [|exact Hch].
  etransitivity; [exact Hch|].
  unfold bind. pose proof (write_text_changed path
    (Py.strip (Re.delete_first FILE_LINE code)) w1 nd Hl1) as Hw.
  destruct (write_text path _ w1) as [[[]|e] w2]; exact Hw.
Qed.

(** X21.  A creation creates no file, whatever the model answers and
    however often it is asked again: every file on disk afterwards was a
    file before, with the same permissions, and every entry that was there
    still is.  All a creation can do to a file is to give a new content to
    one that exists and is writable. *)
Theorem creation_creates_no_file net response added_files retry_count w :
  let w' := snd (apply_creation_steps net response added_files retry_count w)
  in
  changed (fs w) (fs w') /\
  (forall q data r wr,
     fs w' !! q = Some (File data r wr) ->
     exists old, fs w !! q = Some (File old r wr)) /\
  (forall q nd, fs w !! q = Some nd -> fs w' !! q <> None).
Proof.
  intros w'.
  assert (Hch : disk_changed w w').
  { refine (apply_creation_steps_steps disk_changed net added_files
              _ _ _ apply_code_block_changed _ max_retries retry_count _
              response w).
    - intros l m. eapply steps_mono; [apply fs_kept_disk_changed|].
      intros s; reflexivity.
    - intros t. eapply steps_mono; [apply fs_kept_disk_changed|].
      intros s; reflexivity.
    - intros z. eapply steps_mono; [apply fs_kept_disk_changed|].
      intros s; reflexivity.
    - intros m. eapply steps_mono; [apply fs_kept_disk_changed|].
      apply chat_with_ai_preserves; reflexivity.
    - lia. }
  split; [exact Hch|]. split.
  - intros q data r wr Hq.
    destruct (Hch q) as [E | [[_ Hd] | (old & data' & r' & Ho & Hn)]].
    + exists data. congruence.
    + congruence.
    + exists old. congruence.
  - intros q nd Hq.
    destruct (Hch q) as [E | [[Hn _] | (old & data' & r' & Ho & Hn)]];
      congruence.
Qed.

(** ** The patterns on arbitrary text *)

Lemma code_block_needs_fence s :
  Py.startswith fence s = false -> Re.match_at CODE_BLOCK s = None.
Proof.
  intros H. unfold Re.match_at, CODE_BLOCK. cbn [Re.run].
  unfold fence in H. rewrite H. reflexivity.
Qed.

Lemma findall_without_fence s :
  Py.contains fence s = false -> Re.findall CODE_BLOCK s = [].
Proof.
  unfold Re.findall. induction s as [|c s IH]; cbn [Py.contains].
  - intros H. apply orb_false_iff in H as [H _].
    cbn [Re.findall_from]. rewrite code_block_needs_fence by exact H.
    reflexivity.
  - intros H. apply orb_false_iff in H as [H H'].
    cbn [Re.findall_from]. rewrite code_block_needs_fence by exact H.
    apply IH. exact H'.
Qed.

(** X22.  A response that has no code fence has no code block: it is the
    parse failure that the retries are for. *)
Theorem no_fence_no_blocks response :
  Py.contains fence response = false ->
  Re.findall CODE_BLOCK response = [] /\
  forall w, creation_body response w = (Raised no_blocks_error, w).
Proof.
  intros H. apply findall_without_fence in H. split; [exact H|].
  intros w. apply creation_body_no_blocks. exact H.
Qed.

Lemma no_fence_no_blocks_witness :
  Re.findall CODE_BLOCK Scenario.prose = [].
Proof.
  apply (proj1 (no_fence_no_blocks Scenario.prose ltac:(vm_compute; reflexivity))).
Defined.


Lemma length_append p rest :
  String.length (p ++ rest) = String.length p + String.length rest.
Proof. induction p as [|a p IH]; simpl; [reflexivity | rewrite IH; reflexivity]. Qed.

Lemma slice_to_app p rest :
  Py.slice_to (String.length (p ++ rest) - String.length rest) (p ++ rest) = p.
Proof.
  rewrite length_append.
  replace (String.length p + String.length rest - String.length rest)
    with (String.length p) by lia.
  induction p as [|a p IH]; simpl.
  - destruct rest; reflexivity.
  - rewrite IH. reflexivity.
Qed.

Lemma slice_from_app p rest :
  Py.slice_from (String.length p) (p ++ rest) = rest.
Proof. induction p as [|a p IH]; simpl; [reflexivity | exact IH]. Qed.

Lemma run_lit {R} l t caps (k : Re.cont (R:=R)) :
  Re.run (Re.Lit l) (l ++ t) caps k = k t caps.
Proof.
  cbn [Re.run]. unfold Py.startswith.
  rewrite prefix_app, slice_from_app. reflexivity.
Qed.

Lemma run_seq {R} r1 r2 s caps (k : Re.cont (R:=R)) :
  Re.run (Re.Seq r1 r2) s caps k
  = Re.run r1 s caps (fun s' caps' => Re.run r2 s' caps' k).
Proof. reflexivity. Qed.

Lemma run_group {R} r s caps (k : Re.cont (R:=R)) :
  Re.run (Re.Group r) s caps k
  = Re.run r s caps
      (fun s' caps' =>
         k s' (caps' ++ [Py.slice_to (String.length s - String.length s') s])%list).
Proof. reflexivity. Qed.



Lemma run_lit_fail {R} l s caps (k : Re.cont (R:=R)) :
  Py.startswith l s = false -> Re.run (Re.Lit l) s caps k = None.
Proof. intros H. cbn [Re.run]. rewrite H. reflexivity. Qed.






Lemma append_assoc a b c : a ++ (b ++ c) = (a ++ b) ++ c.
Proof.
  induction a as [|x a IH]; [reflexivity|].
  change (String x (a ++ b ++ c) = String x ((a ++ b) ++ c)).
  f_equal. exact IH.
Qed.






(** ** Code blocks of a response *)

Lemma rep_greedy_all {R} cl (k : Re.cont (R:=R)) caps rest x :
  match rest with
  | EmptyString => True
  | String c _ => Re.in_class cl c = false
  end ->
  k rest caps = Some x ->
  forall p min,
    all_chars (Re.in_class cl) p = true -> min <= String.length p ->
    Re.rep cl true min (p ++ rest) caps k = Some x.
Proof.
  intros Hend Hk. induction p as [|a p IH]; intros min Hp Hmin.
  - simpl in Hmin. assert (min = 0) as -> by lia.
    change ("" ++ rest) with rest.
    destruct rest as [|c rest]; [exact Hk|].
    cbn [Re.rep]. rewrite Hend. exact Hk.
  - cbn [all_chars] in Hp. apply andb_true_iff in Hp as [Ha Hp].
    change (String a p ++ rest) with (String a (p ++ rest)).
    cbn [Re.rep]. rewrite Ha.
    rewrite (IH (Nat.pred min)); [| exact Hp | simpl in Hmin; lia].
    destruct min; reflexivity.
Qed.

Lemma rep_lazy_first {R} cl (k : Re.cont (R:=R)) caps rest x :
  k rest caps = Some x ->
  forall body,
    all_chars (Re.in_class cl) body = true ->
    (forall b1 b2, body = b1 ++ b2 -> b2 <> "" -> k (b2 ++ rest) caps = None) ->
    Re.rep cl false 0 (body ++ rest) caps k = Some x.
Proof.
  intros Hk. induction body as [|a body IH]; intros Hall Hno.
  - change ("" ++ rest) with rest. destruct rest; cbn [Re.rep]; rewrite Hk;
      reflexivity.
  - cbn [all_chars] in Hall. apply andb_true_iff in Hall as [Ha Hall].
    change (String a body ++ rest) with (String a (body ++ rest)).
    cbn [Re.rep].
    change (String a (body ++ rest)) with (String a body ++ rest).
    rewrite (Hno "" (String a body) eq_refl) by discriminate.
    rewrite Ha. cbn [Nat.pred]. apply IH; [exact Hall|].
    intros b1 b2 -> Hb2. apply (Hno (String a b1) b2 eq_refl Hb2).
Qed.

Lemma all_chars_any s : all_chars (Re.in_class Re.AnyChar) s = true.
Proof. induction s as [|c s IH]; [reflexivity | exact IH]. Qed.

Lemma contains_app_r sub a t :
  Py.contains sub t = true -> Py.contains sub (a ++ t) = true.
Proof.
  intros H. induction a as [|c a IH]; [exact H|].
  change (String c a ++ t) with (String c (a ++ t)).
  cbn [Py.contains]. rewrite IH. apply orb_true_r.
Qed.

Lemma contains_prefix sub t :
  Py.startswith sub t = true -> Py.contains sub t = true.
Proof. intros H. destruct t; cbn [Py.contains]; rewrite H; reflexivity. Qed.

Lemma prefix_cons a s1 b0 s2 :
  String.prefix (String a s1) (String b0 s2)
  = Ascii.eqb a b0 && String.prefix s1 s2.
Proof.
  cbn [String.prefix]. destruct (Ascii.ascii_dec a b0) as [-> | Hne].
  - rewrite Ascii.eqb_refl. reflexivity.
  - destruct (Ascii.eqb_spec a b0); [congruence | reflexivity].
Qed.

(** A fence that begins inside a text and ends in the fence after it
    begins in the text followed by two backticks. *)
Lemma fence_straddle b t :
  b <> "" -> Py.startswith fence (b ++ fence ++ t) = true ->
  Py.startswith fence (b ++ "``") = true.
Proof.
  unfold Py.startswith, fence.
  destruct b as [|c1 [|c2 [|c3 b]]]; [congruence| | |]; intros _.
  - change (String c1 "" ++ "```" ++ t) with (String c1 ("```" ++ t)).
    change (String c1 "" ++ "``") with (String c1 "``").
    change ("```" ++ t) with (String "`" (String "`" (String "`" t))).
    rewrite !prefix_cons. destruct (Ascii.eqb "`" c1); [|discriminate].
    intros _. reflexivity.
  - change (String c1 (String c2 "") ++ "```" ++ t)
      with (String c1 (String c2 (String "`" (String "`" (String "`" t))))).
    change (String c1 (String c2 "") ++ "``")
      with (String c1 (String c2 "``")).
    rewrite !prefix_cons.
    destruct (Ascii.eqb "`" c1), (Ascii.eqb "`" c2); try discriminate.
    intros _. reflexivity.
  - change (String c1 (String c2 (String c3 b)) ++ "```" ++ t)
      with (String c1 (String c2 (String c3 (b ++ "```" ++ t)))).
    change (String c1 (String c2 (String c3 b)) ++ "``")
      with (String c1 (String c2 (String c3 (b ++ "``")))).
    rewrite !prefix_cons.
    destruct (Ascii.eqb "`" c1), (Ascii.eqb "`" c2), (Ascii.eqb "`" c3);
      try discriminate.
    intros _. destruct (b ++ "``"); reflexivity.
Qed.

Lemma fence_free_inside text t b1 b2 :
  fence_free text -> text = b1 ++ b2 -> b2 <> "" ->
  Py.startswith fence (b2 ++ fence ++ t) = false.
Proof.
  unfold fence_free. intros Hfree -> Hb2.
  destruct (Py.startswith fence (b2 ++ fence ++ t)) eqn:E; [|reflexivity].
  apply fence_straddle in E; [|exact Hb2].
  apply contains_prefix in E. apply (contains_app_r _ b1) in E.
  rewrite append_assoc in E. congruence.
Qed.

Lemma run_opt {R} r s caps (k : Re.cont (R:=R)) :
  Re.run (Re.Opt r) s caps k
  = match Re.run r s caps k with
    | Some x => Some x
    | None => k s caps
    end.
Proof. reflexivity. Qed.

Lemma run_rep {R} c min greedy s caps (k : Re.cont (R:=R)) :
  Re.run (Re.Rep c min greedy) s caps k = Re.rep c greedy min s caps k.
Proof. reflexivity. Qed.

Lemma lstrip_length s : String.length (Py.lstrip s) <= String.length s.
Proof.
  induction s as [|c s IH]; simpl; [lia|].
  destruct (Py.isspace c); simpl; lia.
Qed.

Lemma lstrip_fixed_head c s :
  Py.lstrip (String c s) = String c s -> Py.isspace c = false.
Proof.
  simpl. destruct (Py.isspace c); [|reflexivity].
  intros H. pose proof (lstrip_length s) as Hl. rewrite H in Hl.
  simpl in Hl. lia.
Qed.

(** The match of the block pattern at an opening fence. *)
Lemma code_block_at_fence tag body tail :
  all_chars Py.isword tag = true -> Py.lstrip body = body ->
  fence_free body ->
  Re.match_at CODE_BLOCK (fence ++ tag ++ nl ++ body ++ fence ++ tail)
  = Some ([body], tail).
Proof.
  intros Htag Hbody Hfree.
  unfold Re.match_at, CODE_BLOCK, fence.
  rewrite run_seq, run_lit. rewrite run_seq.
  set (k1 := fun (s' : string) (caps' : Re.captures) =>
               Re.run (Re.Seq (Re.Rep Re.Space 0 true)
                         (Re.Seq (Re.Group (Re.Rep Re.AnyChar 0 false))
                            (Re.Lit "```")))
                 s' caps' (fun rest caps => Some (caps, rest))).
  assert (Hk1 : k1 (nl ++ body ++ "```" ++ tail) [] = Some ([body], tail)).
  { subst k1. cbv beta. rewrite run_seq, run_rep.
    apply (rep_greedy_all Re.Space _ [] (body ++ "```" ++ tail) _)
      with (p := nl) (min := 0); [| | reflexivity | simpl; lia].
    - destruct body as [|c body]; [reflexivity|].
      apply (lstrip_fixed_head c body Hbody).
    - cbv beta. rewrite run_seq, run_group, run_rep.
      apply (rep_lazy_first Re.AnyChar _ [] ("```" ++ tail)).
      + cbv beta. rewrite run_lit. rewrite slice_to_app. reflexivity.
      + apply all_chars_any.
      + intros b1 b2 Hsplit Hb2. cbv beta. apply run_lit_fail.
        apply (fence_free_inside body tail b1 b2 Hfree Hsplit Hb2). }
  rewrite run_opt.
  destruct tag as [|c tag].
  - change ("" ++ nl ++ body ++ "```" ++ tail)
      with (nl ++ body ++ "```" ++ tail).
    replace (Re.run (Re.Rep Re.Word 1 true) (nl ++ body ++ "```" ++ tail) [] k1)
      with (@None (Re.captures * string)) by reflexivity.
    exact Hk1.
  - rewrite run_rep.
    rewrite (rep_greedy_all Re.Word k1 [] (nl ++ body ++ "```" ++ tail)
               ([body], tail)); [reflexivity | reflexivity | exact Hk1 | |].
    + exact Htag.
    + simpl. lia.
Qed.

Lemma findall_skip r a t :
  Re.findall_from r (String.length a) (a ++ t) = Re.findall_from r 0 t.
Proof. induction a as [|c a IH]; [reflexivity | exact IH]. Qed.

Lemma fence_free_tail c text : fence_free (String c text) -> fence_free text.
Proof.
  unfold fence_free.
  change (String c text ++ "``") with (String c (text ++ "``")).
  cbn [Py.contains]. intros H. apply orb_false_iff in H as [_ H]. exact H.
Qed.

Lemma findall_block tag body tail :
  all_chars Py.isword tag = true -> Py.lstrip body = body ->
  fence_free body ->
  Re.findall CODE_BLOCK (fence ++ tag ++ nl ++ body ++ fence ++ tail)
  = body :: Re.findall CODE_BLOCK tail.
Proof.
  intros Htag Hbody Hfree. unfold Re.findall.
  pose proof (code_block_at_fence tag body tail Htag Hbody Hfree) as Hm.
  assert (Hshape : fence ++ tag ++ nl ++ body ++ fence ++ tail
                   = String "`" (("``" ++ tag ++ nl ++ body ++ fence) ++ tail)).
  { unfold fence.
    change ("```" ++ tag ++ nl ++ body ++ "```" ++ tail)
      with (String "`" ("``" ++ (tag ++ (nl ++ (body ++ ("```" ++ tail)))))).
    f_equal. rewrite !append_assoc. reflexivity. }
  rewrite Hshape in *. cbn [Re.findall_from]. rewrite Hm.
  cbn [hd]. f_equal.
  replace (Nat.pred (String.length
                       (String "`" (("``" ++ tag ++ nl ++ body ++ fence)
                                    ++ tail)) - String.length tail))
    with (String.length ("``" ++ tag ++ nl ++ body ++ fence)).
  - apply findall_skip.
  - cbn [String.length]. rewrite (length_append _ tail). lia.
Qed.

Lemma findall_after_prose pre s :
  fence_free pre ->
  Re.findall CODE_BLOCK (pre ++ fence ++ s) = Re.findall CODE_BLOCK (fence ++ s).
Proof.
  unfold Re.findall. induction pre as [|c pre IH]; intros Hfree; [reflexivity|].
  change (String c pre ++ fence ++ s) with (String c (pre ++ fence ++ s)).
  cbn [Re.findall_from].
  change (String c (pre ++ fence ++ s)) with (String c pre ++ fence ++ s).
  rewrite code_block_needs_fence.
  - apply IH. apply (fence_free_tail c pre Hfree).
  - apply (fence_free_inside (String c pre) s "" (String c pre) Hfree eq_refl).
    discriminate.
Qed.

(** X24.  The code blocks of a response are what stands between its
    fences: where prose without a fence is followed by an opening fence,
    an optional language tag, a line break, a text without leading blanks
    in which no fence begins, and the closing fence, that text is the
    first block, and the blocks of the rest of the response follow. *)
Theorem fenced_block_extracted pre tag body tail :
  fence_free pre -> all_chars Py.isword tag = true ->
  Py.lstrip body = body -> fence_free body ->
  Re.findall CODE_BLOCK (pre ++ fence ++ tag ++ nl ++ body ++ fence ++ tail)
  = body :: Re.findall CODE_BLOCK tail.
Proof.
  intros Hpre Htag Hbody Hfree.
  rewrite findall_after_prose by exact Hpre.
  apply findall_block; assumption.
Qed.

Lemma fenced_block_extracted_witness :
  Re.findall CODE_BLOCK
    (("Here you are:" ++ nl) ++ fence ++ "python" ++ nl ++ ("print(1)" ++ nl)
     ++ fence ++ nl ++ "Done.")
  = ("print(1)" ++ nl) :: Re.findall CODE_BLOCK (nl ++ "Done.").
Proof. apply fenced_block_extracted; vm_compute; reflexivity. Defined.



